(** * dayspan: the recurrence engine (Schedule.ts) and the calendar grid
    (Calendar.ts), embedded shallowly.

    Numbers that the code uses as counters, identifiers and indices are
    integers in [Z]; the arithmetic of the code on them (increment,
    comparison, [Math.max], [Math.floor] of a quotient) is exact on the
    integers a calendar handles, so no rounding is modelled.

    The classes [Day], [DaySpan], [Time], [Op], [Constants] and [Parse] are
    collaborators whose source is not part of the two files embedded here.
    What the two files call on them is collected in the class
    [Day.Capability]; every definition below is parametric in it. *)

From stdpp Require Import base option list gmap.
From Stdlib Require Import ZArith Lia.

#[local] Open Scope Z_scope.

(** ** The Day / DaySpan capability *)

Module Day.

(** [Op]: the rounding modes the two files pass ([Op.UP], [Op.DOWN]). *)
Inductive Op : Type := UP | DOWN.

(** A [DaySpan] object: two mutable fields. *)
Record DaySpan (Day : Type) : Type := mkDaySpan {
  start : Day;
  end_ : Day
}.
Arguments mkDaySpan {Day} _ _.
Arguments start {Day} _.
Arguments end_ {Day} _.

(** The operations of [Day], [DaySpan] and [Time] that Schedule.ts and
    Calendar.ts call.  [time] is the instant a day value stands for; the
    comparisons of the code are read on it (see [isSameOrAfter],
    [isBefore]). *)
Class Capability (Day : Type) : Type := {
  Time : Type;
  DurationInput : Type;
  (* ordering *)
  time : Day -> Z;
  (* components *)
  dayIdentifier : Day -> Z;
  dayOfWeek : Day -> Z;
  dayOfMonth : Day -> Z;
  dayOfYear : Day -> Z;
  year : Day -> Z;
  month : Day -> Z;
  week : Day -> Z;
  weekOfYear : Day -> Z;
  weekspanOfYear : Day -> Z;
  fullWeekOfYear : Day -> Z;
  weekOfMonth : Day -> Z;
  weekspanOfMonth : Day -> Z;
  fullWeekOfMonth : Day -> Z;
  (* arithmetic *)
  next : Day -> Day;
  prev : Day -> Day;
  relative : Day -> Z -> Day;
  add : Day -> Z -> DurationInput -> Day;
  startOfDay : Day -> Day;              (* [day.start()] *)
  startOfWeek : Day -> Day;
  endOfWeek : Day -> Day;
  withTime : Day -> Time -> Day;
  daysBetween : Day -> Day -> Op -> bool -> Z;
  (* same-unit tests *)
  sameDay : Day -> Day -> bool;
  sameWeek : Day -> Day -> bool;
  sameMonth : Day -> Day -> bool;
  sameYear : Day -> Day -> bool;
  sameTime : Day -> Time -> bool;
  (* DaySpan *)
  days : DaySpan Day -> Op -> option bool -> Z;   (* [None]: argument left out *)
  isPoint : DaySpan Day -> bool;
  contains : DaySpan Day -> Day -> bool;
  spanMatchesDay : DaySpan Day -> Day -> bool;
  spanMatchesWeek : DaySpan Day -> Day -> bool;
  spanMatchesMonth : DaySpan Day -> Day -> bool;
  spanMatchesYear : DaySpan Day -> Day -> bool;
  (* Time and Constants *)
  toMilliseconds : Time -> Z;
  DURATION_TO_MILLIS : DurationInput -> option Z;
  MILLIS_IN_DAY : Z;
  MAX_EVENTS_PER_DAY : Z
}.

Section Ordering.
Context {Day : Type} `{!Capability Day}.

(** Modelled from the spec: the Day capability is totally ordered; the
    comparison methods of [Day], whose source is missing, are read on
    the instant [time]. *)
Definition isSameOrAfter (a b : Day) : bool := time b <=? time a.

(** Modelled from the spec: as [isSameOrAfter], for [Day.isBefore]. *)
Definition isBefore (a b : Day) : bool := time a <? time b.

(** Modelled from the spec: as [isSameOrAfter], for [Day.isSameOrBefore]. *)
Definition isSameOrBefore (a b : Day) : bool := time a <=? time b.

(** [k] calls of [prev] (resp. [next]) from [d]. *)
Definition back (k : nat) (d : Day) : Day := Nat.iter k prev d.
Definition forth (k : nat) (d : Day) : Day := Nat.iter k next d.
End Ordering.

(** What the calendar grid relies on from the capability: a day is the
    same day as itself, and [span.days(op)], called without its second
    argument, counts no negative number of days. *)
Class Laws (Day : Type) `{!Capability Day} : Prop := {
  sameDay_refl : forall d : Day, sameDay d d = true;
  days_nonneg : forall (sp : DaySpan Day) op, 0 <= days sp op None
}.

End Day.

(** ** Frequency checks (Types.ts, Parse.frequency) *)

Inductive FrequencyValue : Type :=
| Always
| Every (every offset : Z)
| OneOf (values : list Z).

(** A [FrequencyCheck] is a function object with an [input] property. *)
Record FrequencyCheck : Type := mkCheck {
  check :> Z -> bool;
  input : FrequencyValue
}.

(** Modelled from the spec: the predicate a frequency value compiles to
    (the compiler, [Parse.frequency], is not among the source files). *)
Definition frequency (v : FrequencyValue) : FrequencyCheck :=
  mkCheck
    match v with
    | Always => fun _ => true
    | Every every offset => fun x => (x - offset) mod every =? 0
    | OneOf values => fun x => existsb (Z.eqb x) values
    end
    v.

(** ** Schedule.ts *)

Module Schedule.
Import Day.

(** JavaScript truthiness of a property read on [ScheduleExclusions]
    ([{ [dayIdentifier: number]: boolean }]): a missing key reads
    [undefined]. *)
Definition truthy (o : option bool) : bool :=
  match o with
  | Some true => true
  | _ => false
  end.

Section WithDay.
Context {Day : Type} `{!Capability Day}.

(** The fields of [class Schedule].  [start] and [end] are [null] when
    the schedule has no bound on that side. *)
Record t : Type := mk {
  start : option Day;
  end_ : option Day;
  duration : Z;
  durationUnit : DurationInput;
  times : list Time;
  durationInDays : Z;
  exclude : gmap Z bool;
  dayOfWeek : FrequencyCheck;
  dayOfMonth : FrequencyCheck;
  dayOfYear : FrequencyCheck;
  month : FrequencyCheck;
  week : FrequencyCheck;
  weekOfYear : FrequencyCheck;
  weekspanOfYear : FrequencyCheck;
  fullWeekOfYear : FrequencyCheck;
  weekOfMonth : FrequencyCheck;
  weekspanOfMonth : FrequencyCheck;
  fullWeekOfMonth : FrequencyCheck;
  year : FrequencyCheck
}.

Definition lastTime (s : t) : option Time := last (times s).

(** [Math.ceil(x / day)] on integers, for a positive [day].  The numbers
    of the code are doubles: the integer operations below are theirs as
    long as every value stays an integer of magnitude below [2 ^ 53]
    (the quotient [x / day] is then rounded by less than [1 / day], which
    cannot carry it across an integer). *)
Definition ceilDiv (x day : Z) : Z := - ((- x) / day).

Definition computeDurationInDays (s : t) : Z :=
  let start := match lastTime s with Some tm => toMilliseconds tm | None => 0 end in
  let duration := duration s * default 0 (DURATION_TO_MILLIS (durationUnit s)) in
  let exclude := MILLIS_IN_DAY in
  let day := MILLIS_IN_DAY in
  Z.max 0 (ceilDiv (start + duration - exclude) day).

Definition updateDurationInDays (s : t) : t :=
  mk (start s) (end_ s) (duration s) (durationUnit s) (times s)
     (computeDurationInDays s)
     (exclude s) (dayOfWeek s) (dayOfMonth s) (dayOfYear s) (month s)
     (week s) (weekOfYear s) (weekspanOfYear s) (fullWeekOfYear s)
     (weekOfMonth s) (weekspanOfMonth s) (fullWeekOfMonth s) (year s).

Definition matchesSpan (s : t) (day : Day) : bool :=
  match start s with None => true | Some st => isSameOrAfter day st end
  && match end_ s with None => true | Some en => isBefore day en end.

Definition matchesRange (s : t) (start' end' : Day) : bool :=
  match start s with None => true | Some st => isSameOrBefore start' st end
  && match end_ s with None => true | Some en => isBefore end' en end.

Definition isExcluded (s : t) (day : Day) : bool :=
  truthy (exclude s !! dayIdentifier day).

Definition isIncluded (s : t) (day : Day) : bool :=
  negb (truthy (exclude s !! dayIdentifier day)).

Definition matchesDay (s : t) (day : Day) : bool :=
  isIncluded s day
  && matchesSpan s day
  && dayOfWeek s (Day.dayOfWeek day)
  && dayOfMonth s (Day.dayOfMonth day)
  && dayOfYear s (Day.dayOfYear day)
  && year s (Day.year day)
  && month s (Day.month day)
  && week s (Day.week day)
  && weekOfYear s (Day.weekOfYear day)
  && weekspanOfYear s (Day.weekspanOfYear day)
  && fullWeekOfYear s (Day.fullWeekOfYear day)
  && weekOfMonth s (Day.weekOfMonth day)
  && weekspanOfMonth s (Day.weekspanOfMonth day)
  && fullWeekOfMonth s (Day.fullWeekOfMonth day).

(** The loop of [findStartingDay]: [behind] runs from [durationInDays]
    down to [0], so its body runs [durationInDays + 1] times ([n]
    below), or not at all when [durationInDays] is negative. *)
Fixpoint findStartingDay_loop (s : t) (n : nat) (day : Day) : option Day :=
  match n with
  | O => None
  | S n' =>
      if matchesDay s day then Some day
      else findStartingDay_loop s n' (prev day)
  end.

Definition findStartingDay (s : t) (day : Day) : option Day :=
  findStartingDay_loop s (Z.to_nat (durationInDays s + 1)) day.

Definition coversDay (s : t) (day : Day) : bool :=
  bool_decide (is_Some (findStartingDay s day)).

(** *** iterateDays *)

(** What happened on one day the walk tested: it did not match, or it
    matched and the callback was called; [goOn] is [false] when the
    callback returned the value [false]. *)
Inductive Visit : Type :=
| Skipped (day : Day)
| Emitted (day : Day) (goOn : bool).

(** Which exit the [for] loop of [iterateDays] took. *)
Inductive Exit : Type :=
| CallbackStopped      (* [onDay(day) === false]: first [break] *)
| MaxReached           (* [++iterated >= max]: second [break] *)
| LookupReached.       (* [days < lookup] failed *)

(** [iterateDays] returns [this]; what it does is call [onDay].  The
    callback is a closure over mutable state [St]: it gets the state
    and returns the new one, with [false] for "returned [false]".  The
    outcome keeps the final state of the closure, and, for the
    statements about the walk, a log of the days tested in order. *)
Record Outcome (St : Type) : Type := mkOutcome {
  acc : St;
  log : list Visit;
  exit : Exit
}.
Arguments mkOutcome {St} _ _ _.
Arguments acc {St} _.
Arguments log {St} _.
Arguments exit {St} _.

Definition logged {St : Type} (v : Visit) (o : Outcome St) : Outcome St :=
  mkOutcome (acc o) (v :: log o) (exit o).

Definition DayIterator (St : Type) : Type := Day -> St -> St * bool.

(** [fuel] is the number of iterations the [for] loop has left
    ([lookup - days]). *)
Fixpoint iterateDays_loop {St : Type} (s : t) (max : Z) (next_ : bool)
    (onDay : DayIterator St) (includeDay : bool)
    (fuel : nat) (days : Z) (day : Day) (iterated : Z) (st : St) : Outcome St :=
  match fuel with
  | O => mkOutcome st [] LookupReached
  | S fuel' =>
      let day :=
        if negb includeDay || (0 <? days)
        then (if next_ then next day else prev day)
        else day in
      if matchesDay s day then
        let '(st', goOn) := onDay day st in
        if negb goOn then mkOutcome st' [Emitted day false] CallbackStopped
        else if iterated + 1 >=? max
             then mkOutcome st' [Emitted day true] MaxReached
             else logged (Emitted day true)
                    (iterateDays_loop s max next_ onDay includeDay
                       fuel' (days + 1) day (iterated + 1) st')
      else logged (Skipped day)
             (iterateDays_loop s max next_ onDay includeDay
                fuel' (days + 1) day iterated st)
  end.

Definition iterateDays {St : Type} (s : t) (day : Day) (max : Z) (next_ : bool)
    (onDay : DayIterator St) (includeDay : bool) (lookup : Z) (st : St)
  : Outcome St :=
  iterateDays_loop s max next_ onDay includeDay (Z.to_nat lookup) 0 day 0 st.

(** The days on which the callback was called, in order. *)
Definition emitted (l : list Visit) : list Day :=
  omap (fun v => match v with Emitted d _ => Some d | Skipped _ => None end) l.

(** The days tested, in order. *)
Definition visited (l : list Visit) : list Day :=
  map (fun v => match v with Emitted d _ => d | Skipped d => d end) l.

Definition nextDay (s : t) (day : Day) (includeDay : bool) (lookAhead : Z)
  : option Day :=
  let setNext : DayIterator (option Day) := fun d _ => (Some d, false) in
  acc (iterateDays s day 1 true setNext includeDay lookAhead None).

Definition nextDays (s : t) (day : Day) (max : Z) (includeDay : bool)
    (lookAhead : Z) : list Day :=
  acc (iterateDays s day max true (fun d nexts => (nexts ++ [d], true))
         includeDay lookAhead []).

Definition prevDay (s : t) (day : Day) (includeDay : bool) (lookBack : Z)
  : option Day :=
  let setPrev : DayIterator (option Day) := fun d _ => (Some d, false) in
  acc (iterateDays s day 1 false setPrev includeDay lookBack None).

Definition prevDays (s : t) (day : Day) (max : Z) (includeDay : bool)
    (lookBack : Z) : list Day :=
  acc (iterateDays s day max false (fun d prevs => (prevs ++ [d], true))
         includeDay lookBack []).

(** *** Spans *)

Definition matchesTime (s : t) (day : Day) : bool :=
  if negb (matchesDay s day) then false
  else existsb (fun time => sameTime day time) (times s).

Definition isFullDay (s : t) : bool :=
  bool_decide (length (times s) = 0%nat).

Definition getFullSpan (s : t) (day : Day) : DaySpan Day :=
  let start := startOfDay day in
  let end' := add start (duration s) (durationUnit s) in
  mkDaySpan start end'.

Definition getTimeSpan (s : t) (day : Day) (time : Time) : DaySpan Day :=
  let start := withTime day time in
  let end' := add start (duration s) (durationUnit s) in
  mkDaySpan start end'.

Definition getSpansOver (s : t) (day : Day) : list (DaySpan Day) :=
  match findStartingDay s day with
  | None => []
  | Some start =>
      if isFullDay s then [getFullSpan s start]
      else filter (fun span => spanMatchesDay span start = true)
             (map (getTimeSpan s start) (times s))
  end.

Definition getSpanOver (s : t) (day : Day) : option (DaySpan Day) :=
  match findStartingDay s day with
  | Some start => Some (getFullSpan s start)
  | None => None
  end.

Definition getSpansOn (s : t) (day : Day) (check : bool) : list (DaySpan Day) :=
  if check && negb (matchesDay s day) then []
  else if isFullDay s then [getFullSpan s day]
       else map (getTimeSpan s day) (times s).

End WithDay.

Arguments t Day {_}.
Arguments Visit Day : clear implicits.
Arguments Outcome Day St : clear implicits.
Arguments DayIterator Day St : clear implicits.
Arguments mkOutcome {Day St} _ _ _.
Arguments acc {Day St} _.
Arguments log {Day St} _.
Arguments exit {Day St} _.

End Schedule.

(** ** Calendar.ts *)

Module Calendar.

(** Identity of a JavaScript object: [===] on two objects compares it.
    A primitive payload carries the identity of its value (equal
    primitives are [===]). *)
Definition ident : Type := nat.

(** A reference together with the object it denotes. *)
Record Obj (A : Type) : Type := mkObj {
  identity : ident;
  value : A
}.
Arguments mkObj {A} _ _.
Arguments identity {A} _.
Arguments value {A} _.

Inductive Units : Type := DAY | WEEK | MONTH | YEAR.

Section WithDay.
Context {Day : Type} `{!Day.Capability Day}.
(** The payload type of [Calendar<T>]. *)
Context {T : Type}.

Definition CalendarMover : Type := Day -> Z -> Day.

(** [class CalendarEvent<T>] *)
Record CalendarEvent : Type := mkEvent {
  id : Z;
  event : Obj T;
  schedule : Obj (Schedule.t Day);
  time : Day.DaySpan Day;
  fullDay : bool;
  starting : bool;
  ending : bool;
  row : Z;
  col : Z
}.

(** [new CalendarEvent(id, event, schedule, time, actualDay)] *)
Definition newCalendarEvent (id : Z) (event : Obj T)
    (schedule : Obj (Schedule.t Day)) (time : Day.DaySpan Day)
    (actualDay : Day) : CalendarEvent :=
  mkEvent id event schedule time
    (Schedule.isFullDay (value schedule))
    (Day.isPoint time || Day.sameDay (Day.start time) actualDay)
    (Day.isPoint time
     || Day.sameDay (Day.relative (Day.end_ time) (-1)) actualDay)
    0 0.

(** [get scheduleId()] *)
Definition scheduleId (e : CalendarEvent) : Z :=
  id e / Day.MAX_EVENTS_PER_DAY.

(** [class CalendarDay<T> extends Day]: [date] is the [Day] part. *)
Record CalendarDay : Type := mkDay {
  date : Day;
  currentDay : bool;
  currentWeek : bool;
  currentMonth : bool;
  currentYear : bool;
  currentOffset : Z;
  selectedDay : bool;
  selectedWeek : bool;
  selectedMonth : bool;
  selectedYear : bool;
  inCalendar : bool;
  events : list CalendarEvent
}.

(** [new CalendarDay<T>(current.date)]: a day built on the date of
    [current] is [current] as a [Day]. *)
Definition newCalendarDay (current : Day) : CalendarDay :=
  mkDay current false false false false 0 false false false false false [].

Definition updateCurrent (current : Day) (d : CalendarDay) : CalendarDay :=
  mkDay (date d)
    (Day.sameDay (date d) current)
    (Day.sameWeek (date d) current)
    (Day.sameMonth (date d) current)
    (Day.sameYear (date d) current)
    (Day.daysBetween (date d) current Day.DOWN false)
    (selectedDay d) (selectedWeek d) (selectedMonth d) (selectedYear d)
    (inCalendar d) (events d).

Definition updateSelected (selected : Day.DaySpan Day) (d : CalendarDay)
  : CalendarDay :=
  mkDay (date d)
    (currentDay d) (currentWeek d) (currentMonth d) (currentYear d)
    (currentOffset d)
    (Day.spanMatchesDay selected (date d))
    (Day.spanMatchesWeek selected (date d))
    (Day.spanMatchesMonth selected (date d))
    (Day.spanMatchesYear selected (date d))
    (inCalendar d) (events d).

Definition clearSelected (d : CalendarDay) : CalendarDay :=
  mkDay (date d)
    (currentDay d) (currentWeek d) (currentMonth d) (currentYear d)
    (currentOffset d) false false false false
    (inCalendar d) (events d).

(** The assignments [day.inCalendar = v] and [d.events = v]. *)
Definition set_inCalendar (v : bool) (d : CalendarDay) : CalendarDay :=
  mkDay (date d)
    (currentDay d) (currentWeek d) (currentMonth d) (currentYear d)
    (currentOffset d)
    (selectedDay d) (selectedWeek d) (selectedMonth d) (selectedYear d)
    v (events d).

Definition set_events (v : list CalendarEvent) (d : CalendarDay)
  : CalendarDay :=
  mkDay (date d)
    (currentDay d) (currentWeek d) (currentMonth d) (currentYear d)
    (currentOffset d)
    (selectedDay d) (selectedWeek d) (selectedMonth d) (selectedYear d)
    (inCalendar d) v.

(** [interface CalendarSchedule<T>]: a pair object, with its own
    identity, of a schedule and a payload. *)
Record CalendarSchedule : Type := mkEntry {
  entry : ident;
  entry_schedule : Obj (Schedule.t Day);
  entry_event : Obj T
}.

(** [class Calendar<T>].  [days] is an array of references to
    [CalendarDay] objects; [cells] is the store those references point
    into, so that a cell written through one reference is seen through
    every other, and two cells are the same object exactly when their
    references are equal. *)
Record t : Type := mk {
  span : Day.DaySpan Day;
  filled : Day.DaySpan Day;
  length : Z;
  type : Units;
  size : Z;
  moveStart : CalendarMover;
  moveEnd : CalendarMover;
  fill : bool;
  minimumSize : Z;
  repeatCovers : bool;
  listTimes : bool;
  eventsOutside : bool;
  selection : option (Day.DaySpan Day);
  days : list ident;
  schedules : list CalendarSchedule;
  cells : gmap ident CalendarDay
}.

Definition set_span (v : Day.DaySpan Day) (c : t) : t :=
  mk v (filled c) (length c) (type c) (size c) (moveStart c) (moveEnd c)
     (fill c) (minimumSize c) (repeatCovers c) (listTimes c)
     (eventsOutside c) (selection c) (days c) (schedules c) (cells c).

Definition set_filled (v : Day.DaySpan Day) (c : t) : t :=
  mk (span c) v (length c) (type c) (size c) (moveStart c) (moveEnd c)
     (fill c) (minimumSize c) (repeatCovers c) (listTimes c)
     (eventsOutside c) (selection c) (days c) (schedules c) (cells c).

Definition set_length (v : Z) (c : t) : t :=
  mk (span c) (filled c) v (type c) (size c) (moveStart c) (moveEnd c)
     (fill c) (minimumSize c) (repeatCovers c) (listTimes c)
     (eventsOutside c) (selection c) (days c) (schedules c) (cells c).

Definition set_days (v : list ident) (c : t) : t :=
  mk (span c) (filled c) (length c) (type c) (size c) (moveStart c)
     (moveEnd c) (fill c) (minimumSize c) (repeatCovers c) (listTimes c)
     (eventsOutside c) (selection c) v (schedules c) (cells c).

Definition set_schedules (v : list CalendarSchedule) (c : t) : t :=
  mk (span c) (filled c) (length c) (type c) (size c) (moveStart c)
     (moveEnd c) (fill c) (minimumSize c) (repeatCovers c) (listTimes c)
     (eventsOutside c) (selection c) (days c) v (cells c).

Definition set_cells (v : gmap ident CalendarDay) (c : t) : t :=
  mk (span c) (filled c) (length c) (type c) (size c) (moveStart c)
     (moveEnd c) (fill c) (minimumSize c) (repeatCovers c) (listTimes c)
     (eventsOutside c) (selection c) (days c) (schedules c) v.

(** [get start()], [get end()] *)
Definition start (c : t) : Day := Day.start (span c).
Definition end_ (c : t) : Day := Day.end_ (span c).

(** *** Events of a day *)

(** The body of the loop of [eventsForDay] for the entry at
    [entryIndex]: the events it pushes, in order. *)
Definition eventsOfEntry (day : Day) (getTimes covers : bool)
    (entryIndex : nat) (entry : CalendarSchedule) : list CalendarEvent :=
  let schedule := value (entry_schedule entry) in
  let eventId := Z.of_nat entryIndex * Day.MAX_EVENTS_PER_DAY in
  if (covers && Schedule.coversDay schedule day)
     || (negb covers && Schedule.matchesDay schedule day)
  then
    if getTimes then
      let times :=
        if covers then Schedule.getSpansOver schedule day
        else Schedule.getSpansOn schedule day false in
      imap (fun timeIndex span =>
              newCalendarEvent (eventId + Z.of_nat timeIndex)
                (entry_event entry) (entry_schedule entry) span day)
           times
    else
      match Schedule.getSpanOver schedule day with
      | Some over =>
          [newCalendarEvent eventId (entry_event entry)
             (entry_schedule entry) over day]
      | None => []
      end
  else [].

Definition eventsForDay (c : t) (day : Day) (getTimes covers : bool)
  : list CalendarEvent :=
  concat (imap (eventsOfEntry day getTimes covers) (schedules c)).

(** *** The refresh pipeline *)

(** [iterateDays(iterator)]: the iterator mutates the cell it is
    given; the cell at every position of [days] is visited in order. *)
Definition iterateDays (iterator : CalendarDay -> CalendarDay) (c : t) : t :=
  set_cells (foldl (fun m l => alter iterator l m) (cells c) (days c)) c.

Definition resetFilled (c : t) : t :=
  set_filled
    (Day.mkDaySpan
       (if fill c then Day.startOfWeek (start c) else start c)
       (if fill c then Day.endOfWeek (end_ c) else end_ c))
    c.

(** The cell [days[i]] when it is there and is the same day as
    [current] (the negation of the test [!day || !day.sameDay(current)]).
    A reference that denotes no cell of the store reads as no cell; the
    arrays of a running program hold no such reference. *)
Definition reusable (c : t) (i : nat) (current : Day) : option ident :=
  match days c !! i with
  | Some l =>
      match cells c !! l with
      | Some day => if Day.sameDay (date day) current then Some l else None
      | None => None
      end
  | None => None
  end.

(** The new cell is allocated at a fresh reference, then written into
    position [i] ([splice(i, 1, day)]) or appended ([push]). *)
Definition replaceDay (c : t) (i : nat) (current : Day) : ident * t :=
  let l := fresh (dom (cells c)) in
  let c := set_cells (<[l := newCalendarDay current]> (cells c)) c in
  (l, if bool_decide (i < List.length (days c))%nat
      then set_days (<[i := l]> (days c)) c
      else set_days (days c ++ [l]) c).

(** One iteration of the loop of [resetDays]. *)
Definition resetDays_step (c : t) (i : nat) (current : Day) : t :=
  let '(l, c) :=
    match reusable c i current with
    | Some l => (l, c)
    | None => replaceDay c i current
    end in
  set_cells
    (alter (fun day => set_inCalendar (Day.contains (span c) (date day)) day)
           l (cells c))
    c.

Fixpoint resetDays_loop (n : nat) (i : nat) (current : Day) (c : t) : t :=
  match n with
  | O => c
  | S n' => resetDays_loop n' (S i) (Day.next current) (resetDays_step c i current)
  end.

(** [days.splice(total, days.length - total)] under [days.length > total]:
    everything from [total] on goes; a negative [total] counts from the
    end of the array. *)
Definition trim (total : Z) (l : list ident) : list ident :=
  let len := Z.of_nat (List.length l) in
  take (Z.to_nat (if total <? 0 then Z.max (len + total) 0 else total)) l.

Definition total (c : t) : Z :=
  Z.max (minimumSize c) (Day.days (filled c) Day.UP None).

Definition resetDays (c : t) : t :=
  let c := resetFilled c in
  let total := total c in
  let c := resetDays_loop (Z.to_nat total) 0 (Day.start (filled c)) c in
  if Z.of_nat (List.length (days c)) >? total
  then set_days (trim total (days c)) c
  else c.

Definition refreshCurrent (today : Day) (c : t) : t :=
  iterateDays (updateCurrent today) c.

Definition refreshSelection (c : t) : t :=
  iterateDays
    (fun d =>
       match selection c with
       | Some sel => updateSelected sel d
       | None => clearSelected d
       end)
    c.

Definition refreshEvents (c : t) : t :=
  iterateDays
    (fun d =>
       if inCalendar d || eventsOutside c
       then set_events (eventsForDay c (date d) (listTimes c) (repeatCovers c)) d
       else d)
    c.

(** [refresh(today)]; the default [Day.today()] of the parameter is
    the caller's to pass. *)
Definition refresh (today : Day) (c : t) : t :=
  let c := set_length (Day.days (span c) Day.UP (Some true)) c in
  let c := resetDays c in
  let c := refreshCurrent today c in
  let c := refreshSelection c in
  refreshEvents c.

(** [move(jump)] *)
Definition move (today : Day) (jump : Z) (c : t) : t :=
  let c := set_span (Day.mkDaySpan (moveStart c (start c) jump) (end_ c)) c in
  let c := set_span (Day.mkDaySpan (start c) (moveEnd c (end_ c) jump)) c in
  refresh today c.

(** *** The schedule registry *)

(** [findSchedule(input)]: [input] is the identity of the value passed. *)
Definition findSchedule (c : t) (input : ident) : option CalendarSchedule :=
  find (fun schedule =>
          bool_decide (entry schedule = input)
          || bool_decide (identity (entry_schedule schedule) = input)
          || bool_decide (identity (entry_event schedule) = input))
       (schedules c).

(** [addSchedule(schedule, allowDuplicates, delayRefresh)].
    [Parse.calendarSchedule], whose source is missing, is the
    parameter [parse]. *)
Definition addSchedule {Input : Type} (parse : Input -> CalendarSchedule)
    (schedule : Input) (allowDuplicates delayRefresh : bool) (c : t) : t :=
  let parsed := parse schedule in
  if negb allowDuplicates && bool_decide (is_Some (findSchedule c (entry parsed)))
  then c
  else
    let c := set_schedules (schedules c ++ [parsed]) c in
    if negb delayRefresh then refreshEvents c else c.

Definition addSchedules {Input : Type} (parse : Input -> CalendarSchedule)
    (schedules : list Input) (allowDuplicates delayRefresh : bool) (c : t) : t :=
  let c := foldl (fun c schedule => addSchedule parse schedule allowDuplicates true c)
             c schedules in
  if negb delayRefresh then refreshEvents c else c.

(** *** The other mutators *)

(** [schedules.indexOf(found)]: the first position that holds the object
    [found], [-1] when there is none. *)
Definition indexOf (found : CalendarSchedule) (l : list CalendarSchedule)
  : option nat :=
  fst <$> list_find (fun schedule => entry schedule = entry found) l.

(** [schedules.splice(index, 1)]; at [-1] the last element goes. *)
Definition spliceOne (index : option nat) (l : list CalendarSchedule)
  : list CalendarSchedule :=
  match index with
  | Some i => delete i l
  | None => take (List.length l - 1)%nat l
  end.

(** [removeSchedule(schedule, delayRefresh)] *)
Definition removeSchedule (schedule : ident) (delayRefresh : bool) (c : t) : t :=
  match findSchedule c schedule with
  | Some found =>
      let c := set_schedules (spliceOne (indexOf found (schedules c)) (schedules c)) c in
      if negb delayRefresh then refreshEvents c else c
  | None => c
  end.

(** [removeSchedules(schedules, delayRefresh)]; [None] is [null]. *)
Definition removeSchedules (schedules : option (list ident))
    (delayRefresh : bool) (c : t) : t :=
  let c :=
    match schedules with
    | Some schedules =>
        foldl (fun c schedule => removeSchedule schedule true c) c schedules
    | None => set_schedules [] c
    end in
  if negb delayRefresh then refreshEvents c else c.

Definition set_selection (v : option (Day.DaySpan Day)) (c : t) : t :=
  mk (span c) (filled c) (length c) (type c) (size c) (moveStart c)
     (moveEnd c) (fill c) (minimumSize c) (repeatCovers c) (listTimes c)
     (eventsOutside c) v (days c) (schedules c) (cells c).

(** The five assignments of [withInput], and each of them alone in
    [withMinimumSize], [withRepeatCovers], [withListTimes] and
    [withEventsOutside]. *)
Definition set_options (fill' : bool) (minimumSize' : Z)
    (repeatCovers' listTimes' eventsOutside' : bool) (c : t) : t :=
  mk (span c) (filled c) (length c) (type c) (size c) (moveStart c)
     (moveEnd c) fill' minimumSize' repeatCovers' listTimes' eventsOutside'
     (selection c) (days c) (schedules c) (cells c).

(** [select(start, end)]; [DaySpan.point], whose source is missing, is
    the parameter [point]. *)
Definition select (point : Day -> Day.DaySpan Day) (start' : Day)
    (end' : option Day) (c : t) : t :=
  let c :=
    set_selection
      (Some match end' with
            | Some e => Day.mkDaySpan start' e
            | None => point start'
            end)
      c in
  refreshSelection c.

Definition unselect (c : t) : t :=
  refreshSelection (set_selection None c).

Definition withMinimumSize (today : Day) (minimumSize' : Z) (c : t) : t :=
  refresh today
    (set_options (fill c) minimumSize' (repeatCovers c) (listTimes c)
       (eventsOutside c) c).

Definition withRepeatCovers (repeatCovers' : bool) (c : t) : t :=
  refreshEvents
    (set_options (fill c) (minimumSize c) repeatCovers' (listTimes c)
       (eventsOutside c) c).

Definition withListTimes (listTimes' : bool) (c : t) : t :=
  refreshEvents
    (set_options (fill c) (minimumSize c) (repeatCovers c) listTimes'
       (eventsOutside c) c).

Definition withEventsOutside (eventsOutside' : bool) (c : t) : t :=
  refreshEvents
    (set_options (fill c) (minimumSize c) (repeatCovers c) (listTimes c)
       eventsOutside' c).

(** [interface CalendarInput<T>]: every field may be left out. *)
Record CalendarInput (Input : Type) : Type := mkInput {
  input_fill : option bool;
  input_minimumSize : option Z;
  input_repeatCovers : option bool;
  input_listTimes : option bool;
  input_eventsOutside : option bool;
  input_schedules : option (list Input)
}.
Arguments mkInput {Input} _ _ _ _ _ _.
Arguments input_fill {Input} _.
Arguments input_minimumSize {Input} _.
Arguments input_repeatCovers {Input} _.
Arguments input_listTimes {Input} _.
Arguments input_eventsOutside {Input} _.
Arguments input_schedules {Input} _.

(** [withInput(input, refresh)]; [fn.coalesce(a, b)] is [a] when [a] is
    defined and [b] otherwise. *)
Definition withInput {Input : Type} (parse : Input -> CalendarSchedule)
    (today : Day) (input : CalendarInput Input) (refresh' : bool) (c : t) : t :=
  let c :=
    set_options
      (default (fill c) (input_fill input))
      (default (minimumSize c) (input_minimumSize input))
      (default (repeatCovers c) (input_repeatCovers input))
      (default (listTimes c) (input_listTimes input))
      (default (eventsOutside c) (input_eventsOutside input))
      c in
  let c :=
    match input_schedules input with
    | Some schedules =>
        addSchedules parse schedules false (negb refresh')
          (removeSchedules None false c)
    | None => c
    end in
  if refresh' then refresh today c else c.

(** [new Calendar(start, end, type, size, moveStart, moveEnd, input)];
    [today] is what [Day.today()] gives to the [refresh] that ends the
    constructor, and no cell exists yet. *)
Definition new {Input : Type} (parse : Input -> CalendarSchedule)
    (today : Day) (start' end' : Day) (type' : Units) (size' : Z)
    (moveStart' moveEnd' : CalendarMover)
    (input : option (CalendarInput Input)) : t :=
  let c :=
    mk (Day.mkDaySpan start' end') (Day.mkDaySpan start' end') 0
       type' size' moveStart' moveEnd'
       false 0 true false false None [] [] ∅ in
  let c :=
    match input with
    | Some input => withInput parse today input false c
    | None => c
    end in
  refresh today c.

(** The calendar itself read as a [CalendarInput], as [split] passes it. *)
Definition asInput (c : t) : CalendarInput CalendarSchedule :=
  mkInput (Some (fill c)) (Some (minimumSize c)) (Some (repeatCovers c))
    (Some (listTimes c)) (Some (eventsOutside c)) (Some (schedules c)).

(** The loop of [split]: [n] iterations are left. *)
Fixpoint split_loop (parse : CalendarSchedule -> CalendarSchedule)
    (today : Day) (by_ : Z) (c : t) (n : nat) (start' end' : Day) : list t :=
  match n with
  | O => []
  | S n' =>
      new parse today start' end' (type c) by_ (moveStart c) (moveEnd c)
        (Some (asInput c))
      :: split_loop parse today by_ c n'
           (moveStart c start' by_) (moveEnd c end' by_)
  end.

(** [split(by)] *)
Definition split (parse : CalendarSchedule -> CalendarSchedule)
    (today : Day) (by_ : Z) (c : t) : list t :=
  split_loop parse today by_ c (Z.to_nat (size c))
    (start c) (moveEnd c (end_ c) (by_ - size c)).

(** [next(jump)], [prev(jump)] *)
Definition next (today : Day) (jump : Z) (c : t) : t := move today jump c.
Definition prev (today : Day) (jump : Z) (c : t) : t := move today (- jump) c.

End WithDay.

Arguments CalendarEvent Day {_} T.
Arguments CalendarDay Day {_} T.
Arguments CalendarSchedule Day {_} T.
Arguments t Day {_} T.
Arguments mkInput {Input} _ _ _ _ _ _.
Arguments input_fill {Input} _.
Arguments input_minimumSize {Input} _.
Arguments input_repeatCovers {Input} _.
Arguments input_listTimes {Input} _.
Arguments input_eventsOutside {Input} _.
Arguments input_schedules {Input} _.

End Calendar.

(** ** A small implementation of the capability

    Days counted from an epoch, seven to a week, twenty-eight to a month,
    twelve months to a year; a day value carries no time of day.  The
    statements below hold for every implementation of [Day.Capability];
    this one serves to run the definitions on concrete inputs. *)

Module WholeDays.

Definition millisInDay : Z := 86400000.

#[export] Instance capability : Day.Capability Z := {|
  Day.Time := Z;                      (* milliseconds into the day *)
  Day.DurationInput := Z;             (* a unit, as its number of days *)
  Day.time d := d * millisInDay;
  Day.dayIdentifier d := d;
  Day.dayOfWeek d := d mod 7;
  Day.dayOfMonth d := d mod 28 + 1;
  Day.dayOfYear d := d mod 336 + 1;
  Day.year d := d / 336;
  Day.month d := (d / 28) mod 12;
  Day.week d := (d mod 336) / 7;
  Day.weekOfYear d := (d mod 336) / 7;
  Day.weekspanOfYear d := (d mod 336) / 7;
  Day.fullWeekOfYear d := (d mod 336) / 7;
  Day.weekOfMonth d := (d mod 28) / 7;
  Day.weekspanOfMonth d := (d mod 28) / 7;
  Day.fullWeekOfMonth d := (d mod 28) / 7;
  Day.next d := d + 1;
  Day.prev d := d - 1;
  Day.relative d n := d + n;
  Day.add d n unit := d + n * unit;
  Day.startOfDay d := d;
  Day.startOfWeek d := d - d mod 7;
  Day.endOfWeek d := d - d mod 7 + 6;
  Day.withTime d _ := d;
  Day.daysBetween a b _ absolute := if absolute then Z.abs (b - a) else b - a;
  Day.sameDay a b := a =? b;
  Day.sameWeek a b := a / 7 =? b / 7;
  Day.sameMonth a b := a / 28 =? b / 28;
  Day.sameYear a b := a / 336 =? b / 336;
  Day.sameTime _ tm := tm =? 0;
  Day.days sp _ _ := Z.abs (Day.end_ sp - Day.start sp) + 1;
  Day.isPoint sp := Day.start sp =? Day.end_ sp;
  Day.contains sp d := (Day.start sp <=? d) && (d <=? Day.end_ sp);
  Day.spanMatchesDay sp d := (Day.start sp <=? d) && (d <=? Day.end_ sp);
  Day.spanMatchesWeek sp d := (Day.start sp / 7 <=? d / 7) && (d / 7 <=? Day.end_ sp / 7);
  Day.spanMatchesMonth sp d := (Day.start sp / 28 <=? d / 28) && (d / 28 <=? Day.end_ sp / 28);
  Day.spanMatchesYear sp d := (Day.start sp / 336 <=? d / 336) && (d / 336 <=? Day.end_ sp / 336);
  Day.toMilliseconds tm := tm;
  Day.DURATION_TO_MILLIS unit := Some (unit * millisInDay);
  Day.MILLIS_IN_DAY := millisInDay;
  Day.MAX_EVENTS_PER_DAY := 24
|}.

#[export] Instance laws : Day.Laws Z.
Proof.
  split.
  - intros d. apply Z.eqb_refl.
  - intros sp op. simpl. lia.
Qed.

(** A schedule with no bounds, no times and only [Always] checks, lasting
    [duration] days, reaching [reach] days back, excluding [exclude]. *)
Definition everyDay (duration reach : Z) (exclude : gmap Z bool) : Schedule.t Z :=
  Schedule.mk None None duration (1 : Z) [] reach exclude
    (frequency Always) (frequency Always) (frequency Always)
    (frequency Always) (frequency Always) (frequency Always)
    (frequency Always) (frequency Always) (frequency Always)
    (frequency Always) (frequency Always) (frequency Always).

(** Every day of the week listed in [weekdays], for [duration] days:
    the fields as parsed, then with [durationInDays] derived. *)
Definition weeklyParsed (weekdays : list Z) (duration : Z) : Schedule.t Z :=
  Schedule.mk None None duration (1 : Z) [] 0 ∅
    (frequency (OneOf weekdays)) (frequency Always) (frequency Always)
    (frequency Always) (frequency Always) (frequency Always)
    (frequency Always) (frequency Always) (frequency Always)
    (frequency Always) (frequency Always) (frequency Always).

Definition weekly (weekdays : list Z) (duration : Z) : Schedule.t Z :=
  Schedule.updateDurationInDays (weeklyParsed weekdays duration).

(** A calendar over days [first .. last], holding the registrations
    [entries] and no cell yet. *)
Definition calendar {T : Type} (first last : Z)
    (entries : list (Calendar.CalendarSchedule Z T)) : Calendar.t Z T :=
  Calendar.mk (Day.mkDaySpan first last) (Day.mkDaySpan first last) 0
    Calendar.DAY (last - first + 1)
    (fun d n => d + n) (fun d n => d + n)
    false 0 true true false None [] entries ∅.

(** Every day, at each of the [times], for one day. *)
Definition everyDayAt (times : list Z) : Schedule.t Z :=
  Schedule.updateDurationInDays
    (Schedule.mk None None 1 (1 : Z) times 0 ∅
       (frequency Always) (frequency Always) (frequency Always)
       (frequency Always) (frequency Always) (frequency Always)
       (frequency Always) (frequency Always) (frequency Always)
       (frequency Always) (frequency Always) (frequency Always)).

Definition registration (n : nat) (s : Schedule.t Z) : Calendar.CalendarSchedule Z nat :=
  Calendar.mkEntry (3 * n)%nat (Calendar.mkObj (3 * n + 1)%nat s)
    (Calendar.mkObj (3 * n + 2)%nat n).

End WholeDays.

(** ** The days a walk may test *)

Module Walks.
Section WithDay.
Context {Day : Type} `{!Day.Capability Day}.

(** One step of the walk in its direction. *)
Definition step (next_ : bool) (day : Day) : Day :=
  if next_ then Day.next day else Day.prev day.

(** [day] moved [k] days in the direction of the walk. *)
Definition moved (next_ : bool) (k : nat) (day : Day) : Day :=
  if next_ then Day.forth k day else Day.back k day.

(** The days a walk of [lookup] iterations from [day] tests, in order:
    [day] itself first when [includeDay] is set, the day after (before)
    it first otherwise. *)
Definition candidates (next_ includeDay : bool) (day : Day) (lookup : Z)
  : list Day :=
  map (fun k => moved next_ k day)
      (seq (if includeDay then 0%nat else 1%nat) (Z.to_nat lookup)).

(** The candidates that match, in order. *)
Definition matching (s : Schedule.t Day) (l : list Day) : list Day :=
  filter (fun d => Schedule.matchesDay s d = true) l.

(** The days the loop of [iterateDays] tests from a state of the loop. *)
Fixpoint tested (next_ includeDay : bool) (fuel : nat) (days : Z) (day : Day)
  : list Day :=
  match fuel with
  | O => []
  | S fuel' =>
      let day' :=
        if negb includeDay || (0 <? days) then step next_ day else day in
      day' :: tested next_ includeDay fuel' (days + 1) day'
  end.
End WithDay.
End Walks.

(** ** The statements of the specification, in its own words *)

Module Claims.
Section WithDay.
Context {Day : Type} `{!Day.Capability Day}.

(** "day falls within [start, end) (absent bound = unconstrained on
    that side)" *)
Definition inBounds (s : Schedule.t Day) (day : Day) : Prop :=
  (forall st, Schedule.start s = Some st -> Day.time st <= Day.time day)
  /\ (forall en, Schedule.end_ s = Some en -> Day.time day < Day.time en).

(** "all twelve FrequencyChecks pass for the corresponding component
    of day" *)
Definition checksPass (s : Schedule.t Day) (day : Day) : Prop :=
  Schedule.dayOfWeek s (Day.dayOfWeek day) = true
  /\ Schedule.dayOfMonth s (Day.dayOfMonth day) = true
  /\ Schedule.dayOfYear s (Day.dayOfYear day) = true
  /\ Schedule.year s (Day.year day) = true
  /\ Schedule.month s (Day.month day) = true
  /\ Schedule.week s (Day.week day) = true
  /\ Schedule.weekOfYear s (Day.weekOfYear day) = true
  /\ Schedule.weekspanOfYear s (Day.weekspanOfYear day) = true
  /\ Schedule.fullWeekOfYear s (Day.fullWeekOfYear day) = true
  /\ Schedule.weekOfMonth s (Day.weekOfMonth day) = true
  /\ Schedule.weekspanOfMonth s (Day.weekspanOfMonth day) = true
  /\ Schedule.fullWeekOfMonth s (Day.fullWeekOfMonth day) = true.

(** "a Schedule with no exclusions and only Always checks", without
    bounds. *)
Definition unconstrained (s : Schedule.t Day) : Prop :=
  Schedule.exclude s = ∅
  /\ Schedule.start s = None
  /\ Schedule.end_ s = None
  /\ Schedule.dayOfWeek s = frequency Always
  /\ Schedule.dayOfMonth s = frequency Always
  /\ Schedule.dayOfYear s = frequency Always
  /\ Schedule.year s = frequency Always
  /\ Schedule.month s = frequency Always
  /\ Schedule.week s = frequency Always
  /\ Schedule.weekOfYear s = frequency Always
  /\ Schedule.weekspanOfYear s = frequency Always
  /\ Schedule.fullWeekOfYear s = frequency Always
  /\ Schedule.weekOfMonth s = frequency Always
  /\ Schedule.weekspanOfMonth s = frequency Always
  /\ Schedule.fullWeekOfMonth s = frequency Always.

(** "day is not excluded": [exclude] is "a set of day identifiers"; the
    day is in it when its identifier is a key that holds [true]. *)
Definition excluded (s : Schedule.t Day) (day : Day) : Prop :=
  Schedule.exclude s !! Day.dayIdentifier day = Some true.

(** "S's full/time span actually extends to include D": one of the
    spans the schedule generates from [S] matches the day [D]. *)
Definition spanReaches (s : Schedule.t Day) (S D : Day) : Prop :=
  exists sp, sp ∈ Schedule.getSpansOn s S false
             /\ Day.spanMatchesDay sp D = true.

(** "there exists some day S with S <= D, D - S < durationInDays, and
    matchesDay(S) true and S's full/time span actually extends to
    include D"; [S] is [D] moved back [k] days. *)
Definition coveredAsStated (s : Schedule.t Day) (D : Day) : Prop :=
  exists k : nat,
    Z.of_nat k < Schedule.durationInDays s
    /\ Schedule.matchesDay s (Day.back k D) = true
    /\ spanReaches s (Day.back k D) D.

(** The same with the bound the loop of [findStartingDay] has: the day
    [durationInDays] back is still tested. *)
Definition coveredWithin (s : Schedule.t Day) (D : Day) : Prop :=
  exists k : nat,
    Z.of_nat k <= Schedule.durationInDays s
    /\ Schedule.matchesDay s (Day.back k D) = true
    /\ spanReaches s (Day.back k D) D.

(** [durationInDays] is in step with the spans: whatever matches within
    [durationInDays] days before [D] generates a span that includes [D].
    The field is a cache of [updateDurationInDays]; nothing in
    [coversDay] checks it against [duration]. *)
Definition inStep (s : Schedule.t Day) (D : Day) : Prop :=
  forall k : nat,
    Z.of_nat k <= Schedule.durationInDays s ->
    Schedule.matchesDay s (Day.back k D) = true ->
    spanReaches s (Day.back k D) D.

(** "the earliest day D such that D matches and D's span of length
    durationInDays covers day": [S] is [k] days back, within the
    bound, and no matching day within the bound is further back. *)
Definition earliestStart (s : Schedule.t Day) (day S : Day) : Prop :=
  exists k : nat,
    Z.of_nat k <= Schedule.durationInDays s
    /\ S = Day.back k day
    /\ Schedule.matchesDay s S = true
    /\ forall j : nat,
         Z.of_nat j <= Schedule.durationInDays s ->
         Schedule.matchesDay s (Day.back j day) = true ->
         (j <= k)%nat.

(** The milliseconds from the start of a day to the end of the last
    occurrence that starts on it: the last time of day plus the duration
    ([start + duration] in [updateDurationInDays]). *)
Definition lastEnd (s : Schedule.t Day) : Z :=
  match Schedule.lastTime s with
  | Some tm => Day.toMilliseconds tm
  | None => 0
  end
  + Schedule.duration s
    * default 0 (Day.DURATION_TO_MILLIS (Schedule.durationUnit s)).

(** The integers a JavaScript number holds exactly: on them [+], [-] and
    [*] are the integer operations, and [Math.ceil(x / day)] is the
    integer ceiling of the quotient. *)
Definition safeInteger (x : Z) : Prop := Z.abs x < 2 ^ 53.

(** Every number [updateDurationInDays] computes on the way is one of
    them. *)
Definition exactRange (s : Schedule.t Day) : Prop :=
  safeInteger (match Schedule.lastTime s with
               | Some tm => Day.toMilliseconds tm
               | None => 0
               end)
  /\ safeInteger (Schedule.duration s)
  /\ safeInteger (default 0 (Day.DURATION_TO_MILLIS (Schedule.durationUnit s)))
  /\ safeInteger (Schedule.duration s
                  * default 0 (Day.DURATION_TO_MILLIS (Schedule.durationUnit s)))
  /\ safeInteger Day.MILLIS_IN_DAY
  /\ safeInteger (lastEnd s)
  /\ safeInteger (lastEnd s - Day.MILLIS_IN_DAY).

(** A callback that also keeps, in its closure, the days it was called
    on and what it returned each time ([false] for the value [false]),
    in the order of the calls. *)
Definition recording {St : Type} (onDay : Schedule.DayIterator Day St)
  : Schedule.DayIterator Day (St * list (Day * bool)) :=
  fun d acc =>
    let '(st', goOn) := onDay d (fst acc) in
    ((st', snd acc ++ [(d, goOn)]), goOn).

(** The calls a log tells of: the days emitted, each with the answer the
    log has for it. *)
Definition answers (l : list (Schedule.Visit Day)) : list (Day * bool) :=
  omap (fun v => match v with
                 | Schedule.Emitted d goOn => Some (d, goOn)
                 | Schedule.Skipped _ => None
                 end) l.

(** What a log says of one day: a day skipped did not match, a day
    emitted matched. *)
Definition classified (s : Schedule.t Day) (v : Schedule.Visit Day) : Prop :=
  match v with
  | Schedule.Skipped d => Schedule.matchesDay s d = false
  | Schedule.Emitted d _ => Schedule.matchesDay s d = true
  end.

(** The number of matches emitted in a log. *)
Definition count (l : list (Schedule.Visit Day)) : Z :=
  Z.of_nat (List.length (Schedule.emitted l)).

(** The callback signalled stop on the last day of the log. *)
Definition stopSignalled (l : list (Schedule.Visit Day)) : Prop :=
  exists d, last l = Some (Schedule.Emitted d false).

(** "Stops when: onMatch signals stop, max matches have been emitted,
    or lookahead days have been visited", and exactly then: at the end
    of the walk one of the three holds, and at no earlier point of it
    (a proper prefix [p] of the log, the empty one included) did any
    of them hold. *)
Definition stopsExactly {St : Type} (max lookup : Z)
    (o : Schedule.Outcome Day St) : Prop :=
  let l := Schedule.log o in
  (stopSignalled l \/ count l = max
   \/ List.length l = Z.to_nat lookup)
  /\ forall p q, l = p ++ q -> q <> [] ->
       ~ stopSignalled p /\ count p <> max
       /\ List.length p <> Z.to_nat lookup.
End WithDay.
End Claims.

(** ** Notions about the calendar grid *)

Module Grid.
Section WithDay.
Context {Day : Type} `{!Day.Capability Day} {T : Type}.
Implicit Types (c : Calendar.t Day T) (cd : Calendar.CalendarDay Day T).

(** Every reference in [days] denotes a cell of the store: an array holds
    references to objects that exist. *)
Definition wf c : Prop :=
  Forall (fun l => is_Some (Calendar.cells c !! l)) (Calendar.days c).

(** "the padded span": the span of the calendar, "extended to whole
    weeks" when [fill] is set, from the start of the week of its first
    day to the end of the week of its last day. *)
Definition padded c : Day.DaySpan Day :=
  if Calendar.fill c
  then Day.mkDaySpan (Day.startOfWeek (Day.start (Calendar.span c)))
                     (Day.endOfWeek (Day.end_ (Calendar.span c)))
  else Calendar.span c.

(** "the i-th date of the padded span" *)
Definition target c (i : nat) : Day :=
  Day.forth i (Day.start (padded c)).

(** "max(minimumSize, number of days in the padded span)" *)
Definition size c : Z :=
  Z.max (Calendar.minimumSize c) (Day.days (padded c) Day.UP None).

(** The four writes the pipeline makes to a cell: [inCalendar] in
    [resetDays], then the iterators of [refreshCurrent],
    [refreshSelection] and [refreshEvents]. *)
Definition stamp c cd : Calendar.CalendarDay Day T :=
  Calendar.set_inCalendar
    (Day.contains (Calendar.span c) (Calendar.date cd)) cd.

Definition select c cd : Calendar.CalendarDay Day T :=
  match Calendar.selection c with
  | Some sel => Calendar.updateSelected sel cd
  | None => Calendar.clearSelected cd
  end.

Definition fillEvents c cd : Calendar.CalendarDay Day T :=
  if Calendar.inCalendar cd || Calendar.eventsOutside c
  then Calendar.set_events
         (Calendar.eventsForDay c (Calendar.date cd)
            (Calendar.listTimes c) (Calendar.repeatCovers c)) cd
  else cd.

Definition pipeline (today : Day) c cd : Calendar.CalendarDay Day T :=
  fillEvents c (select c (Calendar.updateCurrent today (stamp c cd))).

(** What the pipeline reads of a calendar besides its cells. *)
Definition setup c :=
  (Calendar.span c, Calendar.fill c, Calendar.minimumSize c,
   Calendar.selection c, Calendar.schedules c, Calendar.listTimes c,
   Calendar.repeatCovers c, Calendar.eventsOutside c).

(** [c'] differs from [c] in its array of cells and in the cells only. *)
Definition frame c c' : Prop :=
  c' = Calendar.set_cells (Calendar.cells c')
         (Calendar.set_days (Calendar.days c') c).

(** The cells of [c] are still there in [c'], with at most [inCalendar]
    written. *)
Definition kept c c' : Prop :=
  forall l cd, Calendar.cells c !! l = Some cd ->
    Calendar.cells c' !! l = Some cd
    \/ Calendar.cells c' !! l = Some (stamp c cd).

(** Position [j] of [c'] holds the cell that [resetDays] puts there for
    the date [t], starting from [c]: the cell [c] had at [j] when that one
    is reusable, a cell that did not exist in [c] otherwise. *)
Definition placed c (j : nat) (t : Day) c' : Prop :=
  exists l cd',
    Calendar.days c' !! j = Some l
    /\ Calendar.cells c' !! l = Some cd'
    /\ ((Calendar.reusable c j t = Some l
         /\ exists cd, Calendar.cells c !! l = Some cd /\ cd' = stamp c cd)
        \/ (Calendar.reusable c j t = None
            /\ (l ∉ dom (Calendar.cells c))
            /\ cd' = stamp c (Calendar.newCalendarDay t))).

(** A calendar on which the pipeline has nothing left to do. *)
Definition settled (today : Day) c : Prop :=
  Calendar.filled c = padded c
  /\ Calendar.length c = Day.days (Calendar.span c) Day.UP (Some true)
  /\ Z.of_nat (List.length (Calendar.days c)) = size c
  /\ forall i l, Calendar.days c !! i = Some l ->
       exists cd, Calendar.cells c !! l = Some cd
                  /\ Day.sameDay (Calendar.date cd) (target c i) = true
                  /\ pipeline today c cd = cd.
End WithDay.
End Grid.

(** ** Facts about Schedule.ts *)

Section ScheduleFacts.
Context {Day : Type} `{!Day.Capability Day}.
Implicit Types (s : Schedule.t Day) (day D d : Day).

Lemma matchesSpan_inBounds s day :
  Schedule.matchesSpan s day = true <-> Claims.inBounds s day.
Proof.
  unfold Schedule.matchesSpan, Claims.inBounds, Day.isSameOrAfter, Day.isBefore.
  rewrite andb_true_iff.
  destruct (Schedule.start s) as [st|], (Schedule.end_ s) as [en|];
    rewrite ?Z.leb_le, ?Z.ltb_lt; split.
  all: try (intros [H1 H2]; split; intros x Hx; inversion Hx; subst; done).
  all: intros [H1 H2]; split; auto.
Qed.

Lemma isIncluded_isExcluded s day :
  Schedule.isIncluded s day = negb (Schedule.isExcluded s day).
Proof. reflexivity. Qed.

Lemma matchesDay_unfold s day :
  Schedule.matchesDay s day = true <->
  Schedule.isExcluded s day = false
  /\ Schedule.matchesSpan s day = true
  /\ Claims.checksPass s day.
Proof.
  unfold Schedule.matchesDay, Claims.checksPass.
  rewrite !andb_true_iff, isIncluded_isExcluded, negb_true_iff.
  tauto.
Qed.

(** The test of [isExcluded] is membership in the exclusion set. *)
Lemma isExcluded_excluded s day :
  Schedule.isExcluded s day = true <-> Claims.excluded s day.
Proof.
  unfold Schedule.isExcluded, Claims.excluded, Schedule.truthy.
  destruct (Schedule.exclude s !! Day.dayIdentifier day) as [[|]|];
    split; done.
Qed.

(** C2. [matchesDay(day)] is true exactly when the identifier of the day
    is not in the exclusion set, the day lies within [start, end) (a
    bound that is absent does not constrain), and the twelve frequency
    checks pass on its components; so it is false on every day outside
    [start, end), whatever the checks say. *)
Theorem matchesDay_iff s day :
  (Schedule.matchesDay s day = true <->
     ~ Claims.excluded s day
     /\ Claims.inBounds s day
     /\ Claims.checksPass s day)
  /\ (~ Claims.inBounds s day -> Schedule.matchesDay s day = false).
Proof.
  split.
  - rewrite matchesDay_unfold, matchesSpan_inBounds, <- isExcluded_excluded.
    rewrite not_true_iff_false. tauto.
  - intros Hout. apply not_true_is_false. intros Hm.
    apply matchesDay_unfold in Hm as (_ & Hspan & _).
    apply Hout, matchesSpan_inBounds, Hspan.
Qed.

(** *** findStartingDay and coversDay *)

Lemma back_prev k day : Day.back k (Day.prev day) = Day.back (S k) day.
Proof. unfold Day.back. symmetry. apply Nat.iter_succ_r. Qed.

(** The backward search returns the first match it meets, and fails
    only when none of the [n] days it tests matches. *)
Lemma findStartingDay_loop_spec s n day :
  match Schedule.findStartingDay_loop s n day with
  | Some found =>
      exists k : nat,
        (k < n)%nat /\ found = Day.back k day
        /\ Schedule.matchesDay s found = true
        /\ forall j : nat, (j < k)%nat ->
             Schedule.matchesDay s (Day.back j day) = false
  | None =>
      forall k : nat, (k < n)%nat ->
        Schedule.matchesDay s (Day.back k day) = false
  end.
Proof.
  revert day. induction n as [|n IH]; intros day; simpl.
  - intros k Hk. lia.
  - destruct (Schedule.matchesDay s day) eqn:Hm.
    + exists 0%nat. split_and!; [lia | done | done | intros j Hj; lia].
    + specialize (IH (Day.prev day)).
      destruct (Schedule.findStartingDay_loop s n (Day.prev day)) as [found|].
      * destruct IH as (k & Hk & -> & HS & Hbefore).
        exists (S k). split_and!; [lia | apply back_prev | done |].
        intros [|j] Hj; [exact Hm|].
        rewrite <- back_prev. apply Hbefore. lia.
      * intros [|k] Hk; [exact Hm|].
        rewrite <- back_prev. apply IH. lia.
Qed.

Lemma findStartingDay_None s day :
  Schedule.findStartingDay s day = None <->
  forall k : nat, Z.of_nat k <= Schedule.durationInDays s ->
    Schedule.matchesDay s (Day.back k day) = false.
Proof.
  unfold Schedule.findStartingDay.
  pose proof (findStartingDay_loop_spec s
                (Z.to_nat (Schedule.durationInDays s + 1)) day) as Hspec.
  destruct (Schedule.findStartingDay_loop s _ day) as [found|].
  - destruct Hspec as (k & Hk & -> & HS & _). split; [done|].
    intros Hnone. rewrite Hnone in HS; [done | lia].
  - split; [|done]. intros _ k Hk. apply Hspec. lia.
Qed.

(** A match at most [durationInDays] back makes the day covered. *)
Lemma coversDay_intro s D (k : nat) :
  Z.of_nat k <= Schedule.durationInDays s ->
  Schedule.matchesDay s (Day.back k D) = true ->
  Schedule.coversDay s D = true.
Proof.
  intros Hk Hm. unfold Schedule.coversDay. rewrite bool_decide_eq_true.
  rewrite <- not_eq_None_Some, findStartingDay_None.
  intros Hnone. rewrite Hnone in Hm; done.
Qed.

(** C1, as the code has it.  [coversDay(D)] is true exactly when one of
    the days [D], [D - 1], ..., [D - durationInDays] matches: the day
    [durationInDays] back is still tested.  The span generated from the
    matching day is not consulted: a matching day within the bound whose
    span includes [D] makes [D] covered, and a covered [D] has such a
    day when [durationInDays] is in step with the spans. *)
Theorem coversDay_iff s D :
  (Schedule.coversDay s D = true <->
     exists k : nat,
       Z.of_nat k <= Schedule.durationInDays s
       /\ Schedule.matchesDay s (Day.back k D) = true)
  /\ (Claims.coveredWithin s D -> Schedule.coversDay s D = true)
  /\ (Claims.inStep s D ->
      (Schedule.coversDay s D = true <-> Claims.coveredWithin s D)).
Proof.
  assert (Hiff : Schedule.coversDay s D = true <->
                 exists k : nat,
                   Z.of_nat k <= Schedule.durationInDays s
                   /\ Schedule.matchesDay s (Day.back k D) = true).
  { unfold Schedule.coversDay. rewrite bool_decide_eq_true.
    rewrite <- not_eq_None_Some, findStartingDay_None. split.
    - intros Hsome.
      pose proof (findStartingDay_loop_spec s
                    (Z.to_nat (Schedule.durationInDays s + 1)) D) as Hspec.
      fold (Schedule.findStartingDay s D) in Hspec.
      destruct (Schedule.findStartingDay s D) as [found|] eqn:E.
      + destruct Hspec as (k & Hk & -> & HS & _). exists k. split; [lia | done].
      + exfalso. apply Hsome. by apply findStartingDay_None.
    - intros (k & Hk & Hm) Hnone. rewrite Hnone in Hm; done. }
  split_and!.
  - exact Hiff.
  - intros (k & Hk & Hm & _). apply Hiff. by exists k.
  - intros Hstep. rewrite Hiff. split.
    + intros (k & Hk & Hm). exists k. split_and!; [done | done |].
      by apply Hstep.
    + intros (k & Hk & Hm & _). by exists k.
Qed.

(** C3, as the code has it.  [findStartingDay(day)] walks back from
    [day] over at most [durationInDays] steps and returns the first day
    that matches, that is the matching day closest to [day]; it returns
    [null] exactly when none of those days matches; and when [day]
    itself matches (and [durationInDays] is not negative, as
    [updateDurationInDays] makes it) it returns [day]. *)
Theorem findStartingDay_spec s day :
  match Schedule.findStartingDay s day with
  | Some found =>
      exists k : nat,
        Z.of_nat k <= Schedule.durationInDays s
        /\ found = Day.back k day
        /\ Schedule.matchesDay s found = true
        /\ forall j : nat, (j < k)%nat ->
             Schedule.matchesDay s (Day.back j day) = false
  | None =>
      forall k : nat, Z.of_nat k <= Schedule.durationInDays s ->
        Schedule.matchesDay s (Day.back k day) = false
  end
  /\ (0 <= Schedule.durationInDays s ->
      Schedule.matchesDay s day = true ->
      Schedule.findStartingDay s day = Some day).
Proof.
  pose proof (findStartingDay_loop_spec s
                (Z.to_nat (Schedule.durationInDays s + 1)) day) as Hspec.
  fold (Schedule.findStartingDay s day) in Hspec.
  split.
  - destruct (Schedule.findStartingDay s day) as [found|].
    + destruct Hspec as (k & Hk & HS & Hm & Hbefore).
      exists k. split_and!; [lia | done..].
    + intros k Hk. apply Hspec. lia.
  - intros Hdur Hm. unfold Schedule.findStartingDay.
    replace (Z.to_nat (Schedule.durationInDays s + 1))
      with (S (Z.to_nat (Schedule.durationInDays s))) by lia.
    simpl. by rewrite Hm.
Qed.

(** X1.  [updateDurationInDays] never leaves a negative
    [durationInDays], so that [findStartingDay] tests at least the day it
    is given: after it, [findStartingDay(day)] is [day] when [day]
    matches, and what the loop finds over the [durationInDays] days
    before [day] otherwise. *)
Theorem updateDurationInDays_nonneg s day :
  0 <= Schedule.durationInDays (Schedule.updateDurationInDays s)
  /\ Schedule.findStartingDay (Schedule.updateDurationInDays s) day
     = if Schedule.matchesDay s day then Some day
       else Schedule.findStartingDay_loop (Schedule.updateDurationInDays s)
              (Z.to_nat (Schedule.durationInDays
                           (Schedule.updateDurationInDays s)))
              (Day.prev day).
Proof.
  assert (Hnonneg : 0 <= Schedule.durationInDays (Schedule.updateDurationInDays s)).
  { simpl. unfold Schedule.computeDurationInDays. lia. }
  split; [exact Hnonneg|].
  unfold Schedule.findStartingDay.
  replace (Z.to_nat (Schedule.durationInDays (Schedule.updateDurationInDays s) + 1))
    with (S (Z.to_nat (Schedule.durationInDays (Schedule.updateDurationInDays s))))
    by lia.
  reflexivity.
Qed.

Lemma ceilDiv_ge (x d k : Z) :
  0 < d -> (k <= Schedule.ceilDiv x d <-> (k - 1) * d < x).
Proof.
  intros Hd. unfold Schedule.ceilDiv. split.
  - intros Hk.
    destruct (Z_lt_le_dec ((k - 1) * d) x) as [|Hge]; [done|].
    assert (1 - k <= - x / d) by (apply Z.div_le_lower_bound; lia). lia.
  - intros Hx.
    assert (- x / d < 1 - k) by (apply Z.div_lt_upper_bound; lia). lia.
Qed.

(** X4.  The reach [updateDurationInDays] computes is exact in
    milliseconds, as long as the numbers it computes with are integers
    that a JavaScript number holds exactly: the day [k >= 1] days after
    a start day is within [durationInDays] exactly when the last
    occurrence of the start day ends after that day has begun. *)
Theorem durationInDays_exact s (k : Z) :
  Claims.exactRange s ->
  0 < Day.MILLIS_IN_DAY -> 1 <= k ->
  (k <= Schedule.durationInDays (Schedule.updateDurationInDays s)
   <-> k * Day.MILLIS_IN_DAY < Claims.lastEnd s).
Proof.
  intros _ Hday Hk.
  change (Schedule.durationInDays (Schedule.updateDurationInDays s))
    with (Z.max 0 (Schedule.ceilDiv (Claims.lastEnd s - Day.MILLIS_IN_DAY)
                     Day.MILLIS_IN_DAY)).
  pose proof (ceilDiv_ge (Claims.lastEnd s - Day.MILLIS_IN_DAY)
                Day.MILLIS_IN_DAY k Hday) as Hc.
  lia.
Qed.

(** C8.  An excluded day never matches, whatever the frequency checks
    say; it is still covered as soon as a day at most [durationInDays]
    before it matches (such a day is itself not excluded). *)
Theorem excluded_day_not_matched_but_covered s D :
  Schedule.isExcluded s D = true ->
  Schedule.matchesDay s D = false
  /\ forall k : nat,
       Z.of_nat k <= Schedule.durationInDays s ->
       Schedule.matchesDay s (Day.back k D) = true ->
       Schedule.isExcluded s (Day.back k D) = false
       /\ Schedule.coversDay s D = true.
Proof.
  intros Hex. split.
  - apply not_true_is_false. intros Hm.
    apply matchesDay_unfold in Hm as (Hin & _). congruence.
  - intros k Hk Hm. split.
    + by apply matchesDay_unfold in Hm as (Hin & _).
    + by apply (coversDay_intro s D k).
Qed.

(** *** iterateDays *)

Section Walk.
Context {St : Type}.
Variables (s0 : Schedule.t Day) (max : Z) (next_ : bool)
          (onDay : Schedule.DayIterator Day St) (includeDay : bool).

Let loop := Schedule.iterateDays_loop s0 max next_ onDay includeDay.

Lemma count_nil : Claims.count (Day := Day) [] = 0.
Proof. reflexivity. Qed.

Lemma count_emitted d goOn l :
  Claims.count (Schedule.Emitted d goOn :: l) = 1 + Claims.count l.
Proof. unfold Claims.count. simpl. lia. Qed.

Lemma count_skipped d l :
  Claims.count (Schedule.Skipped d :: l) = Claims.count l.
Proof. reflexivity. Qed.

Lemma not_stopSignalled_nil : ~ Claims.stopSignalled (Day := Day) [].
Proof. intros (d & Hd). discriminate. Qed.

(** A visit on which the walk went on, put in front of a log, does not
    make the log end on a stop signal unless it did already. *)
Lemma stopSignalled_cons (v : Schedule.Visit Day) l :
  (forall d, v <> Schedule.Emitted d false) ->
  Claims.stopSignalled (v :: l) -> Claims.stopSignalled l.
Proof.
  intros Hv (d & Hd). rewrite last_cons in Hd.
  destruct (last l) as [w|] eqn:E.
  - exists d. congruence.
  - inversion Hd. subst. by destruct (Hv d).
Qed.

Lemma stopSignalled_cons_intro (v w : Schedule.Visit Day) l :
  Claims.stopSignalled (w :: l) -> Claims.stopSignalled (v :: w :: l).
Proof.
  intros (d & Hd). exists d. rewrite last_cons, Hd. done.
Qed.

(** The loop never tests more days than it has iterations left. *)
Lemma iterateDays_loop_length fuel days day iterated st :
  (List.length (Schedule.log (loop fuel days day iterated st)) <= fuel)%nat.
Proof.
  unfold loop. revert days day iterated st.
  induction fuel as [|fuel IH]; intros days day iterated st; simpl; [lia|].
  set (day' := if negb includeDay || (0 <? days)
               then if next_ then Day.next day else Day.prev day else day).
  destruct (Schedule.matchesDay s0 day').
  - destruct (onDay day' st) as [st' goOn]. destruct goOn; simpl; [|lia].
    destruct (iterated + 1 >=? max); simpl; [lia|].
    specialize (IH (days + 1) day' (iterated + 1) st'). lia.
  - simpl. specialize (IH (days + 1) day' iterated st). lia.
Qed.

(** The state of the walk when [iterated] matches were emitted before
    and fewer than [max] of them: where it ends, one of the three
    conditions holds; before, none does. *)
Lemma iterateDays_loop_stops fuel days day iterated st :
  iterated < max ->
  let l := Schedule.log (loop fuel days day iterated st) in
  (Claims.stopSignalled l \/ iterated + Claims.count l = max
   \/ List.length l = fuel)
  /\ forall p q, l = p ++ q -> q <> [] ->
       ~ Claims.stopSignalled p /\ iterated + Claims.count p < max
       /\ (List.length p < fuel)%nat.
Proof.
  unfold loop. revert days day iterated st.
  induction fuel as [|fuel IH]; intros days day iterated st Hlt; simpl.
  { split; [by right; right|].
    intros p q Hpq Hq. symmetry in Hpq.
    apply app_eq_nil in Hpq as [_ ->]. done. }
  set (day' := if negb includeDay || (0 <? days)
               then if next_ then Day.next day else Day.prev day else day).
  assert (Hsingle : forall v : Schedule.Visit Day, forall p q,
             [v] = p ++ q -> q <> [] ->
             ~ Claims.stopSignalled p /\ iterated + Claims.count p < max
             /\ (List.length p < S fuel)%nat).
  { intros v p q Hpq Hq. destruct p as [|w p].
    - split_and!; [apply not_stopSignalled_nil | rewrite count_nil; lia
                  | simpl; lia].
    - inversion Hpq as [[Hw Hnil]]. symmetry in Hnil.
      apply app_eq_nil in Hnil as [_ ->]. done. }
  assert (Hcons : forall (v : Schedule.Visit Day) it' l,
             (forall d, v <> Schedule.Emitted d false) ->
             it' = iterated + Claims.count [v] ->
             (forall p q, l = p ++ q -> q <> [] ->
                ~ Claims.stopSignalled p /\ it' + Claims.count p < max
                /\ (List.length p < fuel)%nat) ->
             forall p q, v :: l = p ++ q -> q <> [] ->
               ~ Claims.stopSignalled p /\ iterated + Claims.count p < max
               /\ (List.length p < S fuel)%nat).
  { intros v it' l Hv Hit Hrest p q Hpq Hq. destruct p as [|w p].
    - split_and!; [apply not_stopSignalled_nil | rewrite count_nil; lia
                  | simpl; lia].
    - inversion Hpq as [[Hw Hl]]. subst w.
      destruct (Hrest p q Hl Hq) as (Hns & Hc & Hlen).
      split_and!.
      + intros Hstop. apply Hns. eapply stopSignalled_cons; eauto.
      + revert Hc. subst it'. destruct v; unfold Claims.count; simpl; lia.
      + simpl. lia. }
  destruct (Schedule.matchesDay s0 day').
  - destruct (onDay day' st) as [st' goOn]. destruct goOn; simpl.
    + destruct (iterated + 1 >=? max) eqn:Hmax; simpl.
      * split; [|by apply Hsingle].
        right; left. rewrite count_emitted, count_nil.
        apply Z.geb_le in Hmax. lia.
      *
        assert (Hlt' : iterated + 1 < max).
        { destruct (Z.geb_spec (iterated + 1) max); [done | lia]. }
        destruct (IH (days + 1) day' (iterated + 1) st' Hlt')
          as [Hend Hbefore].
        split.
        -- rewrite count_emitted.
           destruct Hend as [Hstop | [Hc | Hl]].
           ++ left. destruct (Schedule.log _) as [|w l]; [|by apply stopSignalled_cons_intro].
              by destruct (not_stopSignalled_nil Hstop).
           ++ right; left. lia.
           ++ right; right. simpl. lia.
        -- eapply Hcons; [done | | exact Hbefore].
           rewrite count_emitted, count_nil. lia.
    + split; [|by apply Hsingle].
      left. by exists day'.
  - simpl.
    destruct (IH (days + 1) day' iterated st Hlt) as [Hend Hbefore].
    split.
    + rewrite count_skipped.
      destruct Hend as [Hstop | [Hc | Hl]].
      * left. destruct (Schedule.log _) as [|w l]; [|by apply stopSignalled_cons_intro].
        by destruct (not_stopSignalled_nil Hstop).
      * right; left. lia.
      * right; right. simpl. lia.
    + eapply Hcons; [done | | exact Hbefore].
      rewrite count_skipped, count_nil. lia.
Qed.

(** No visit of the log is one on which the callback returned
    [false]. *)
Definition goesOn (l : list (Schedule.Visit Day)) : Prop :=
  Forall (fun v => forall d, v <> Schedule.Emitted d false) l.

Lemma goesOn_cons (v : Schedule.Visit Day) l :
  (forall d, v <> Schedule.Emitted d false) -> goesOn l -> goesOn (v :: l).
Proof. intros Hv Hl. by apply Forall_cons. Qed.

(** The exit the loop took, read on its log: the first [break] leaves
    last a match on which the callback returned [false], the second a
    match on which it went on, with the count at [max] or beyond, and
    the loop condition fails only when [fuel] days were tested with the
    count short of [max]; before the last visit the callback never
    returned [false]. *)
Lemma iterateDays_loop_shape fuel days day iterated st :
  let o := loop fuel days day iterated st in
  match Schedule.exit o with
  | Schedule.CallbackStopped =>
      exists p d, Schedule.log o = p ++ [Schedule.Emitted d false] /\ goesOn p
  | Schedule.MaxReached =>
      exists p d,
        Schedule.log o = p ++ [Schedule.Emitted d true] /\ goesOn p
        /\ max <= iterated + Claims.count (Schedule.log o)
  | Schedule.LookupReached =>
      List.length (Schedule.log o) = fuel
      /\ goesOn (Schedule.log o)
      /\ (Claims.count (Schedule.log o) = 0
          \/ iterated + Claims.count (Schedule.log o) < max)
  end.
Proof.
  unfold loop. revert days day iterated st.
  induction fuel as [|fuel IH]; intros days day iterated st; simpl.
  { split_and!; [done | apply Forall_nil; done | by left]. }
  set (day' := if negb includeDay || (0 <? days)
               then if next_ then Day.next day else Day.prev day else day).
  destruct (Schedule.matchesDay s0 day').
  - destruct (onDay day' st) as [st' goOn]. destruct goOn; simpl.
    + destruct (iterated + 1 >=? max) eqn:Hmax; simpl.
      * exists [], day'. split_and!; [done | apply Forall_nil; done |].
        rewrite count_emitted, count_nil. apply Z.geb_le in Hmax. lia.
      * assert (Hlt : iterated + 1 < max).
        { destruct (Z.geb_spec (iterated + 1) max); [done | lia]. }
        specialize (IH (days + 1) day' (iterated + 1) st').
        destruct (Schedule.exit _).
        -- destruct IH as (p & d & -> & Hp).
           exists (Schedule.Emitted day' true :: p), d.
           split; [done | by apply goesOn_cons].
        -- destruct IH as (p & d & Hl & Hp & Hc). rewrite Hl in *.
           exists (Schedule.Emitted day' true :: p), d.
           split_and!; [done | by apply goesOn_cons |].
           change (Schedule.Emitted day' true :: p ++ [Schedule.Emitted d true])
             with (Schedule.Emitted day' true
                     :: (p ++ [Schedule.Emitted d true])).
           rewrite count_emitted. lia.
        -- destruct IH as (Hl & Hg & Hc).
           split_and!; [by rewrite Hl | by apply goesOn_cons |].
           right. rewrite count_emitted. lia.
    + exists [], day'. split; [done | apply Forall_nil; done].
  - simpl. specialize (IH (days + 1) day' iterated st).
    destruct (Schedule.exit _).
    + destruct IH as (p & d & -> & Hp).
      exists (Schedule.Skipped day' :: p), d.
      split; [done | by apply goesOn_cons].
    + destruct IH as (p & d & Hl & Hp & Hc). rewrite Hl in *.
      exists (Schedule.Skipped day' :: p), d.
      split_and!; [done | by apply goesOn_cons |].
      change (Schedule.Skipped day' :: p ++ [Schedule.Emitted d true])
        with (Schedule.Skipped day' :: (p ++ [Schedule.Emitted d true])).
      by rewrite count_skipped.
    + destruct IH as (Hl & Hg & Hc).
      split_and!; [by rewrite Hl | by apply goesOn_cons |].
      by rewrite count_skipped.
Qed.

(** A day is logged as skipped when [matchesDay] was false on it, as
    emitted when it was true. *)
Lemma iterateDays_loop_classified fuel days day iterated st :
  Forall (Claims.classified s0)
         (Schedule.log (loop fuel days day iterated st)).
Proof.
  unfold loop. revert days day iterated st.
  induction fuel as [|fuel IH]; intros days day iterated st; simpl; [done|].
  set (day' := if negb includeDay || (0 <? days)
               then if next_ then Day.next day else Day.prev day else day).
  destruct (Schedule.matchesDay s0 day') eqn:Hm.
  - destruct (onDay day' st) as [st' goOn]. destruct goOn; simpl.
    + destruct (iterated + 1 >=? max); simpl.
      * by repeat constructor.
      * constructor; [done | apply IH].
    + by repeat constructor.
  - simpl. constructor; [done | apply IH].
Qed.

(** The days of the log are the first days the loop may test. *)
Lemma iterateDays_loop_visited fuel days day iterated st :
  Schedule.visited (Schedule.log (loop fuel days day iterated st))
  = take (List.length (Schedule.log (loop fuel days day iterated st)))
         (Walks.tested next_ includeDay fuel days day).
Proof.
  unfold loop. revert days day iterated st.
  induction fuel as [|fuel IH]; intros days day iterated st;
    cbn [Schedule.iterateDays_loop Walks.tested]; [done|].
  fold (Walks.step next_ day).
  set (day' := if negb includeDay || (0 <? days)
               then Walks.step next_ day else day).
  destruct (Schedule.matchesDay s0 day').
  - destruct (onDay day' st) as [st' goOn]. destruct goOn; simpl.
    + destruct (iterated + 1 >=? max); simpl.
      * by rewrite take_0.
      * f_equal. apply IH.
    + by rewrite take_0.
  - simpl. f_equal. apply IH.
Qed.

End Walk.

(** *** Schedules without constraints *)

Lemma unconstrained_matchesDay s day :
  Claims.unconstrained s -> Schedule.matchesDay s day = true.
Proof.
  intros (Hex & Hst & Hen & H1 & H2 & H3 & H4 & H5 & H6 & H7 & H8 & H9
          & H10 & H11 & H12).
  unfold Schedule.matchesDay, Schedule.isIncluded, Schedule.matchesSpan.
  rewrite Hex, Hst, Hen, H1, H2, H3, H4, H5, H6, H7, H8, H9, H10, H11, H12.
  rewrite lookup_empty. reflexivity.
Qed.

(** The first iteration of a forward walk that leaves the starting day
    out tests the next day; when that day matches and [max] is 1, the
    walk ends there. *)
Lemma iterateDays_first_match {St : Type} s day
    (onDay : Schedule.DayIterator Day St) (fuel : nat) (st : St) :
  Schedule.matchesDay s (Day.next day) = true ->
  let o := Schedule.iterateDays_loop s 1 true onDay false (S fuel) 0 day 0 st in
  Schedule.emitted (Schedule.log o) = [Day.next day]
  /\ Schedule.acc o = fst (onDay (Day.next day) st).
Proof.
  intros Hm. simpl. rewrite Hm.
  destruct (onDay (Day.next day) st) as [st' goOn].
  by destruct goOn.
Qed.

(** C5.  On a schedule without exclusions and bounds whose twelve checks
    are all [Always], the forward walk from [X] with [max = 1],
    [includeDay = false] and the default [lookup] of 366 emits the day
    after [X] and nothing else, whatever the callback; so [nextDay(X)]
    is the day after [X]. *)
Theorem nextDay_unconstrained s X :
  Claims.unconstrained s ->
  (forall (St : Type) (onDay : Schedule.DayIterator Day St) (st : St),
      Schedule.emitted
        (Schedule.log (Schedule.iterateDays s X 1 true onDay false 366 st))
      = [Day.next X])
  /\ Schedule.nextDay s X false 366 = Some (Day.next X).
Proof.
  intros Hs.
  assert (Hfuel : Z.to_nat 366 = S (Z.to_nat 365)) by lia.
  pose proof (unconstrained_matchesDay s (Day.next X) Hs) as Hm.
  split.
  - intros St onDay st. unfold Schedule.iterateDays. rewrite Hfuel.
    apply (iterateDays_first_match s X onDay (Z.to_nat 365) st Hm).
  - unfold Schedule.nextDay, Schedule.iterateDays. rewrite Hfuel.
    apply (iterateDays_first_match s X
             (fun d _ => (Some d, false)) (Z.to_nat 365) None Hm).
Qed.

End ScheduleFacts.

(** ** Schedule.ts on concrete schedules *)

Section ScheduleExamples.
Import WholeDays.

Lemma back_whole_days (k : nat) (d : Z) : Day.back k d = d - Z.of_nat k.
Proof.
  induction k as [|k IH]; [simpl; lia|].
  change (Day.back (S k) d) with (Day.back k d - 1).
  rewrite IH. lia.
Qed.

Lemma everyDay_unconstrained duration reach :
  Claims.unconstrained (everyDay duration reach ∅).
Proof. unfold Claims.unconstrained. simpl. tauto. Qed.

(** The schedules used below carry the [durationInDays] that
    [updateDurationInDays] derives from their duration. *)
Example everyDay_derived :
  Schedule.updateDurationInDays (everyDay 1 0 ∅) = everyDay 1 0 ∅
  /\ Schedule.updateDurationInDays (everyDay 2 1 ∅) = everyDay 2 1 ∅
  /\ Schedule.updateDurationInDays (everyDay 2 1 {[10 := true]})
     = everyDay 2 1 {[10 := true]}.
Proof. split_and!; reflexivity. Qed.

(** The scenario of the specification: two-day occurrences starting every
    Monday (day 8 is a Monday).  The Tuesday is covered from the Monday,
    the Wednesday is not covered. *)
Example monday_two_days :
  Schedule.durationInDays (weekly [1] 2) = 1
  /\ Schedule.coversDay (weekly [1] 2) 9 = true
  /\ Schedule.findStartingDay (weekly [1] 2) 9 = Some 8
  /\ Schedule.coversDay (weekly [1] 2) 10 = false.
Proof. vm_compute. done. Qed.

(** The scenario of the specification: Monday, Wednesday, Friday from a
    Sunday (day 7). *)
Example next_three_days :
  Schedule.nextDays (weekly [1; 3; 5] 1) 7 3 false 366 = [8; 10; 12].
Proof. vm_compute. done. Qed.

Lemma durationInDays_exact_witness :
  1 <= Schedule.durationInDays (weekly [1] 2)
  <-> 1 * millisInDay < Claims.lastEnd (weeklyParsed [1] 2).
Proof.
  apply (durationInDays_exact (weeklyParsed [1] 2) 1).
  - unfold Claims.exactRange, Claims.safeInteger.
    split_and!; vm_compute; reflexivity.
  - reflexivity.
  - lia.
Defined.

(** Every Monday for one day, with the [durationInDays] of a three-day
    schedule: [duration] was set to one day and [updateDurationInDays]
    not called since. *)
Definition staleMonday : Schedule.t Z :=
  Schedule.mk None None 1 (1 : Z) [] 2 ∅
    (frequency (OneOf [1])) (frequency Always) (frequency Always)
    (frequency Always) (frequency Always) (frequency Always)
    (frequency Always) (frequency Always) (frequency Always)
    (frequency Always) (frequency Always) (frequency Always).

(** It is the three-day Monday schedule with [duration] assigned, and
    [updateDurationInDays] would bring its [durationInDays] back to 0. *)
Example staleMonday_fields :
  Schedule.durationInDays staleMonday
  = Schedule.durationInDays (weekly [1] 3)
  /\ Schedule.duration staleMonday = 1
  /\ Schedule.durationInDays (Schedule.updateDurationInDays staleMonday) = 0.
Proof. vm_compute. done. Qed.

(** C1 as stated fails twice.  A one-day schedule has
    [durationInDays = 0], so no day [S] has [D - S < durationInDays], yet
    every day it matches is covered.  And the span is not looked at: with
    a [durationInDays] that is ahead of the duration, the Wednesday
    (day 10) is covered from the Monday, and no matching day has a span
    that includes it. *)
Lemma coversDay_not_as_stated :
  (Schedule.coversDay (everyDay 1 0 ∅) 10 = true
   /\ ~ Claims.coveredAsStated (everyDay 1 0 ∅) 10)
  /\ (Schedule.coversDay staleMonday 10 = true
      /\ ~ exists k : nat,
             Schedule.matchesDay staleMonday (Day.back k 10) = true
             /\ Claims.spanReaches staleMonday (Day.back k 10) 10).
Proof.
  split_and!.
  - vm_compute. done.
  - intros (k & Hk & _). simpl in Hk. lia.
  - vm_compute. done.
  - intros (k & Hm & sp & Hin & Hreach).
    rewrite back_whole_days in Hm, Hin.
    apply list_elem_of_singleton in Hin. subst sp.
    apply andb_true_iff in Hreach as [_ Hreach].
    apply Z.leb_le in Hreach. simpl in Hreach.
    destruct k as [|[|k]]; [vm_compute in Hm; discriminate
                           | vm_compute in Hm; discriminate | lia].
Qed.

Lemma weekly_inStep : Claims.inStep (weekly [1] 2) 9.
Proof.
  intros k Hk Hm.
  assert (Hdur : Schedule.durationInDays (weekly [1] 2) = 1)
    by (vm_compute; reflexivity).
  rewrite Hdur in Hk.
  destruct k as [|[|k]]; [vm_compute in Hm; discriminate | | lia].
  exists (Day.mkDaySpan 8 10). split; [|reflexivity].
  apply list_elem_of_singleton. reflexivity.
Defined.

Lemma coversDay_iff_witness :
  Schedule.coversDay (weekly [1] 2) 9 = true
  <-> Claims.coveredWithin (weekly [1] 2) 9.
Proof.
  exact (proj2 (proj2 (coversDay_iff (weekly [1] 2) 9)) weekly_inStep).
Defined.

(** C3 as stated fails: with every day matching and a reach of one day,
    the earliest start that covers day 10 is day 9, and the code returns
    day 10. *)
Lemma findStartingDay_not_earliest :
  Schedule.findStartingDay (everyDay 2 1 ∅) 10 = Some 10
  /\ Claims.earliestStart (everyDay 2 1 ∅) 10 9
  /\ ~ Claims.earliestStart (everyDay 2 1 ∅) 10 10.
Proof.
  split_and!.
  - vm_compute. done.
  - exists 1%nat. split_and!; [simpl; lia | done | done |].
    intros j Hj _. simpl in Hj. lia.
  - intros (k & Hk & Heq & _ & Hearliest).
    rewrite back_whole_days in Heq.
    specialize (Hearliest 1%nat ltac:(simpl; lia) eq_refl). lia.
Qed.

Lemma findStartingDay_spec_witness :
  Schedule.findStartingDay (everyDay 2 1 ∅) 10 = Some 10.
Proof.
  apply (proj2 (findStartingDay_spec (everyDay 2 1 ∅) 10)).
  - simpl. lia.
  - reflexivity.
Defined.

(** C4 as stated fails for [max = 0]: no match may be emitted, and the
    walk emits one before it compares the count with [max]; it then
    leaves by the second [break], after one day, with one match. *)
Lemma iterateDays_max_zero :
  Schedule.log
    (Schedule.iterateDays (everyDay 1 0 ∅) 10 0 true
       (fun _ (st : unit) => (st, true)) false 366 tt)
  = [Schedule.Emitted 11 true]
  /\ Schedule.exit
       (Schedule.iterateDays (everyDay 1 0 ∅) 10 0 true
          (fun _ (st : unit) => (st, true)) false 366 tt)
     = Schedule.MaxReached
  /\ ~ Claims.stopsExactly 0 366
         (Schedule.iterateDays (everyDay 1 0 ∅) 10 0 true
            (fun _ (st : unit) => (st, true)) false 366 tt).
Proof.
  split_and!; [vm_compute; done | vm_compute; done |].
  intros [Hend _].
  destruct Hend as [(d & Hd) | [Hc | Hl]].
  - vm_compute in Hd. discriminate.
  - vm_compute in Hc. discriminate.
  - vm_compute in Hl. discriminate.
Qed.

Lemma nextDay_unconstrained_witness :
  Schedule.nextDay (everyDay 1 0 ∅) 41 false 366 = Some 42.
Proof.
  apply (proj2 (nextDay_unconstrained (everyDay 1 0 ∅) 41
                  (everyDay_unconstrained 1 0))).
Defined.

Lemma excluded_day_witness :
  Schedule.isExcluded (everyDay 2 1 {[10 := true]}) 10 = true
  /\ Schedule.matchesDay (everyDay 2 1 {[10 := true]}) 10 = false
  /\ Schedule.coversDay (everyDay 2 1 {[10 := true]}) 10 = true.
Proof.
  assert (Hex : Schedule.isExcluded (everyDay 2 1 {[10 := true]}) 10 = true)
    by reflexivity.
  destruct (excluded_day_not_matched_but_covered
              (everyDay 2 1 {[10 := true]}) 10 Hex) as [Hm Hcov].
  split_and!; [exact Hex | exact Hm |].
  apply (Hcov 1%nat); [simpl; lia | reflexivity].
Defined.

End ScheduleExamples.

(** ** Facts about Calendar.ts *)

Section CalendarFacts.
Context {Day : Type} `{!Day.Capability Day} {T : Type}.
Implicit Types (c : Calendar.t Day T) (day : Day)
               (e : Calendar.CalendarEvent Day T)
               (cd : Calendar.CalendarDay Day T).

(** *** What the operations leave alone *)

Import Grid.

Lemma frame_refl c : frame c c.
Proof. unfold frame. by destruct c. Qed.

Lemma frame_trans c1 c2 c3 : frame c1 c2 -> frame c2 c3 -> frame c1 c3.
Proof.
  unfold frame. intros H12 H23. rewrite H23 at 1. rewrite H12 at 1.
  reflexivity.
Qed.

Lemma frame_set_cells v c : frame c (Calendar.set_cells v c).
Proof. unfold frame. by destruct c. Qed.

Lemma frame_set_days v c : frame c (Calendar.set_days v c).
Proof. unfold frame. by destruct c. Qed.

Lemma frame_iterateDays f c : frame c (Calendar.iterateDays f c).
Proof. apply frame_set_cells. Qed.

Lemma frame_schedules c c' :
  frame c c' -> Calendar.schedules c' = Calendar.schedules c.
Proof. intros Hf. by apply (f_equal Calendar.schedules) in Hf. Qed.

(** *** The schedule registry *)

(** C9.  When [findSchedule] finds a registration for the parsed input,
    [addSchedule] without [allowDuplicates] returns before it touches
    anything: the registry, and the calendar, are as they were.  With
    [allowDuplicates] the same input is appended at the end of the
    registry. *)
Theorem addSchedule_duplicate {Input : Type}
    (parse : Input -> Calendar.CalendarSchedule Day T) (schedule : Input)
    (delayRefresh : bool) c existing :
  Calendar.findSchedule c (Calendar.entry (parse schedule)) = Some existing ->
  Calendar.addSchedule parse schedule false delayRefresh c = c
  /\ Calendar.schedules (Calendar.addSchedule parse schedule true delayRefresh c)
     = Calendar.schedules c ++ [parse schedule].
Proof.
  intros Hfound. unfold Calendar.addSchedule. split.
  - by rewrite Hfound.
  - cbn [negb andb]. destruct delayRefresh; cbn [negb]; [by destruct c|].
    unfold Calendar.refreshEvents.
    rewrite (frame_schedules _ _ (frame_iterateDays _ _)). by destruct c.
Qed.

(** [findSchedule] returns the first registration whose pair, schedule
    or payload is the value looked for. *)
Lemma findSchedule_Some c input found :
  Calendar.findSchedule c input = Some found ->
  found ∈ Calendar.schedules c
  /\ (Calendar.entry found = input
      \/ Calendar.identity (Calendar.entry_schedule found) = input
      \/ Calendar.identity (Calendar.entry_event found) = input).
Proof.
  unfold Calendar.findSchedule. intros Hf.
  apply find_some in Hf as [Hin Hb]. split; [by apply list_elem_of_In|].
  rewrite !orb_true_iff, !bool_decide_eq_true in Hb. tauto.
Qed.

(** *** Event identifiers *)

Lemma scheduleId_recovers (k timeIndex : nat) (id : Z) :
  id = Z.of_nat k * Day.MAX_EVENTS_PER_DAY + Z.of_nat timeIndex ->
  Z.of_nat timeIndex < Day.MAX_EVENTS_PER_DAY ->
  id / Day.MAX_EVENTS_PER_DAY = Z.of_nat k.
Proof.
  intros -> Hlt.
  rewrite Z.div_add_l by lia. rewrite Z.div_small by lia. lia.
Qed.

(** C10.  With [getTimes] set, every event [eventsForDay] produces comes
    from a registration, at index [k], and from one of the spans its
    schedule gives for the day, at index [timeIndex]; its id is
    [k * MAX_EVENTS_PER_DAY + timeIndex], and when the schedule gives
    fewer spans than [MAX_EVENTS_PER_DAY], [scheduleId] is [k]. *)
Theorem eventsForDay_ids c day (covers : bool) e :
  e ∈ Calendar.eventsForDay c day true covers ->
  exists (k timeIndex : nat) entry,
    Calendar.schedules c !! k = Some entry
    /\ Calendar.event e = Calendar.entry_event entry
    /\ Calendar.schedule e = Calendar.entry_schedule entry
    /\ let spans :=
         if covers
         then Schedule.getSpansOver
                (Calendar.value (Calendar.entry_schedule entry)) day
         else Schedule.getSpansOn
                (Calendar.value (Calendar.entry_schedule entry)) day false in
       spans !! timeIndex = Some (Calendar.time e)
       /\ Calendar.id e
          = Z.of_nat k * Day.MAX_EVENTS_PER_DAY + Z.of_nat timeIndex
       /\ (Z.of_nat (List.length spans) < Day.MAX_EVENTS_PER_DAY ->
           Calendar.scheduleId e = Z.of_nat k).
Proof.
  unfold Calendar.eventsForDay. intros He.
  apply list_elem_of_In, in_concat in He as (evs & Hevs & He).
  apply list_elem_of_In, elem_of_lookup_imap in Hevs as (k & entry & -> & Hk).
  apply list_elem_of_In in He. unfold Calendar.eventsOfEntry in He.
  destruct (_ || _) in He; [|by apply elem_of_nil in He].
  apply elem_of_lookup_imap in He as (timeIndex & span & -> & Hspan).
  exists k, timeIndex, entry. simpl.
  split_and!; [done | done | done | done | done |].
  intros Hfew. unfold Calendar.scheduleId. simpl.
  apply (scheduleId_recovers k timeIndex); [done|].
  apply lookup_lt_Some in Hspan. lia.
Qed.

End CalendarFacts.

(** ** The rebuild of the grid *)

Section GridFacts.
Context {Day : Type} `{!Day.Capability Day} {T : Type}.
Implicit Types (c : Calendar.t Day T) (cd : Calendar.CalendarDay Day T)
               (today : Day) (l : Calendar.ident).
Import Grid.

(** *** The writes to one cell *)

Ltac cell_cases :=
  unfold pipeline, fillEvents, select, stamp,
    Calendar.updateCurrent, Calendar.updateSelected, Calendar.clearSelected,
    Calendar.set_events, Calendar.set_inCalendar;
  simpl;
  repeat match goal with
         | |- context [match ?x with _ => _ end] => destruct x; simpl
         end;
  try reflexivity.

Lemma stamp_date c cd : Calendar.date (stamp c cd) = Calendar.date cd.
Proof. reflexivity. Qed.

Lemma stamp_idem c cd : stamp c (stamp c cd) = stamp c cd.
Proof. reflexivity. Qed.

Lemma updateCurrent_idem today cd :
  Calendar.updateCurrent today (Calendar.updateCurrent today cd)
  = Calendar.updateCurrent today cd.
Proof. reflexivity. Qed.

Lemma select_idem c cd : select c (select c cd) = select c cd.
Proof. cell_cases. Qed.

Lemma fillEvents_idem c cd : fillEvents c (fillEvents c cd) = fillEvents c cd.
Proof.
  unfold fillEvents.
  destruct (Calendar.inCalendar cd || Calendar.eventsOutside c) eqn:E;
    simpl; rewrite E; reflexivity.
Qed.

Lemma pipeline_date today c cd :
  Calendar.date (pipeline today c cd) = Calendar.date cd.
Proof. cell_cases. Qed.

(** Each write finds nothing to change in a cell the pipeline has been
    through. *)
Lemma stamp_pipeline today c cd :
  stamp c (pipeline today c cd) = pipeline today c cd.
Proof. cell_cases. Qed.

Lemma updateCurrent_pipeline today c cd :
  Calendar.updateCurrent today (pipeline today c cd) = pipeline today c cd.
Proof. cell_cases. Qed.

Lemma select_pipeline today c cd :
  select c (pipeline today c cd) = pipeline today c cd.
Proof. cell_cases. Qed.

Lemma fillEvents_pipeline today c cd :
  fillEvents c (pipeline today c cd) = pipeline today c cd.
Proof. unfold pipeline. apply fillEvents_idem. Qed.

Lemma pipeline_stamp today c cd :
  pipeline today c (stamp c cd) = pipeline today c cd.
Proof. reflexivity. Qed.

Lemma pipeline_idem today c cd :
  pipeline today c (pipeline today c cd) = pipeline today c cd.
Proof.
  unfold pipeline at 1.
  rewrite stamp_pipeline, updateCurrent_pipeline, select_pipeline.
  apply fillEvents_pipeline.
Qed.

(** The pipeline reads the calendar through [setup] only. *)
Lemma pipeline_setup today c c' cd :
  setup c' = setup c -> pipeline today c' cd = pipeline today c cd.
Proof.
  unfold setup. intros [= Hspan Hfill Hmin Hsel Hsch Hlist Hrep Hout].
  unfold pipeline, fillEvents, select, stamp, Calendar.eventsForDay.
  by rewrite Hspan, Hsel, Hsch, Hlist, Hrep, Hout.
Qed.

Lemma padded_setup c c' : setup c' = setup c -> padded c' = padded c.
Proof.
  unfold setup. intros [= Hspan Hfill Hmin Hsel Hsch Hlist Hrep Hout].
  unfold padded. by rewrite Hspan, Hfill.
Qed.

Lemma size_setup c c' : setup c' = setup c -> size c' = size c.
Proof.
  intros Hs. unfold size. rewrite (padded_setup _ _ Hs).
  unfold setup in Hs. injection Hs as Hspan Hfill Hmin Hsel Hsch Hlist Hrep Hout.
  by rewrite Hmin.
Qed.

Lemma target_setup c c' i : setup c' = setup c -> target c' i = target c i.
Proof. intros Hs. unfold target. by rewrite (padded_setup _ _ Hs). Qed.

Lemma frame_setup c c' : frame c c' -> setup c' = setup c.
Proof. unfold frame. intros ->. reflexivity. Qed.

(** *** iterateDays *)

Lemma foldl_alter_lookup (f : Calendar.CalendarDay Day T -> Calendar.CalendarDay Day T)
    (ds : list Calendar.ident) (m : gmap Calendar.ident (Calendar.CalendarDay Day T)) l :
  (forall x, f (f x) = f x) ->
  foldl (fun m l => alter f l m) m ds !! l
  = if decide (l ∈ ds) then f <$> m !! l else m !! l.
Proof.
  intros Hidem. revert m.
  induction ds as [|a ds IH]; intros m; cbn [foldl].
  - destruct (decide (l ∈ [])) as [Hin|_]; [by apply elem_of_nil in Hin | done].
  - rewrite IH.
    destruct (decide (l ∈ a :: ds)) as [Hin|Hnin];
      destruct (decide (l ∈ ds)) as [Hin'|Hnin'];
      destruct (decide (l = a)) as [->|Hne];
      rewrite ?lookup_alter_eq, ?lookup_alter_ne by done; try done.
    + destruct (m !! a); simpl; [|done]. by rewrite Hidem.
    + apply elem_of_cons in Hin as [?|?]; done.
    + destruct Hnin. apply list_elem_of_here.
    + destruct Hnin. by apply list_elem_of_further.
    + destruct Hnin. apply list_elem_of_here.
Qed.

Lemma foldl_alter_id (f : Calendar.CalendarDay Day T -> Calendar.CalendarDay Day T)
    (ds : list Calendar.ident) (m : gmap Calendar.ident (Calendar.CalendarDay Day T)) :
  (forall l x, l ∈ ds -> m !! l = Some x -> f x = x) ->
  foldl (fun m l => alter f l m) m ds = m.
Proof.
  induction ds as [|a ds IH]; intros Hfix; simpl; [done|].
  rewrite alter_id.
  - apply IH. intros l x Hl. apply Hfix. by apply list_elem_of_further.
  - intros x. apply Hfix. apply list_elem_of_here.
Qed.

Lemma set_cells_id c : Calendar.set_cells (Calendar.cells c) c = c.
Proof. by destruct c. Qed.

Lemma set_days_id c : Calendar.set_days (Calendar.days c) c = c.
Proof. by destruct c. Qed.

(** An iterator that changes none of the cells in [days] leaves the
    calendar as it is. *)
Lemma iterateDays_id f c :
  (forall l x, l ∈ Calendar.days c -> Calendar.cells c !! l = Some x -> f x = x) ->
  Calendar.iterateDays f c = c.
Proof.
  intros Hfix. unfold Calendar.iterateDays.
  rewrite foldl_alter_id by done. apply set_cells_id.
Qed.

Lemma iterateDays_days f c :
  Calendar.days (Calendar.iterateDays f c) = Calendar.days c.
Proof. reflexivity. Qed.

Lemma iterateDays_setup f c : setup (Calendar.iterateDays f c) = setup c.
Proof. reflexivity. Qed.

Lemma iterateDays_filled f c :
  Calendar.filled (Calendar.iterateDays f c) = Calendar.filled c.
Proof. reflexivity. Qed.

Lemma iterateDays_length f c :
  Calendar.length (Calendar.iterateDays f c) = Calendar.length c.
Proof. reflexivity. Qed.

(** An idempotent iterator has been applied to every cell in [days]. *)
Lemma iterateDays_lookup f c l cd :
  (forall x, f (f x) = f x) ->
  l ∈ Calendar.days c ->
  Calendar.cells c !! l = Some cd ->
  Calendar.cells (Calendar.iterateDays f c) !! l = Some (f cd).
Proof.
  intros Hidem Hl Hcd. unfold Calendar.iterateDays. simpl.
  rewrite foldl_alter_lookup by done.
  rewrite decide_True by done. by rewrite Hcd.
Qed.

(** *** One iteration of resetDays *)

Lemma forth_next (k : nat) (d : Day) :
  Day.forth k (Day.next d) = Day.forth (S k) d.
Proof. unfold Day.forth. symmetry. apply Nat.iter_succ_r. Qed.

Lemma reusable_Some c (j : nat) (t : Day) l :
  Calendar.reusable c j t = Some l <->
  Calendar.days c !! j = Some l
  /\ exists cd, Calendar.cells c !! l = Some cd
                /\ Day.sameDay (Calendar.date cd) t = true.
Proof.
  unfold Calendar.reusable. split.
  - intros Hr.
    destruct (Calendar.days c !! j) as [l0|]; [|done].
    destruct (Calendar.cells c !! l0) as [cd0|] eqn:Hcd; [|done].
    destruct (Day.sameDay (Calendar.date cd0) t) eqn:Hsame; [|done].
    inversion Hr. subst l0. eauto.
  - intros (Hl & cd & Hcd & Hsame). by rewrite Hl, Hcd, Hsame.
Qed.

(** Writing [l] at position [i] of the array: over the element that is
    there, or at its end. *)
Definition put (i : nat) (l : Calendar.ident) (ds : list Calendar.ident)
  : list Calendar.ident :=
  if bool_decide (i < List.length ds)%nat then <[i:=l]> ds else ds ++ [l].

Lemma put_length i l ds :
  (i <= List.length ds)%nat ->
  List.length (put i l ds) = Nat.max (List.length ds) (S i).
Proof.
  intros Hi. unfold put. case_bool_decide.
  - rewrite length_insert. lia.
  - rewrite length_app. simpl. lia.
Qed.

Lemma put_lookup_eq i l ds :
  (i <= List.length ds)%nat -> put i l ds !! i = Some l.
Proof.
  intros Hi. unfold put. case_bool_decide.
  - by apply list_lookup_insert_eq.
  - assert (i = List.length ds) as -> by lia.
    apply list_lookup_middle. done.
Qed.

Lemma put_lookup_ne i j l ds :
  (i <= List.length ds)%nat -> j <> i -> put i l ds !! j = ds !! j.
Proof.
  intros Hi Hne. unfold put. case_bool_decide.
  - by apply list_lookup_insert_ne.
  - assert (i = List.length ds) as -> by lia.
    destruct (decide (j < List.length ds)%nat) as [Hlt|Hge].
    + by apply lookup_app_l.
    + rewrite !(proj2 (lookup_ge_None _ _)); [done | lia |].
      rewrite length_app. simpl. lia.
Qed.

Lemma resetDays_step_reuse c (i : nat) (cur : Day) l :
  Calendar.reusable c i cur = Some l ->
  Calendar.resetDays_step c i cur
  = Calendar.set_cells (alter (stamp c) l (Calendar.cells c)) c.
Proof. intros Hr. unfold Calendar.resetDays_step. by rewrite Hr. Qed.

Lemma resetDays_step_replace c (i : nat) (cur : Day) :
  Calendar.reusable c i cur = None ->
  Calendar.resetDays_step c i cur
  = Calendar.set_cells
      (<[fresh (dom (Calendar.cells c)) := stamp c (Calendar.newCalendarDay cur)]>
         (Calendar.cells c))
      (Calendar.set_days
         (put i (fresh (dom (Calendar.cells c))) (Calendar.days c)) c).
Proof.
  intros Hr. unfold Calendar.resetDays_step, Calendar.replaceDay, put.
  rewrite Hr. simpl.
  destruct (bool_decide (i < List.length (Calendar.days c))%nat); simpl;
    by rewrite alter_insert_eq.
Qed.

Lemma wf_lookup c (j : nat) l :
  wf c -> Calendar.days c !! j = Some l -> is_Some (Calendar.cells c !! l).
Proof. unfold wf. rewrite Forall_lookup. eauto. Qed.

(** One iteration: the calendar keeps its setup and its cells, position
    [i] gets its cell, the other positions are not touched. *)
Lemma resetDays_step_spec c (i : nat) (cur : Day) :
  wf c -> (i <= List.length (Calendar.days c))%nat ->
  let c1 := Calendar.resetDays_step c i cur in
  frame c c1
  /\ wf c1
  /\ List.length (Calendar.days c1)
     = Nat.max (List.length (Calendar.days c)) (S i)
  /\ (forall j : nat, j <> i -> Calendar.days c1 !! j = Calendar.days c !! j)
  /\ kept c c1
  /\ placed c i cur c1.
Proof.
  intros Hwf Hi. simpl.
  destruct (Calendar.reusable c i cur) as [l|] eqn:Hr.
  - rewrite (resetDays_step_reuse c i cur l Hr).
    pose proof Hr as Hr'.
    apply reusable_Some in Hr' as (Hl & cd & Hcd & Hsame).
    split_and!.
    + apply frame_set_cells.
    + unfold wf in *. simpl. eapply Forall_impl; [exact Hwf|].
      intros l' [x Hx]. simpl.
      destruct (decide (l' = l)) as [->|Hne].
      * rewrite lookup_alter_eq, Hx. by eexists.
      * rewrite lookup_alter_ne by done. by eexists.
    + simpl. apply lookup_lt_Some in Hl. lia.
    + done.
    + intros l0 cd0 Hcd0. simpl.
      destruct (decide (l0 = l)) as [->|Hne].
      * right. by rewrite lookup_alter_eq, Hcd0.
      * left. by rewrite lookup_alter_ne.
    + exists l, (stamp c cd). simpl. split_and!.
      * done.
      * by rewrite lookup_alter_eq, Hcd.
      * left. eauto.
  - rewrite (resetDays_step_replace c i cur Hr).
    set (l := fresh (dom (Calendar.cells c))).
    assert (Hfresh : l ∉ dom (Calendar.cells c)) by apply is_fresh.
    split_and!.
    + unfold frame. by destruct c.
    + unfold wf in *. simpl. apply Forall_lookup.
      intros j l' Hj.
      destruct (decide (j = i)) as [->|Hne].
      * rewrite put_lookup_eq in Hj by done. inversion Hj. subst l'.
        rewrite lookup_insert_eq. by eexists.
      * rewrite put_lookup_ne in Hj by done.
        apply lookup_insert_is_Some'. right.
        rewrite Forall_lookup in Hwf. eauto.
    + simpl. by apply put_length.
    + intros j Hne. simpl. by apply put_lookup_ne.
    + intros l0 cd0 Hcd0. simpl. left.
      rewrite lookup_insert_ne; [done|].
      intros ->. apply Hfresh, elem_of_dom. by eexists.
    + exists l, (stamp c (Calendar.newCalendarDay cur)). simpl. split_and!.
      * by apply put_lookup_eq.
      * by rewrite lookup_insert_eq.
      * right. done.
Qed.

(** *** The loop of resetDays *)

Lemma stamp_setup c c' cd : setup c' = setup c -> stamp c' cd = stamp c cd.
Proof.
  unfold setup. intros [= Hspan _ _ _ _ _ _ _]. unfold stamp. by rewrite Hspan.
Qed.

Lemma kept_refl c : kept c c.
Proof. intros l cd Hcd. by left. Qed.

Lemma kept_trans c c1 c2 :
  setup c1 = setup c -> kept c c1 -> kept c1 c2 -> kept c c2.
Proof.
  intros Hs H1 H2 l cd Hcd.
  destruct (H1 l cd Hcd) as [Hl|Hl]; destruct (H2 l _ Hl) as [Hl'|Hl'];
    rewrite ?(stamp_setup _ _ _ Hs), ?stamp_idem in Hl'; auto.
Qed.

Lemma kept_dom c c' l :
  kept c c' -> l ∉ dom (Calendar.cells c') -> l ∉ dom (Calendar.cells c).
Proof.
  intros Hk Hl Hin. apply elem_of_dom in Hin as [cd Hcd]. apply Hl.
  apply elem_of_dom. destruct (Hk l cd Hcd) as [->| ->]; by eexists.
Qed.

Lemma reusable_kept c c1 (j : nat) (t : Day) l :
  Calendar.days c1 !! j = Calendar.days c !! j -> kept c c1 ->
  Calendar.reusable c j t = Some l -> Calendar.reusable c1 j t = Some l.
Proof.
  intros Hj Hk Hr. apply reusable_Some in Hr as (Hl & cd & Hcd & Hsame).
  apply reusable_Some. split; [congruence|].
  destruct (Hk l cd Hcd) as [Hl1|Hl1]; eexists; split; eauto.
Qed.

Lemma reusable_back c c1 (j : nat) (t : Day) l :
  wf c -> Calendar.days c1 !! j = Calendar.days c !! j -> kept c c1 ->
  Calendar.reusable c1 j t = Some l ->
  Calendar.reusable c j t = Some l
  /\ exists cd cd1, Calendar.cells c !! l = Some cd
                    /\ Calendar.cells c1 !! l = Some cd1
                    /\ stamp c cd1 = stamp c cd.
Proof.
  intros Hwf Hj Hk Hr. apply reusable_Some in Hr as (Hl & cd1 & Hcd1 & Hsame).
  rewrite Hj in Hl. destruct (wf_lookup c j l Hwf Hl) as [cd Hcd].
  assert (Hrel : cd1 = cd \/ cd1 = stamp c cd).
  { destruct (Hk l cd Hcd) as [Hl1|Hl1]; rewrite Hl1 in Hcd1;
      inversion Hcd1; auto. }
  split.
  - apply reusable_Some. split; [done|]. exists cd. split; [done|].
    destruct Hrel as [->| ->]; done.
  - exists cd, cd1. split_and!; [done..|].
    destruct Hrel as [->| ->]; [done | apply stamp_idem].
Qed.

(** A position that has its cell keeps it while the later iterations
    run. *)
Lemma placed_later c c1 c' (i : nat) (t : Day) :
  setup c1 = setup c ->
  Calendar.days c' !! i = Calendar.days c1 !! i -> kept c1 c' ->
  placed c i t c1 -> placed c i t c'.
Proof.
  intros Hs Hi Hk (l & cd' & Hl & Hcd' & Hcase).
  exists l, cd'. split_and!; [congruence | | done].
  destruct (Hk l cd' Hcd') as [Hl'|Hl']; [done|].
  rewrite Hl'. f_equal. rewrite (stamp_setup _ _ _ Hs).
  destruct Hcase as [(_ & cd & _ & ->)|(_ & _ & ->)]; apply stamp_idem.
Qed.

(** What a later iteration places, read from the calendar the loop
    started on. *)
Lemma placed_earlier c c1 c' (j : nat) (t : Day) :
  wf c -> setup c1 = setup c ->
  Calendar.days c1 !! j = Calendar.days c !! j -> kept c c1 ->
  placed c1 j t c' -> placed c j t c'.
Proof.
  intros Hwf Hs Hj Hk (l & cd' & Hl & Hcd' & Hcase).
  exists l, cd'. split_and!; [done..|].
  destruct Hcase as [(Hr & cd1 & Hcd1 & ->)|(Hr & Hfresh & ->)].
  - left. destruct (reusable_back c c1 j t l Hwf Hj Hk Hr)
      as (Hr0 & cd & cd1' & Hcd & Hcd1' & Hst).
    split; [done|]. exists cd. split; [done|].
    rewrite (stamp_setup _ _ _ Hs). congruence.
  - right. split_and!.
    + destruct (Calendar.reusable c j t) as [l0|] eqn:Hr0; [|done].
      rewrite (reusable_kept c c1 j t l0 Hj Hk Hr0) in Hr. done.
    + by eapply kept_dom.
    + by rewrite (stamp_setup _ _ _ Hs).
Qed.

(** The loop run for [m] iterations from position [i] and date [cur]. *)
Lemma resetDays_loop_spec (m : nat) :
  forall (i : nat) (cur : Day) c,
    wf c -> (i <= List.length (Calendar.days c))%nat ->
    let c' := Calendar.resetDays_loop m i cur c in
    frame c c'
    /\ wf c'
    /\ List.length (Calendar.days c')
       = Nat.max (List.length (Calendar.days c)) (i + m)
    /\ (forall j : nat, (j < i \/ i + m <= j)%nat ->
          Calendar.days c' !! j = Calendar.days c !! j)
    /\ kept c c'
    /\ (forall j : nat, (i <= j < i + m)%nat ->
          placed c j (Day.forth (j - i) cur) c').
Proof.
  induction m as [|m IH]; intros i cur c Hwf Hi; simpl.
  - split_and!; [apply frame_refl | done | lia | done | apply kept_refl |].
    intros j Hj. lia.
  - destruct (resetDays_step_spec c i cur Hwf Hi)
      as (Hf1 & Hwf1 & Hlen1 & Hdays1 & Hk1 & Hp1).
    set (c1 := Calendar.resetDays_step c i cur) in *.
    assert (Hi1 : (S i <= List.length (Calendar.days c1))%nat) by lia.
    destruct (IH (S i) (Day.next cur) c1 Hwf1 Hi1)
      as (Hf & Hwf' & Hlen & Hdays & Hk & Hp).
    pose proof (frame_setup _ _ Hf1) as Hs1.
    split_and!.
    + by eapply frame_trans.
    + done.
    + rewrite Hlen, Hlen1. lia.
    + intros j Hj. rewrite Hdays by lia. apply Hdays1. lia.
    + by eapply kept_trans.
    + intros j Hj. destruct (decide (j = i)) as [->|Hne].
      * replace (i - i)%nat with 0%nat by lia. simpl.
        eapply placed_later; [exact Hs1 | apply Hdays; lia | exact Hk | exact Hp1].
      * eapply placed_earlier; [exact Hwf | exact Hs1 | apply Hdays1; lia
                               | exact Hk1 |].
        replace (j - i)%nat with (S (j - S i))%nat by lia.
        rewrite <- forth_next. apply Hp. lia.
Qed.

(** *** resetDays *)

(** [resetFilled] writes the padded span to [filled]. *)
Lemma resetFilled_padded c :
  Calendar.resetFilled c = Calendar.set_filled (padded c) c.
Proof.
  unfold Calendar.resetFilled, padded, Calendar.start, Calendar.end_.
  destruct (Calendar.fill c); [done|]. by destruct (Calendar.span c).
Qed.

Lemma total_resetFilled c : Calendar.total (Calendar.resetFilled c) = size c.
Proof. by rewrite resetFilled_padded. Qed.

Lemma size_nonneg `{!Day.Laws Day} c : 0 <= size c.
Proof.
  unfold size. pose proof (Day.days_nonneg (padded c) Day.UP). lia.
Qed.

(** [resetDays]: the setup is kept, [filled] is the padded span, the array
    has [size c] positions, each with its cell, and no cell of the store
    is lost. *)
Lemma resetDays_spec `{!Day.Laws Day} c :
  wf c ->
  let c' := Calendar.resetDays c in
  setup c' = setup c
  /\ Calendar.filled c' = padded c
  /\ Calendar.length c' = Calendar.length c
  /\ wf c'
  /\ Z.of_nat (List.length (Calendar.days c')) = size c
  /\ kept c c'
  /\ (forall j : nat, Z.of_nat j < size c -> placed c j (target c j) c').
Proof.
  intros Hwf. unfold Calendar.resetDays.
  rewrite total_resetFilled, resetFilled_padded.
  pose proof (size_nonneg c) as Hsize.
  assert (Hwf0 : wf (Calendar.set_filled (padded c) c)) by exact Hwf.
  destruct (resetDays_loop_spec (Z.to_nat (size c)) 0
              (Day.start (Calendar.filled (Calendar.set_filled (padded c) c)))
              (Calendar.set_filled (padded c) c) Hwf0 ltac:(lia))
    as (Hf & Hwf' & Hlen & _ & Hk & Hp).
  set (c1 := Calendar.resetDays_loop _ _ _ _) in *.
  assert (Hplaced : forall j : nat, Z.of_nat j < size c ->
                      placed c j (target c j) c1).
  { intros j Hj. specialize (Hp j ltac:(lia)).
    replace (j - 0)%nat with j in Hp by lia. exact Hp. }
  assert (Hfilled : Calendar.filled c1 = padded c).
  { apply (f_equal Calendar.filled) in Hf. exact Hf. }
  assert (Hlength : Calendar.length c1 = Calendar.length c).
  { apply (f_equal Calendar.length) in Hf. exact Hf. }
  assert (Hsetup : setup c1 = setup c) by exact (frame_setup _ _ Hf).
  destruct (Z.of_nat (List.length (Calendar.days c1)) >? size c) eqn:Hgt.
  - unfold Calendar.trim.
    destruct (Z.ltb_spec (size c) 0) as [?|_]; [lia|].
    split_and!; try done.
    + unfold wf in *. simpl. by apply Forall_take.
    + simpl. rewrite length_take. lia.
    + intros j Hj. destruct (Hplaced j Hj) as (l & cd' & Hl & Hcd' & Hcase).
      exists l, cd'. split_and!; [|done..]. simpl.
      rewrite lookup_take_lt by lia. done.
  - split_and!; try done.
    destruct (Z.gtb_spec (Z.of_nat (List.length (Calendar.days c1))) (size c));
      [done | lia].
Qed.

(** C7.  After [resetDays] the array of cells has exactly
    [max(minimumSize, days of the padded span)] positions; the cell at
    position [i] is on the [i]-th date of the padded span; it is the cell
    that was at position [i] before, the same object, exactly when that
    cell was on that date already, and otherwise a cell that did not exist
    before, built on that date.  The count of days and the same-day test
    are the capability's ([Day.Laws]); the array holds references to
    cells that exist ([wf]). *)
Theorem resetDays_rebuilds `{!Day.Laws Day} c :
  wf c ->
  let c' := Calendar.resetDays c in
  Calendar.filled c' = padded c
  /\ Z.of_nat (List.length (Calendar.days c')) = size c
  /\ forall i : nat, Z.of_nat i < size c ->
       exists l cd,
         Calendar.days c' !! i = Some l
         /\ Calendar.cells c' !! l = Some cd
         /\ Day.sameDay (Calendar.date cd) (target c i) = true
         /\ match Calendar.days c !! i with
            | Some l0 =>
                exists cd0,
                  Calendar.cells c !! l0 = Some cd0
                  /\ if Day.sameDay (Calendar.date cd0) (target c i)
                     then l = l0 /\ Calendar.date cd = Calendar.date cd0
                     else (l ∉ dom (Calendar.cells c))
                          /\ Calendar.date cd = target c i
            | None =>
                (l ∉ dom (Calendar.cells c)) /\ Calendar.date cd = target c i
            end.
Proof.
  intros Hwf.
  destruct (resetDays_spec c Hwf) as (_ & Hfilled & _ & _ & Hlen & _ & Hp).
  simpl. split_and!; [done | done |].
  intros i Hi. destruct (Hp i Hi) as (l & cd' & Hl & Hcd' & Hcase).
  exists l, cd'. split_and!; [done | done | |].
  - destruct Hcase as [(Hr & cd & Hcd & ->)|(Hr & Hfresh & ->)].
    + apply reusable_Some in Hr as (_ & cd0 & Hcd0 & Hsame).
      rewrite stamp_date. congruence.
    + apply Day.sameDay_refl.
  - destruct Hcase as [(Hr & cd & Hcd & ->)|(Hr & Hfresh & ->)].
    + apply reusable_Some in Hr as (Hl0 & cd0 & Hcd0 & Hsame).
      rewrite Hl0. exists cd0. split; [done|]. rewrite Hsame.
      split; [done|]. rewrite stamp_date. congruence.
    + destruct (Calendar.days c !! i) as [l0|] eqn:Hl0; [|done].
      destruct (wf_lookup c i l0 Hwf Hl0) as [cd0 Hcd0].
      exists cd0. split; [done|].
      destruct (Day.sameDay (Calendar.date cd0) (target c i)) eqn:Hsame;
        [|done].
      assert (Hr' : Calendar.reusable c i (target c i) = Some l0)
        by (apply reusable_Some; eauto).
      congruence.
Qed.

(** *** The whole pipeline *)

Lemma setup_span c c' : setup c' = setup c -> Calendar.span c' = Calendar.span c.
Proof. unfold setup. by intros [= Hspan _ _ _ _ _ _ _]. Qed.

Lemma select_setup c c' cd : setup c' = setup c -> select c' cd = select c cd.
Proof.
  unfold setup. intros [= _ _ _ Hsel _ _ _ _]. unfold select. by rewrite Hsel.
Qed.

Lemma fillEvents_setup c c' cd :
  setup c' = setup c -> fillEvents c' cd = fillEvents c cd.
Proof.
  unfold setup. intros [= _ _ _ _ Hsch Hlist Hrep Hout].
  unfold fillEvents, Calendar.eventsForDay.
  by rewrite Hsch, Hlist, Hrep, Hout.
Qed.

Lemma refreshSelection_iterate c :
  Calendar.refreshSelection c = Calendar.iterateDays (select c) c.
Proof. reflexivity. Qed.

Lemma refreshEvents_iterate c :
  Calendar.refreshEvents c = Calendar.iterateDays (fillEvents c) c.
Proof. reflexivity. Qed.

Lemma set_length_id c : Calendar.set_length (Calendar.length c) c = c.
Proof. by destruct c. Qed.

Lemma set_filled_id c : Calendar.set_filled (Calendar.filled c) c = c.
Proof. by destruct c. Qed.

(** The loop of [resetDays] changes nothing when every position it goes
    over holds a cell on its date with [inCalendar] as the loop would
    write it. *)
Lemma resetDays_loop_id (m : nat) :
  forall (i : nat) (cur : Day) c,
    (forall j : nat, (i <= j < i + m)%nat ->
       exists l cd,
         Calendar.days c !! j = Some l
         /\ Calendar.cells c !! l = Some cd
         /\ Day.sameDay (Calendar.date cd) (Day.forth (j - i) cur) = true
         /\ stamp c cd = cd) ->
    Calendar.resetDays_loop m i cur c = c.
Proof.
  induction m as [|m IH]; intros i cur c Hpos; simpl; [done|].
  assert (Hstep : Calendar.resetDays_step c i cur = c).
  { destruct (Hpos i ltac:(lia)) as (l & cd & Hl & Hcd & Hsame & Hst).
    replace (i - i)%nat with 0%nat in Hsame by lia. simpl in Hsame.
    rewrite (resetDays_step_reuse c i cur l)
      by (apply reusable_Some; eauto).
    rewrite alter_id; [apply set_cells_id|].
    intros x Hx. congruence. }
  rewrite Hstep. apply IH. intros j Hj.
  destruct (Hpos j ltac:(lia)) as (l & cd & Hl & Hcd & Hsame & Hst).
  exists l, cd. split_and!; [done | done | | done].
  rewrite forth_next. replace (S (j - S i)) with (j - i)%nat by lia. done.
Qed.

(** On a settled calendar the pipeline changes nothing. *)
Lemma settled_refresh today c : settled today c -> Calendar.refresh today c = c.
Proof.
  intros (Hfilled & Hlength & Hlen & Hcells).
  assert (Hfix : forall l x, l ∈ Calendar.days c ->
                   Calendar.cells c !! l = Some x -> pipeline today c x = x).
  { intros l x Hl Hx. apply list_elem_of_lookup in Hl as [i Hi].
    destruct (Hcells i l Hi) as (cd & Hcd & _ & Hp). congruence. }
  unfold Calendar.refresh.
  rewrite <- Hlength, set_length_id.
  assert (Hreset : Calendar.resetDays c = c).
  { unfold Calendar.resetDays.
    rewrite total_resetFilled, resetFilled_padded, <- Hfilled, set_filled_id.
    rewrite resetDays_loop_id.
    - rewrite <- Hlen. by rewrite Z.gtb_ltb, Z.ltb_irrefl.
    - intros j Hj.
      destruct (lookup_lt_is_Some_2 (Calendar.days c) j ltac:(lia)) as [l Hl].
      destruct (Hcells j l Hl) as (cd & Hcd & Hsame & Hp).
      exists l, cd. split_and!; [done | done | |].
      + replace (j - 0)%nat with j by lia.
        unfold target in Hsame. by rewrite <- Hfilled in Hsame.
      + rewrite <- Hp. apply stamp_pipeline. }
  rewrite Hreset.
  assert (Hcurrent : Calendar.refreshCurrent today c = c).
  { apply iterateDays_id. intros l x Hl Hx.
    rewrite <- (Hfix l x Hl Hx). apply updateCurrent_pipeline. }
  rewrite Hcurrent.
  assert (Hselection : Calendar.refreshSelection c = c).
  { rewrite refreshSelection_iterate. apply iterateDays_id. intros l x Hl Hx.
    rewrite <- (Hfix l x Hl Hx). apply select_pipeline. }
  rewrite Hselection.
  rewrite refreshEvents_iterate. apply iterateDays_id. intros l x Hl Hx.
  rewrite <- (Hfix l x Hl Hx). apply fillEvents_pipeline.
Qed.

(** The pipeline leaves the calendar settled. *)
Lemma refresh_settled `{!Day.Laws Day} today c :
  wf c -> settled today (Calendar.refresh today c).
Proof.
  intros Hwf. unfold Calendar.refresh.
  set (c1 := Calendar.set_length _ c).
  assert (Hwf1 : wf c1) by exact Hwf.
  destruct (resetDays_spec c1 Hwf1)
    as (Hs2 & Hfilled2 & Hlength2 & _ & Hlen2 & _ & Hp2).
  set (c2 := Calendar.resetDays c1) in *.
  set (c3 := Calendar.refreshCurrent today c2).
  set (c4 := Calendar.refreshSelection c3).
  set (c5 := Calendar.refreshEvents c4).
  assert (Hs3 : setup c3 = setup c1) by exact Hs2.
  assert (Hs4 : setup c4 = setup c1) by exact Hs2.
  assert (Hs5 : setup c5 = setup c1) by exact Hs2.
  assert (Hdays : Calendar.days c5 = Calendar.days c2) by reflexivity.
  split_and!.
  - rewrite (padded_setup _ _ Hs5). exact Hfilled2.
  - change (Calendar.length c5) with (Calendar.length c2).
    rewrite Hlength2, (setup_span _ _ Hs5). reflexivity.
  - rewrite Hdays, (size_setup _ _ Hs5). exact Hlen2.
  - intros i l Hl. rewrite Hdays in Hl.
    assert (Hi : Z.of_nat i < size c1).
    { apply lookup_lt_Some in Hl. lia. }
    destruct (Hp2 i Hi) as (l' & cd2 & Hl' & Hcd2 & Hcase).
    assert (l' = l) as -> by congruence.
    assert (Hin : l ∈ Calendar.days c2) by (apply list_elem_of_lookup; eauto).
    assert (Hx : exists x, cd2 = stamp c1 x
                           /\ Day.sameDay (Calendar.date x) (target c1 i) = true).
    { destruct Hcase as [(Hr & cd & Hcd & ->)|(Hr & Hfresh & ->)].
      - exists cd. split; [done|].
        apply reusable_Some in Hr as (_ & cd0 & Hcd0 & Hsame). congruence.
      - eexists. split; [done|]. apply Day.sameDay_refl. }
    destruct Hx as (x & -> & Hsame).
    pose proof (iterateDays_lookup (Calendar.updateCurrent today) c2 l _
                  (updateCurrent_idem today) Hin Hcd2) as Hcd3.
    fold (Calendar.refreshCurrent today c2) in Hcd3. fold c3 in Hcd3.
    pose proof (iterateDays_lookup (select c3) c3 l _
                  (select_idem c3) Hin Hcd3) as Hcd4.
    rewrite <- refreshSelection_iterate in Hcd4. fold c4 in Hcd4.
    pose proof (iterateDays_lookup (fillEvents c4) c4 l _
                  (fillEvents_idem c4) Hin Hcd4) as Hcd5.
    rewrite <- refreshEvents_iterate in Hcd5. fold c5 in Hcd5.
    rewrite (select_setup _ _ _ Hs3), (fillEvents_setup _ _ _ Hs4) in Hcd5.
    fold (pipeline today c1 x) in Hcd5.
    exists (pipeline today c1 x). split_and!.
    + exact Hcd5.
    + rewrite pipeline_date, (target_setup _ _ _ Hs5). exact Hsame.
    + rewrite (pipeline_setup _ _ _ _ Hs5). apply pipeline_idem.
Qed.

(** C6.  Running the pipeline a second time with the same reference date
    changes nothing: the calendar it returns is the calendar it was given,
    so the array holds the same cell objects (the same references, none
    of their dates having changed) and every cell has the same value.
    The count of days and the same-day test are the capability's
    ([Day.Laws]); the array holds references to cells that exist
    ([wf]). *)
Theorem refresh_idempotent `{!Day.Laws Day} today c :
  wf c ->
  let c1 := Calendar.refresh today c in
  let c2 := Calendar.refresh today c1 in
  c2 = c1
  /\ Calendar.days c2 = Calendar.days c1
  /\ forall (i : nat) l,
       Calendar.days c1 !! i = Some l ->
       Calendar.days c2 !! i = Some l
       /\ Calendar.cells c2 !! l = Calendar.cells c1 !! l.
Proof.
  intros Hwf c1 c2.
  assert (Hsame : c2 = c1)
    by (apply settled_refresh, refresh_settled, Hwf).
  rewrite Hsame. split; [done|]. split; [done|]. intros i l Hl. done.
Qed.

End GridFacts.

(** ** Calendar.ts on concrete calendars *)

Section CalendarExamples.
Import WholeDays.

(** A week, days 0 to 6, with one schedule: Monday, Wednesday, Friday. *)
Definition week : Calendar.t Z nat :=
  calendar 0 6 [registration 0 (weekly [1; 3; 5] 1)].

(** The same week once refreshed, then asked for at least ten cells. *)
Definition weekOfTen : Calendar.t Z nat :=
  let c := Calendar.refresh 3 week in
  Calendar.mk (Calendar.span c) (Calendar.filled c) (Calendar.length c)
    (Calendar.type c) (Calendar.size c) (Calendar.moveStart c)
    (Calendar.moveEnd c) (Calendar.fill c) 10 (Calendar.repeatCovers c)
    (Calendar.listTimes c) (Calendar.eventsOutside c) (Calendar.selection c)
    (Calendar.days c) (Calendar.schedules c) (Calendar.cells c).

(** A week with two schedules, the second one at two times of the day. *)
Definition twoSchedules : Calendar.t Z nat :=
  calendar 0 6 [registration 0 (everyDayAt [0]);
                registration 1 (everyDayAt [0; 3600000])].

Lemma wf_week : Grid.wf week.
Proof. apply Forall_nil. done. Defined.

Lemma wf_weekOfTen : Grid.wf weekOfTen.
Proof.
  unfold Grid.wf. apply (bool_decide_unpack _). vm_compute. exact I.
Defined.

(** The first refresh builds seven cells, at references 0 to 6; the days
    with an event are the Monday, the Wednesday and the Friday. *)
Example week_refreshed :
  Calendar.days (Calendar.refresh 3 week) = [0; 1; 2; 3; 4; 5; 6]%nat
  /\ map (fun l => (Calendar.date <$> Calendar.cells (Calendar.refresh 3 week) !! l))
       (Calendar.days (Calendar.refresh 3 week))
     = [Some 0; Some 1; Some 2; Some 3; Some 4; Some 5; Some 6]
  /\ map (fun l => (fun cd => List.length (Calendar.events cd))
                     <$> Calendar.cells (Calendar.refresh 3 week) !! l)
       (Calendar.days (Calendar.refresh 3 week))
     = [Some 0; Some 1; Some 0; Some 1; Some 0; Some 1; Some 0]%nat.
Proof. vm_compute. done. Qed.

(** Asked for ten cells, [resetDays] keeps the seven cells it finds on
    their dates and adds three. *)
Example weekOfTen_reset :
  Calendar.days (Calendar.resetDays weekOfTen)
  = [0; 1; 2; 3; 4; 5; 6; 7; 8; 9]%nat
  /\ Calendar.days weekOfTen = [0; 1; 2; 3; 4; 5; 6]%nat.
Proof. vm_compute. done. Qed.

(** Three days in the middle of a week, days 9 to 11, to be filled to
    whole weeks: the week runs from day 7 to day 13. *)
Definition paddedWeek : Calendar.t Z nat :=
  Calendar.mk (Day.mkDaySpan 9 11) (Day.mkDaySpan 9 11) 0
    Calendar.DAY 3 (fun d n => d + n) (fun d n => d + n)
    true 0 true true false None []
    [registration 0 (weekly [1; 3; 5] 1)] ∅.

Lemma wf_paddedWeek : Grid.wf paddedWeek.
Proof. apply Forall_nil. done. Defined.

(** [resetDays] fills the three days to the seven of their week. *)
Example paddedWeek_reset :
  Calendar.filled (Calendar.resetDays paddedWeek) = Day.mkDaySpan 7 13
  /\ map (fun l => Calendar.date
                     <$> Calendar.cells (Calendar.resetDays paddedWeek) !! l)
       (Calendar.days (Calendar.resetDays paddedWeek))
     = [Some 7; Some 8; Some 9; Some 10; Some 11; Some 12; Some 13]
  /\ map (fun l => Calendar.inCalendar
                     <$> Calendar.cells (Calendar.resetDays paddedWeek) !! l)
       (Calendar.days (Calendar.resetDays paddedWeek))
     = [Some false; Some false; Some true; Some true; Some true;
        Some false; Some false].
Proof. vm_compute. done. Qed.

Lemma resetDays_rebuilds_witness :
  Calendar.filled (Calendar.resetDays paddedWeek) = Day.mkDaySpan 7 13
  /\ Z.of_nat (List.length (Calendar.days (Calendar.resetDays paddedWeek))) = 7.
Proof.
  pose proof (resetDays_rebuilds paddedWeek wf_paddedWeek) as (Hf & Hlen & _).
  exact (conj Hf Hlen).
Defined.

Lemma refresh_idempotent_witness :
  Calendar.refresh 3 (Calendar.refresh 3 week) = Calendar.refresh 3 week.
Proof.
  exact (proj1 (refresh_idempotent 3 week wf_week)).
Defined.

Lemma addSchedule_duplicate_witness :
  Calendar.addSchedule (fun r => r) (registration 0 (weekly [1; 3; 5] 1))
    false false week
  = week.
Proof.
  apply (proj1 (addSchedule_duplicate (fun r => r)
                  (registration 0 (weekly [1; 3; 5] 1)) false week
                  (registration 0 (weekly [1; 3; 5] 1)) eq_refl)).
Defined.

(** The third event of day 3: the second time of the second schedule. *)
Definition thirdEvent : Calendar.CalendarEvent Z nat :=
  Calendar.newCalendarEvent 25 (Calendar.mkObj 5%nat 1%nat)
    (Calendar.mkObj 4%nat (everyDayAt [0; 3600000]))
    (Day.mkDaySpan 3 4) 3.

Example twoSchedules_ids :
  map Calendar.id (Calendar.eventsForDay twoSchedules 3 true false) = [0; 24; 25]
  /\ map Calendar.scheduleId (Calendar.eventsForDay twoSchedules 3 true false)
     = [0; 1; 1].
Proof. vm_compute. done. Qed.

Lemma eventsForDay_ids_witness :
  exists (k timeIndex : nat) entry,
    Calendar.schedules twoSchedules !! k = Some entry
    /\ Calendar.event thirdEvent = Calendar.entry_event entry
    /\ Calendar.schedule thirdEvent = Calendar.entry_schedule entry
    /\ let spans :=
         Schedule.getSpansOn
           (Calendar.value (Calendar.entry_schedule entry)) 3 false in
       spans !! timeIndex = Some (Calendar.time thirdEvent)
       /\ Calendar.id thirdEvent
          = Z.of_nat k * Day.MAX_EVENTS_PER_DAY + Z.of_nat timeIndex
       /\ (Z.of_nat (List.length spans) < Day.MAX_EVENTS_PER_DAY ->
           Calendar.scheduleId thirdEvent = Z.of_nat k).
Proof.
  apply (eventsForDay_ids twoSchedules 3 false thirdEvent).
  do 2 apply list_elem_of_further. apply list_elem_of_here.
Defined.

End CalendarExamples.

(** ** The day queries of Schedule.ts: nextDay, nextDays, prevDay, prevDays *)


Section ScheduleQueries.
Context {Day : Type} `{!Day.Capability Day}.
Implicit Types (s : Schedule.t Day) (day d : Day).
Import Walks.

Lemma moved_step (next_ : bool) (k : nat) day :
  moved next_ k (step next_ day) = moved next_ (S k) day.
Proof.
  unfold moved, step, Day.forth, Day.back.
  destruct next_; symmetry; apply Nat.iter_succ_r.
Qed.

Lemma map_moved_step (next_ : bool) day (a n : nat) :
  map (fun k => moved next_ k (step next_ day)) (seq a n)
  = map (fun k => moved next_ k day) (seq (S a) n).
Proof.
  rewrite <- seq_shift, map_map. apply map_ext. intros k. apply moved_step.
Qed.

(** Once the first iteration is past, every iteration steps. *)
Lemma tested_stepping (next_ includeDay : bool) (fuel : nat) (days : Z) day :
  0 < days ->
  tested next_ includeDay fuel days day
  = map (fun k => moved next_ k day) (seq 1 fuel).
Proof.
  revert days day. induction fuel as [|fuel IH]; intros days day Hdays; [done|].
  cbn [tested seq map].
  assert (Hpos : (0 <? days) = true) by (apply Z.ltb_lt; lia).
  rewrite Hpos, orb_true_r. rewrite IH by lia.
  rewrite map_moved_step.
  f_equal; unfold moved, step, Day.forth, Day.back; by destruct next_.
Qed.

Lemma tested_candidates (next_ includeDay : bool) day (lookup : Z) :
  tested next_ includeDay (Z.to_nat lookup) 0 day
  = candidates next_ includeDay day lookup.
Proof.
  unfold candidates. destruct (Z.to_nat lookup) as [|fuel]; [done|].
  cbn [tested seq map]. change (0 <? 0) with false. rewrite orb_false_r.
  rewrite tested_stepping by lia.
  destruct includeDay; cbn [negb].
  - f_equal; unfold moved, Day.forth, Day.back; by destruct next_.
  - rewrite map_moved_step.
    f_equal; unfold moved, step, Day.forth, Day.back; by destruct next_.
Qed.

Lemma matching_cons_true s d l :
  Schedule.matchesDay s d = true -> matching s (d :: l) = d :: matching s l.
Proof. intros Hm. unfold matching. by rewrite filter_cons_True. Qed.

Lemma matching_cons_false s d l :
  Schedule.matchesDay s d = false -> matching s (d :: l) = matching s l.
Proof.
  intros Hm. unfold matching. rewrite filter_cons_False; [done|]. congruence.
Qed.

(** With the callback of [nextDays] and [prevDays], which appends the day
    and never returns [false], the loop leaves in the closure the matches
    among the days it tests, cut at [max - iterated] of them, and at one
    when that is less than one. *)
Lemma iterateDays_loop_collect s (max : Z) (next_ includeDay : bool)
    (fuel : nat) (days : Z) day (iterated : Z) (st : list Day) :
  Schedule.acc
    (Schedule.iterateDays_loop s max next_
       (fun d nexts => (nexts ++ [d], true)) includeDay
       fuel days day iterated st)
  = st ++ take (Z.to_nat (Z.max 1 (max - iterated)))
             (matching s (tested next_ includeDay fuel days day)).
Proof.
  revert days day iterated st.
  induction fuel as [|fuel IH]; intros days day iterated st.
  { cbn [Schedule.iterateDays_loop tested Schedule.acc]. unfold matching.
    by rewrite filter_nil, take_nil, app_nil_r. }
  cbn [Schedule.iterateDays_loop tested].
  fold (step next_ day).
  set (day' := if negb includeDay || (0 <? days) then step next_ day else day).
  destruct (Schedule.matchesDay s day') eqn:Hm.
  - rewrite (matching_cons_true _ _ _ Hm). cbn [negb].
    destruct (iterated + 1 >=? max) eqn:Hmax.
    + apply Z.geb_le in Hmax. simpl.
      replace (Z.to_nat (Z.max 1 (max - iterated))) with 1%nat by lia.
      by rewrite firstn_cons, take_0.
    + assert (iterated + 1 < max)
        by (destruct (Z.geb_spec (iterated + 1) max); [done | lia]).
      simpl. rewrite IH, <- app_assoc. f_equal.
      replace (Z.to_nat (Z.max 1 (max - iterated)))
        with (S (Z.to_nat (Z.max 1 (max - (iterated + 1))))) by lia.
      by rewrite firstn_cons.
  - rewrite (matching_cons_false _ _ _ Hm). simpl. apply IH.
Qed.

(** With the callback of [nextDay] and [prevDay], which keeps the day
    and returns [false], the loop leaves in the closure the first match
    among the days it tests, or what was there when none matches. *)
Lemma iterateDays_loop_first s (max : Z) (next_ includeDay : bool)
    (fuel : nat) (days : Z) day (iterated : Z) (st : option Day) :
  Schedule.acc
    (Schedule.iterateDays_loop s max next_
       (fun d _ => (Some d, false)) includeDay
       fuel days day iterated st)
  = match head (matching s (tested next_ includeDay fuel days day)) with
    | Some d => Some d
    | None => st
    end.
Proof.
  revert days day iterated st.
  induction fuel as [|fuel IH]; intros days day iterated st; [done|].
  cbn [Schedule.iterateDays_loop tested].
  fold (step next_ day).
  set (day' := if negb includeDay || (0 <? days) then step next_ day else day).
  destruct (Schedule.matchesDay s day') eqn:Hm.
  - by rewrite (matching_cons_true _ _ _ Hm).
  - rewrite (matching_cons_false _ _ _ Hm). simpl. apply IH.
Qed.

(** X5.  [nextDays(day, max)] returns, in order, the first [max] days
    that match among the [lookAhead] days after [day] ([day] itself
    included when [includeDay] is set), or all of them when fewer match;
    [prevDays] does the same over the days before [day].  A [max] below
    one behaves as one. *)
Theorem nextDays_prevDays_spec s day (max : Z) (includeDay : bool)
    (lookup : Z) :
  Schedule.nextDays s day max includeDay lookup
  = take (Z.to_nat (Z.max 1 max))
      (matching s (candidates true includeDay day lookup))
  /\ Schedule.prevDays s day max includeDay lookup
     = take (Z.to_nat (Z.max 1 max))
         (matching s (candidates false includeDay day lookup)).
Proof.
  unfold Schedule.nextDays, Schedule.prevDays, Schedule.iterateDays.
  rewrite !iterateDays_loop_collect, !tested_candidates, !Z.sub_0_r.
  done.
Qed.

(** X6.  [nextDay(day)] returns the first day that matches among the
    [lookAhead] days after [day] ([day] itself included when
    [includeDay] is set), and [null] when none of them matches;
    [prevDay] does the same over the days before [day]. *)
Theorem nextDay_prevDay_spec s day (includeDay : bool) (lookup : Z) :
  Schedule.nextDay s day includeDay lookup
  = head (matching s (candidates true includeDay day lookup))
  /\ Schedule.prevDay s day includeDay lookup
     = head (matching s (candidates false includeDay day lookup)).
Proof.
  unfold Schedule.nextDay, Schedule.prevDay, Schedule.iterateDays.
  rewrite !iterateDays_loop_first, !tested_candidates.
  split; by destruct (head _).
Qed.

(** *** The calls of the callback *)

(** A callback that records its calls is called as the callback it
    wraps: the walk is the same, and what it has recorded at the end is
    what the log of the walk tells. *)
Lemma iterateDays_loop_recording {St : Type} s (max : Z) (next_ : bool)
    (onDay : Schedule.DayIterator Day St) (includeDay : bool)
    (fuel : nat) (days : Z) day (iterated : Z) (st : St)
    (r : list (Day * bool)) :
  Schedule.iterateDays_loop s max next_ (Claims.recording onDay)
    includeDay fuel days day iterated (st, r)
  = Schedule.mkOutcome
      (Schedule.acc (Schedule.iterateDays_loop s max next_ onDay includeDay
                       fuel days day iterated st),
       r ++ Claims.answers
              (Schedule.log (Schedule.iterateDays_loop s max next_ onDay
                               includeDay fuel days day iterated st)))
      (Schedule.log (Schedule.iterateDays_loop s max next_ onDay includeDay
                       fuel days day iterated st))
      (Schedule.exit (Schedule.iterateDays_loop s max next_ onDay includeDay
                        fuel days day iterated st)).
Proof.
  revert days day iterated st r.
  induction fuel as [|fuel IH]; intros days day iterated st r.
  { simpl. by rewrite app_nil_r. }
  cbn [Schedule.iterateDays_loop].
  fold (step next_ day).
  set (day' := if negb includeDay || (0 <? days) then step next_ day else day).
  cbv zeta.
  destruct (Schedule.matchesDay s day').
  - unfold Claims.recording. cbn [fst snd].
    destruct (onDay day' st) as [st' goOn]. destruct goOn; cbn [negb].
    + destruct (iterated + 1 >=? max); [done|].
      rewrite IH. unfold Schedule.logged.
      cbn [Schedule.log Schedule.exit Schedule.acc Claims.answers omap].
      by rewrite <- app_assoc.
    + done.
  - rewrite IH. unfold Schedule.logged.
    by cbn [Schedule.log Schedule.exit Schedule.acc Claims.answers omap].
Qed.

Lemma iterateDays_loop_recorded {St : Type} s (max : Z) (next_ : bool)
    (onDay : Schedule.DayIterator Day St) (includeDay : bool)
    (fuel : nat) (days : Z) day (iterated : Z) (st : St)
    (r : list (Day * bool)) :
  let o := Schedule.iterateDays_loop s max next_ onDay includeDay
             fuel days day iterated st in
  let o' := Schedule.iterateDays_loop s max next_ (Claims.recording onDay)
              includeDay fuel days day iterated (st, r) in
  Schedule.log o' = Schedule.log o
  /\ Schedule.exit o' = Schedule.exit o
  /\ Schedule.acc o' = (Schedule.acc o, r ++ Claims.answers (Schedule.log o)).
Proof. intros o o'. unfold o'. by rewrite iterateDays_loop_recording. Qed.

Lemma answers_app (l1 l2 : list (Schedule.Visit Day)) :
  Claims.answers (l1 ++ l2) = Claims.answers l1 ++ Claims.answers l2.
Proof. unfold Claims.answers. apply omap_app. Qed.

Lemma count_answers (l : list (Schedule.Visit Day)) :
  Claims.count l = Z.of_nat (List.length (Claims.answers l)).
Proof.
  unfold Claims.count, Schedule.emitted, Claims.answers. f_equal.
  induction l as [|[d|d g] l IH]; simpl; [done | exact IH | by f_equal].
Qed.

Lemma goesOn_answers (l : list (Schedule.Visit Day)) :
  goesOn l -> Forall (fun a => a.2 = true) (Claims.answers l).
Proof.
  unfold goesOn. induction 1 as [|v l Hv _ IH]; [constructor|].
  destruct v as [d|d g]; simpl; [done|].
  constructor; [|done]. simpl. destruct g; [done|]. by destruct (Hv d).
Qed.

(** The days on which the callback was called are the days of the log
    that match, in order. *)
Lemma answers_matching s (l : list (Schedule.Visit Day)) :
  Forall (Claims.classified s) l ->
  (Claims.answers l).*1 = matching s (Schedule.visited l).
Proof.
  induction 1 as [|v l Hv _ IH]; [done|].
  destruct v as [d|d g]; simpl in Hv.
  - change (Schedule.visited (Schedule.Skipped d :: l))
      with (d :: Schedule.visited l).
    rewrite matching_cons_false by done. exact IH.
  - change (Schedule.visited (Schedule.Emitted d g :: l))
      with (d :: Schedule.visited l).
    rewrite matching_cons_true by done.
    change ((Claims.answers (Schedule.Emitted d g :: l)).*1)
      with (d :: (Claims.answers l).*1).
    by rewrite IH.
Qed.

Lemma candidates_length (next_ includeDay : bool) day (lookup : Z) :
  List.length (candidates next_ includeDay day lookup) = Z.to_nat lookup.
Proof. unfold candidates. by rewrite length_map, length_seq. Qed.

(** C4, as the code has it.  The walk is written for any callback; here
    the callback also records its calls, which changes nothing of the
    walk.  [iterateDays] tests at most [lookup] days, whatever the
    schedule and the callback (the [for] loop counts [days] up to
    [lookup] and its body does not write [days]), and the days it tests
    are the first of the days after (or before) [day]; its log has, for
    each call of the callback, the answer the callback gave; and for
    [max >= 1] it stops exactly when the callback signals stop, when
    [max] matches have been emitted, or when [lookup] days have been
    tested. *)
Theorem iterateDays_stops {St : Type} s day (max : Z) (next_ : bool)
    (onDay : Schedule.DayIterator Day St) (includeDay : bool)
    (lookup : Z) (st : St) :
  let o := Schedule.iterateDays s day max next_ (Claims.recording onDay)
             includeDay lookup (st, []) in
  (List.length (Schedule.visited (Schedule.log o)) <= Z.to_nat lookup)%nat
  /\ Schedule.visited (Schedule.log o)
     = take (List.length (Schedule.log o))
         (candidates next_ includeDay day lookup)
  /\ Claims.answers (Schedule.log o) = snd (Schedule.acc o)
  /\ Schedule.log (Schedule.iterateDays s day max next_ onDay includeDay
                     lookup st)
     = Schedule.log o
  /\ Schedule.acc (Schedule.iterateDays s day max next_ onDay includeDay
                     lookup st)
     = fst (Schedule.acc o)
  /\ (1 <= max -> Claims.stopsExactly max lookup o).
Proof.
  intros o. unfold o, Schedule.iterateDays.
  destruct (iterateDays_loop_recorded s max next_ onDay includeDay
              (Z.to_nat lookup) 0 day 0 st []) as (Hlog & Hexit & Hacc).
  split_and!.
  - unfold Schedule.visited. rewrite length_map.
    apply iterateDays_loop_length.
  - rewrite iterateDays_loop_visited. by rewrite tested_candidates.
  - by rewrite Hacc, Hlog.
  - by rewrite Hlog.
  - by rewrite Hacc.
  - intros Hmax. unfold Claims.stopsExactly.
    destruct (iterateDays_loop_stops s max next_ (Claims.recording onDay)
                includeDay (Z.to_nat lookup) 0 day 0 (st, []) ltac:(lia))
      as [Hend Hbefore].
    split.
    + destruct Hend as [Hstop | [Hc | Hl]];
        [by left | right; left; lia | by right; right].
    + intros p q Hpq Hq. destruct (Hbefore p q Hpq Hq) as (Hns & Hc & Hl).
      split_and!; [done | lia | lia].
Qed.

(** X2.  Every day [iterateDays] visits is tested with [matchesDay], and
    the callback is called on exactly the visited days that match, in
    the order visited: the days visited are the first of the days after
    (or before) [day], each is logged as its test came out, and the days
    a recording callback was called on are those of them that match. *)
Theorem iterateDays_calls {St : Type} s day (max : Z) (next_ : bool)
    (onDay : Schedule.DayIterator Day St) (includeDay : bool)
    (lookup : Z) (st : St) :
  let o := Schedule.iterateDays s day max next_ (Claims.recording onDay)
             includeDay lookup (st, []) in
  Schedule.visited (Schedule.log o)
  = take (List.length (Schedule.log o)) (candidates next_ includeDay day lookup)
  /\ Forall (Claims.classified s) (Schedule.log o)
  /\ (snd (Schedule.acc o)).*1 = matching s (Schedule.visited (Schedule.log o)).
Proof.
  intros o. unfold o, Schedule.iterateDays.
  destruct (iterateDays_loop_recorded s max next_ onDay includeDay
              (Z.to_nat lookup) 0 day 0 st []) as (Hlog & Hexit & Hacc).
  pose proof (iterateDays_loop_classified s max next_ onDay includeDay
                (Z.to_nat lookup) 0 day 0 st) as Hclass.
  rewrite Hacc, Hlog. split_and!.
  - rewrite iterateDays_loop_visited. by rewrite tested_candidates.
  - exact Hclass.
  - simpl. by apply answers_matching.
Qed.

(** X3.  The exit [iterateDays] takes shows on the calls of the
    callback.  Leaving by the callback's [break], the last visited day
    matched, the callback returned [false] on it and on no day before;
    leaving by the [max] break, the last visited day matched, the
    callback never returned [false], and it was called [max] times at
    least; leaving by the loop condition, all [lookup] days were visited,
    the callback never returned [false], and it was called fewer than
    [max] times, or not at all. *)
Theorem iterateDays_exit_calls {St : Type} s day (max : Z) (next_ : bool)
    (onDay : Schedule.DayIterator Day St) (includeDay : bool)
    (lookup : Z) (st : St) :
  let o := Schedule.iterateDays s day max next_ (Claims.recording onDay)
             includeDay lookup (st, []) in
  let calls := snd (Schedule.acc o) in
  match Schedule.exit o with
  | Schedule.CallbackStopped =>
      exists c d,
        calls = c ++ [(d, false)]
        /\ Forall (fun a => a.2 = true) c
        /\ last (Schedule.visited (Schedule.log o)) = Some d
        /\ Schedule.matchesDay s d = true
  | Schedule.MaxReached =>
      exists c d,
        calls = c ++ [(d, true)]
        /\ Forall (fun a => a.2 = true) c
        /\ last (Schedule.visited (Schedule.log o)) = Some d
        /\ Schedule.matchesDay s d = true
        /\ max <= Z.of_nat (List.length calls)
  | Schedule.LookupReached =>
      Schedule.visited (Schedule.log o) = candidates next_ includeDay day lookup
      /\ Forall (fun a => a.2 = true) calls
      /\ (calls = [] \/ Z.of_nat (List.length calls) < max)
  end.
Proof.
  intros o calls. subst calls o. unfold Schedule.iterateDays.
  rewrite iterateDays_loop_recording.
  cbn [Schedule.log Schedule.acc Schedule.exit snd app].
  pose proof (iterateDays_loop_classified s max next_ onDay includeDay
                (Z.to_nat lookup) 0 day 0 st) as Hclass.
  pose proof (iterateDays_loop_shape s max next_ onDay includeDay
                (Z.to_nat lookup) 0 day 0 st) as Hshape.
  pose proof (iterateDays_loop_visited s max next_ onDay includeDay
                (Z.to_nat lookup) 0 day 0 st) as Hvisited.
  rewrite tested_candidates in Hvisited. cbv zeta in Hshape.
  set (o := Schedule.iterateDays_loop s max next_ onDay includeDay
              (Z.to_nat lookup) 0 day 0 st) in *.
  destruct (Schedule.exit o).
  - destruct Hshape as (p & d & Hl & Hp). rewrite Hl in *.
    apply Forall_app in Hclass as [_ Hd]. apply Forall_inv in Hd.
    exists (Claims.answers p), d. split_and!.
    + by rewrite answers_app.
    + by apply goesOn_answers.
    + unfold Schedule.visited. rewrite map_app. cbn [map]. by rewrite last_snoc.
    + exact Hd.
  - destruct Hshape as (p & d & Hl & Hp & Hc). rewrite Hl in *.
    apply Forall_app in Hclass as [_ Hd]. apply Forall_inv in Hd.
    exists (Claims.answers p), d. split_and!.
    + by rewrite answers_app.
    + by apply goesOn_answers.
    + unfold Schedule.visited. rewrite map_app. cbn [map]. by rewrite last_snoc.
    + exact Hd.
    + rewrite count_answers in Hc. lia.
  - destruct Hshape as (Hl & Hp & Hc). split_and!.
    + rewrite Hvisited, Hl. apply take_ge. by rewrite candidates_length.
    + by apply goesOn_answers.
    + rewrite count_answers in Hc. destruct Hc as [Hc|Hc]; [left | right; lia].
      destruct (Claims.answers (Schedule.log o)); [done | simpl in Hc; lia].
Qed.

End ScheduleQueries.

(** ** The spans of Schedule.ts: getSpansOver, getSpanOver, getSpansOn *)

Section SpanFacts.
Context {Day : Type} `{!Day.Capability Day}.
Implicit Types (s : Schedule.t Day) (day d : Day) (span : Day.DaySpan Day).

(** A day that matches is the first day the backward search tests. *)
Lemma findStartingDay_of_match s day :
  0 <= Schedule.durationInDays s ->
  Schedule.matchesDay s day = true ->
  Schedule.findStartingDay s day = Some day.
Proof.
  intros Hdur Hm. unfold Schedule.findStartingDay.
  replace (Z.to_nat (Schedule.durationInDays s + 1))
    with (S (Z.to_nat (Schedule.durationInDays s))) by lia.
  simpl. by rewrite Hm.
Qed.

(** X7.  On a day that matches (with [durationInDays] not negative, as
    [updateDurationInDays] leaves it), the spans over the day are spans
    on the day: [getSpanOver] is the full span of the day itself, and
    [getSpansOver] gives the spans of [getSpansOn] for a full-day
    schedule, and for a timed one those of them that [matchesDay] of the
    span accepts for the day. *)
Theorem spans_over_matching_day s day :
  0 <= Schedule.durationInDays s ->
  Schedule.matchesDay s day = true ->
  Schedule.getSpanOver s day = Some (Schedule.getFullSpan s day)
  /\ Schedule.getSpansOn s day true = Schedule.getSpansOn s day false
  /\ Schedule.getSpansOver s day
     = if Schedule.isFullDay s
       then Schedule.getSpansOn s day false
       else filter (fun span => Day.spanMatchesDay span day = true)
              (Schedule.getSpansOn s day false).
Proof.
  intros Hdur Hm.
  pose proof (findStartingDay_of_match s day Hdur Hm) as Hstart.
  unfold Schedule.getSpanOver, Schedule.getSpansOver, Schedule.getSpansOn.
  rewrite Hstart, Hm. simpl.
  split_and!; [done | done |]. by destruct (Schedule.isFullDay s).
Qed.

(** X8.  [getSpansOver(day)] only returns spans generated from the one
    starting day [findStartingDay(day)] finds: a span is returned exactly
    when that day exists and the span is one of its [getSpansOn] spans
    (for a timed schedule, one that [matchesDay] accepts for the starting
    day); so a day that is not covered has no span over it, and
    [getSpanOver] is [null] exactly then. *)
Theorem getSpansOver_from_start s day span :
  (span ∈ Schedule.getSpansOver s day <->
     exists from,
       Schedule.findStartingDay s day = Some from
       /\ span ∈ Schedule.getSpansOn s from false
       /\ (Schedule.isFullDay s = false ->
           Day.spanMatchesDay span from = true))
  /\ (Schedule.coversDay s day = false ->
      Schedule.getSpansOver s day = [])
  /\ (Schedule.getSpanOver s day = None <-> Schedule.coversDay s day = false).
Proof.
  unfold Schedule.getSpansOver, Schedule.getSpanOver, Schedule.coversDay,
    Schedule.getSpansOn.
  destruct (Schedule.findStartingDay s day) as [from|]; simpl.
  - split_and!.
    + destruct (Schedule.isFullDay s); simpl.
      * split; [intros Hin; exists from; split_and!; done|].
        intros (from' & [= <-] & Hin & _). done.
      * rewrite list_elem_of_filter. split.
        -- intros [Hmatch Hin]. exists from. split_and!; done.
        -- intros (from' & [= <-] & Hin & Hmatch). split; [by apply Hmatch | done].
    + intros Hcov.
      first [ discriminate Hcov
            | apply bool_decide_eq_false in Hcov; destruct Hcov; by eexists ].
    + split; [done|]. intros Hcov.
      first [ discriminate Hcov
            | apply bool_decide_eq_false in Hcov; destruct Hcov; by eexists ].
  - split_and!.
    + split; [by intros Hin%elem_of_nil | by intros (from & [=] & _)].
    + done.
    + split; [|done]. intros _.
      first [ reflexivity
            | apply bool_decide_eq_false; by intros [x [=]] ].
Qed.

End SpanFacts.

(** ** The schedule registry: addSchedules, removeSchedule, removeSchedules *)

Module Registry.
Section WithDay.
Context {Day : Type} `{!Day.Capability Day} {T : Type}.

(** The test of [findSchedule] on one registration. *)
Definition identifies (input : Calendar.ident)
    (schedule : Calendar.CalendarSchedule Day T) : Prop :=
  Calendar.entry schedule = input
  \/ Calendar.identity (Calendar.entry_schedule schedule) = input
  \/ Calendar.identity (Calendar.entry_event schedule) = input.

(** An object is one object: two registrations with the same identity
    are the same registration. *)
Definition coherent (c : Calendar.t Day T) : Prop :=
  forall a b, a ∈ Calendar.schedules c -> b ∈ Calendar.schedules c ->
    Calendar.entry a = Calendar.entry b -> a = b.
End WithDay.
End Registry.

Section RegistryFacts.
Context {Day : Type} `{!Day.Capability Day} {T : Type}.
Implicit Types (c : Calendar.t Day T) (cd : Calendar.CalendarDay Day T)
               (e found : Calendar.CalendarSchedule Day T)
               (input : Calendar.ident).
Import Grid Registry.

Definition matches input e : bool :=
  bool_decide (Calendar.entry e = input)
  || bool_decide (Calendar.identity (Calendar.entry_schedule e) = input)
  || bool_decide (Calendar.identity (Calendar.entry_event e) = input).

Lemma matches_identifies input e : matches input e = true <-> identifies input e.
Proof.
  unfold matches, identifies.
  rewrite !orb_true_iff, !bool_decide_eq_true. tauto.
Qed.

Lemma findSchedule_find c input :
  Calendar.findSchedule c input = find (matches input) (Calendar.schedules c).
Proof. reflexivity. Qed.

Lemma find_split {A : Type} (f : A -> bool) (l : list A) (x : A) :
  find f l = Some x ->
  exists l1 l2, l = l1 ++ x :: l2 /\ f x = true
                /\ forall y, y ∈ l1 -> f y = false.
Proof.
  induction l as [|a l IH]; simpl; [done|].
  destruct (f a) eqn:Hfa.
  - intros [= ->]. exists [], l. split_and!; [done | done |].
    intros y Hy. by apply elem_of_nil in Hy.
  - intros Hfind. destruct (IH Hfind) as (l1 & l2 & -> & Hfx & Hl1).
    exists (a :: l1), l2. split_and!; [done | done |].
    intros y Hy. apply elem_of_cons in Hy as [->|Hy]; auto.
Qed.

Lemma find_None_iff {A : Type} (f : A -> bool) (l : list A) :
  find f l = None <-> forall y, y ∈ l -> f y = false.
Proof.
  induction l as [|a l IH]; simpl.
  - split; [intros _ y Hy; by apply elem_of_nil in Hy | done].
  - destruct (f a) eqn:Hfa.
    + split; [done|]. intros Hall.
      rewrite (Hall a (list_elem_of_here a l)) in Hfa. done.
    + rewrite IH. split.
      * intros Hall y Hy. apply elem_of_cons in Hy as [->|Hy]; auto.
      * intros Hall y Hy. apply Hall. by apply list_elem_of_further.
Qed.

Lemma find_app_found {A : Type} (f : A -> bool) (l1 l2 : list A) (x : A) :
  find f l1 = Some x -> find f (l1 ++ l2) = Some x.
Proof.
  induction l1 as [|a l1 IH]; simpl; [done|].
  destruct (f a); [done | apply IH].
Qed.

Lemma find_app_missing {A : Type} (f : A -> bool) (l1 l2 : list A) :
  find f l1 = None -> find f (l1 ++ l2) = find f l2.
Proof.
  induction l1 as [|a l1 IH]; simpl; [done|].
  destruct (f a); [done | apply IH].
Qed.

(** [indexOf] finds the object after the registrations that are other
    objects. *)
Lemma indexOf_middle found (l1 l2 : list (Calendar.CalendarSchedule Day T)) :
  (forall y, y ∈ l1 -> Calendar.entry y <> Calendar.entry found) ->
  Calendar.indexOf found (l1 ++ found :: l2) = Some (List.length l1).
Proof.
  unfold Calendar.indexOf. intros Hl1.
  induction l1 as [|a l1 IH]; simpl.
  - by rewrite decide_True.
  - rewrite decide_False by (apply Hl1, list_elem_of_here).
    specialize (IH (fun y Hy => Hl1 y (list_elem_of_further _ _ _ Hy))).
    destruct (list_find _ (l1 ++ found :: l2)) as [[i x]|]; simpl in *;
      [|done].
    by inversion IH.
Qed.

Lemma addSchedule_schedules {Input : Type}
    (parse : Input -> Calendar.CalendarSchedule Day T) (x : Input)
    (allowDuplicates delayRefresh : bool) c :
  Calendar.schedules
    (Calendar.addSchedule parse x allowDuplicates delayRefresh c)
  = if negb allowDuplicates
       && bool_decide (is_Some (Calendar.findSchedule c (Calendar.entry (parse x))))
    then Calendar.schedules c
    else Calendar.schedules c ++ [parse x].
Proof.
  unfold Calendar.addSchedule.
  destruct (negb allowDuplicates && _); [done|].
  by destruct delayRefresh.
Qed.

Lemma addSchedules_schedules {Input : Type}
    (parse : Input -> Calendar.CalendarSchedule Day T) (xs : list Input)
    (allowDuplicates delayRefresh : bool) c :
  Calendar.schedules
    (Calendar.addSchedules parse xs allowDuplicates delayRefresh c)
  = Calendar.schedules
      (foldl (fun c x => Calendar.addSchedule parse x allowDuplicates true c)
         c xs).
Proof. unfold Calendar.addSchedules. by destruct delayRefresh. Qed.

(** The delayed registrations change the registry only. *)
Lemma addSchedule_set {Input : Type}
    (parse : Input -> Calendar.CalendarSchedule Day T) (x : Input)
    (allowDuplicates : bool) c :
  Calendar.addSchedule parse x allowDuplicates true c
  = Calendar.set_schedules
      (Calendar.schedules (Calendar.addSchedule parse x allowDuplicates true c))
      c.
Proof.
  unfold Calendar.addSchedule.
  destruct (negb allowDuplicates && _); [by destruct c | done].
Qed.

Lemma addSchedule_fold_set {Input : Type}
    (parse : Input -> Calendar.CalendarSchedule Day T) (xs : list Input)
    (allowDuplicates : bool) c :
  foldl (fun c x => Calendar.addSchedule parse x allowDuplicates true c) c xs
  = Calendar.set_schedules
      (Calendar.schedules
         (foldl (fun c x => Calendar.addSchedule parse x allowDuplicates true c)
            c xs))
      c.
Proof.
  revert c. induction xs as [|x xs IH]; intros c; simpl; [by destruct c|].
  rewrite IH at 1. by rewrite (addSchedule_set parse x allowDuplicates c) at 2.
Qed.

(** The delayed registrations, one after the other, only append. *)
Lemma addSchedule_fold_appends {Input : Type}
    (parse : Input -> Calendar.CalendarSchedule Day T) (xs : list Input)
    (allowDuplicates : bool) c :
  exists added,
    Calendar.schedules
      (foldl (fun c x => Calendar.addSchedule parse x allowDuplicates true c)
         c xs)
    = Calendar.schedules c ++ added
    /\ sublist added (map parse xs)
    /\ (allowDuplicates = true -> added = map parse xs).
Proof.
  revert c. induction xs as [|x xs IH]; intros c; simpl.
  - exists []. by rewrite app_nil_r.
  - destruct (IH (Calendar.addSchedule parse x allowDuplicates true c))
      as (added & Heq & Hsub & Hall).
    rewrite Heq, addSchedule_schedules.
    destruct (negb allowDuplicates && _) eqn:Hskip.
    + exists added. split_and!; [done | by apply sublist_cons |].
      intros ->. done.
    + exists (parse x :: added). split_and!.
      * by rewrite <- app_assoc.
      * by apply sublist_skip.
      * intros Hallow. by rewrite Hall.
Qed.

(** X9.  [addSchedules] only appends: the registry it leaves is the old
    one followed by parsed inputs, in the order given, some of them
    possibly left out; with [allowDuplicates] none is left out; and it
    writes nothing else of the calendar when the refresh is delayed. *)
Theorem addSchedules_appends {Input : Type}
    (parse : Input -> Calendar.CalendarSchedule Day T) (xs : list Input)
    (allowDuplicates delayRefresh : bool) c :
  exists added,
    Calendar.schedules
      (Calendar.addSchedules parse xs allowDuplicates delayRefresh c)
    = Calendar.schedules c ++ added
    /\ sublist added (map parse xs)
    /\ (allowDuplicates = true -> added = map parse xs)
    /\ (delayRefresh = true ->
        Calendar.addSchedules parse xs allowDuplicates delayRefresh c
        = Calendar.set_schedules (Calendar.schedules c ++ added) c).
Proof.
  rewrite addSchedules_schedules.
  destruct (addSchedule_fold_appends parse xs allowDuplicates c)
    as (added & Heq & Hsub & Hall).
  exists added. split_and!; [done..|].
  intros ->. unfold Calendar.addSchedules. simpl. rewrite <- Heq.
  apply addSchedule_fold_set.
Qed.

Lemma NoDup_addSchedule {Input : Type}
    (parse : Input -> Calendar.CalendarSchedule Day T) (x : Input)
    (delayRefresh : bool) c :
  NoDup (Calendar.entry <$> Calendar.schedules c) ->
  NoDup (Calendar.entry
           <$> Calendar.schedules (Calendar.addSchedule parse x false delayRefresh c)).
Proof.
  intros Hnd. rewrite addSchedule_schedules. simpl.
  destruct (Calendar.findSchedule c (Calendar.entry (parse x))) as [found|] eqn:Hf;
    [done|].
  rewrite bool_decide_eq_false_2 by (by intros [? [=]]).
  rewrite fmap_app. apply NoDup_app. split_and!; [done | | apply NoDup_singleton].
  intros tag Htag Htag'. apply list_elem_of_singleton in Htag'. subst tag.
  apply list_elem_of_fmap in Htag as (y & Hy & Hin).
  rewrite findSchedule_find, find_None_iff in Hf.
  specialize (Hf y Hin). unfold matches in Hf.
  rewrite !orb_false_iff, !bool_decide_eq_false in Hf.
  destruct Hf as [[Hne _] _]. congruence.
Qed.

Lemma findSchedule_addSchedule {Input : Type}
    (parse : Input -> Calendar.CalendarSchedule Day T) (x : Input)
    (allowDuplicates delayRefresh : bool) c input :
  is_Some (Calendar.findSchedule c input) ->
  is_Some (Calendar.findSchedule
             (Calendar.addSchedule parse x allowDuplicates delayRefresh c) input).
Proof.
  intros [found Hf]. rewrite findSchedule_find in *.
  rewrite addSchedule_schedules.
  destruct (negb allowDuplicates && _); [by eexists|].
  rewrite (find_app_found _ _ _ _ Hf). by eexists.
Qed.

Lemma findSchedule_added {Input : Type}
    (parse : Input -> Calendar.CalendarSchedule Day T) (x : Input)
    (allowDuplicates delayRefresh : bool) c :
  is_Some (Calendar.findSchedule
             (Calendar.addSchedule parse x allowDuplicates delayRefresh c)
             (Calendar.entry (parse x))).
Proof.
  destruct (Calendar.findSchedule c (Calendar.entry (parse x))) as [found|] eqn:Hf.
  { apply findSchedule_addSchedule. by eexists. }
  rewrite findSchedule_find, addSchedule_schedules, Hf.
  rewrite bool_decide_eq_false_2 by (by intros [? [=]]).
  rewrite andb_false_r.
  rewrite findSchedule_find in Hf. rewrite (find_app_missing _ _ _ Hf).
  simpl. unfold matches. rewrite bool_decide_eq_true_2 by done. by eexists.
Qed.

(** X10.  Registered without [allowDuplicates], no pair object gets into
    the registry twice: when the registrations are distinct objects
    before [addSchedules], they are so after it; and every input can be
    found afterwards. *)
Theorem addSchedules_distinct {Input : Type}
    (parse : Input -> Calendar.CalendarSchedule Day T) (xs : list Input)
    (delayRefresh : bool) c :
  NoDup (Calendar.entry <$> Calendar.schedules c) ->
  NoDup (Calendar.entry
           <$> Calendar.schedules (Calendar.addSchedules parse xs false delayRefresh c))
  /\ forall x, x ∈ xs ->
       is_Some (Calendar.findSchedule
                  (Calendar.addSchedules parse xs false delayRefresh c)
                  (Calendar.entry (parse x))).
Proof.
  intros Hnd.
  assert (Hfind : forall c' input,
             Calendar.findSchedule
               (Calendar.addSchedules parse xs false delayRefresh c') input
             = Calendar.findSchedule
                 (foldl (fun c x => Calendar.addSchedule parse x false true c)
                    c' xs) input).
  { intros c' input. by rewrite !findSchedule_find, addSchedules_schedules. }
  rewrite addSchedules_schedules.
  setoid_rewrite Hfind. clear Hfind.
  revert c Hnd. induction xs as [|x xs IH]; intros c Hnd; simpl.
  - split; [done|]. intros x Hx. by apply elem_of_nil in Hx.
  - destruct (IH (Calendar.addSchedule parse x false true c)
                (NoDup_addSchedule parse x true c Hnd)) as [Hnd' Hfound].
    split; [done|].
    intros y Hy. apply elem_of_cons in Hy as [->|Hy]; [|by apply Hfound].
    clear IH Hfound Hnd'.
    assert (Hkeep : forall c',
               is_Some (Calendar.findSchedule c' (Calendar.entry (parse x))) ->
               is_Some (Calendar.findSchedule
                          (foldl (fun c x => Calendar.addSchedule parse x false true c)
                             c' xs)
                          (Calendar.entry (parse x)))).
    { induction xs as [|z xs IHxs]; intros c' Hc'; simpl; [done|].
      by apply IHxs, findSchedule_addSchedule. }
    apply Hkeep, findSchedule_added.
Qed.

(** X11.  [removeSchedule] takes out one registration, the first one
    that the identifier finds, and leaves the others in their order;
    when the identifier finds none the calendar is as it was. *)
Theorem removeSchedule_removes_first input (delayRefresh : bool) c :
  coherent c ->
  match Calendar.findSchedule c input with
  | Some found =>
      exists l1 l2,
        Calendar.schedules c = l1 ++ found :: l2
        /\ identifies input found
        /\ (forall y, y ∈ l1 -> ~ identifies input y)
        /\ Calendar.schedules (Calendar.removeSchedule input delayRefresh c)
           = l1 ++ l2
  | None =>
      (forall y, y ∈ Calendar.schedules c -> ~ identifies input y)
      /\ Calendar.removeSchedule input delayRefresh c = c
  end.
Proof.
  intros Hco. unfold Calendar.removeSchedule.
  destruct (Calendar.findSchedule c input) as [found|] eqn:Hf.
  - rewrite findSchedule_find in Hf.
    destruct (find_split _ _ _ Hf) as (l1 & l2 & Hl & Hfound & Hl1).
    exists l1, l2. split_and!.
    + done.
    + by apply matches_identifies.
    + intros y Hy Hid. apply matches_identifies in Hid.
      rewrite (Hl1 y Hy) in Hid. done.
    + assert (Hsch : Calendar.schedules
                       (Calendar.set_schedules
                          (Calendar.spliceOne
                             (Calendar.indexOf found (Calendar.schedules c))
                             (Calendar.schedules c)) c)
                     = l1 ++ l2).
      { simpl. rewrite Hl. rewrite indexOf_middle.
        - simpl. by rewrite delete_middle.
        - intros y Hy Htag.
          assert (y = found) as ->.
          { apply Hco; [| |done]; rewrite Hl.
            - apply elem_of_app. by left.
            - apply elem_of_app. right. apply list_elem_of_here. }
          rewrite (Hl1 found Hy) in Hfound. done. }
      by destruct delayRefresh.
  - split; [|done]. rewrite findSchedule_find, find_None_iff in Hf.
    intros y Hy Hid. apply matches_identifies in Hid.
    rewrite (Hf y Hy) in Hid. done.
Qed.

(** X12.  Adding a registration that nothing in the registry is found
    for, and removing it again by its pair, gives back the calendar
    (both without refresh, which neither order of the two calls would
    undo). *)
Theorem removeSchedule_addSchedule {Input : Type}
    (parse : Input -> Calendar.CalendarSchedule Day T) (x : Input)
    (allowDuplicates : bool) c :
  Calendar.findSchedule c (Calendar.entry (parse x)) = None ->
  Calendar.removeSchedule (Calendar.entry (parse x)) true
    (Calendar.addSchedule parse x allowDuplicates true c)
  = c.
Proof.
  intros Hf.
  assert (Hadd : Calendar.addSchedule parse x allowDuplicates true c
                 = Calendar.set_schedules (Calendar.schedules c ++ [parse x]) c).
  { unfold Calendar.addSchedule. rewrite Hf.
    rewrite bool_decide_eq_false_2 by (by intros [? [=]]).
    by rewrite andb_false_r. }
  rewrite Hadd. unfold Calendar.removeSchedule.
  rewrite findSchedule_find in Hf.
  assert (Hfound : Calendar.findSchedule
                     (Calendar.set_schedules (Calendar.schedules c ++ [parse x]) c)
                     (Calendar.entry (parse x))
                   = Some (parse x)).
  { rewrite findSchedule_find. simpl. rewrite (find_app_missing _ _ _ Hf).
    simpl. unfold matches. by rewrite bool_decide_eq_true_2. }
  rewrite Hfound. simpl.
  rewrite indexOf_middle.
  - simpl. rewrite delete_middle, app_nil_r. by destruct c.
  - intros y Hy Htag. rewrite find_None_iff in Hf.
    specialize (Hf y Hy). unfold matches in Hf.
    rewrite !orb_false_iff, !bool_decide_eq_false in Hf.
  destruct Hf as [[Hne _] _]. congruence.
Qed.

End RegistryFacts.

(** ** The events of a day: identifiers and owners *)

From stdpp Require Import sorting.
#[local] Open Scope Z_scope.

Section EventFacts.
Context {Day : Type} `{!Day.Capability Day} {T : Type}.
Implicit Types (c : Calendar.t Day T) (cd : Calendar.CalendarDay Day T)
               (e : Calendar.CalendarEvent Day T)
               (entry : Calendar.CalendarSchedule Day T) (day : Day).

Lemma eventsOfEntry_lookup day (getTimes covers : bool) (k ti : nat) entry e :
  Calendar.eventsOfEntry day getTimes covers k entry !! ti = Some e ->
  Calendar.id e = Z.of_nat k * Day.MAX_EVENTS_PER_DAY + Z.of_nat ti
  /\ Calendar.schedule e = Calendar.entry_schedule entry
  /\ Calendar.event e = Calendar.entry_event entry
  /\ (if covers
      then Schedule.coversDay (Calendar.value (Calendar.entry_schedule entry)) day
      else Schedule.matchesDay (Calendar.value (Calendar.entry_schedule entry)) day)
     = true
  /\ (getTimes = false ->
      ti = 0%nat
      /\ Schedule.getSpanOver (Calendar.value (Calendar.entry_schedule entry)) day
         = Some (Calendar.time e)).
Proof.
  unfold Calendar.eventsOfEntry.
  destruct (_ || _) eqn:Hguard; [|done].
  assert (Hg : (if covers
                then Schedule.coversDay
                       (Calendar.value (Calendar.entry_schedule entry)) day
                else Schedule.matchesDay
                       (Calendar.value (Calendar.entry_schedule entry)) day)
               = true).
  { destruct covers; simpl in Hguard; [by rewrite orb_false_r in Hguard | done]. }
  destruct getTimes.
  - rewrite list_lookup_imap.
    destruct (_ !! ti) as [span|]; [|done]. simpl. intros [= <-].
    simpl. split_and!; done.
  - destruct (Schedule.getSpanOver _ day) as [over|]; [|done].
    destruct ti as [|ti]; [|done]. simpl. intros [= <-]. simpl.
    split_and!; [lia | done | done | done | done].
Qed.

Lemma eventsOfEntry_in_day c day (getTimes covers : bool) (k : nat) entry e :
  Calendar.schedules c !! k = Some entry ->
  e ∈ Calendar.eventsOfEntry day getTimes covers k entry ->
  e ∈ Calendar.eventsForDay c day getTimes covers.
Proof.
  intros Hk He. unfold Calendar.eventsForDay.
  apply list_elem_of_In, in_concat.
  exists (Calendar.eventsOfEntry day getTimes covers k entry).
  split; apply list_elem_of_In; [|done].
  by apply (elem_of_lookup_imap_2 (Calendar.eventsOfEntry day getTimes covers)).
Qed.

Lemma ascending_NoDup (ids : list Z) : StronglySorted Z.lt ids -> NoDup ids.
Proof.
  induction ids as [|i ids IH]; intros Hs; [constructor|].
  apply StronglySorted_cons in Hs as [Hall Hs].
  constructor; [|by apply IH].
  intros Hin. rewrite Forall_forall in Hall. specialize (Hall i Hin). lia.
Qed.

(** Identifiers that count up from [a] along a list are ascending. *)
Lemma ascending_from (l : list (Calendar.CalendarEvent Day T)) (a : Z) :
  (forall (ti : nat) e, l !! ti = Some e -> Calendar.id e = a + Z.of_nat ti) ->
  StronglySorted Z.lt (Calendar.id <$> l).
Proof.
  revert a. induction l as [|x l IH]; intros a Hl; [constructor|].
  rewrite fmap_cons. apply StronglySorted_cons. split.
  - apply Forall_fmap, Forall_lookup. intros ti e He. simpl.
    rewrite (Hl 0%nat x eq_refl), (Hl (S ti) e He). lia.
  - apply (IH (a + 1)). intros ti e He. rewrite (Hl (S ti) e He). lia.
Qed.

(** The events of the registrations from position [off] on: ascending,
    and none below [off * MAX_EVENTS_PER_DAY]. *)
Lemma blocks_ascending day (getTimes covers : bool)
    (l : list (Calendar.CalendarSchedule Day T)) (off : nat) :
  (forall (k : nat) entry, l !! k = Some entry ->
     Z.of_nat (List.length
                 (Calendar.eventsOfEntry day getTimes covers (off + k) entry))
     <= Day.MAX_EVENTS_PER_DAY) ->
  StronglySorted Z.lt
    (Calendar.id
       <$> concat (imap (fun i => Calendar.eventsOfEntry day getTimes covers (off + i)) l))
  /\ Forall (fun e => Z.of_nat off * Day.MAX_EVENTS_PER_DAY <= Calendar.id e)
       (concat (imap (fun i => Calendar.eventsOfEntry day getTimes covers (off + i)) l)).
Proof.
  revert off. induction l as [|x l IH]; intros off Hfit.
  { split; constructor. }
  rewrite imap_cons. cbn [concat].
  assert (Hrest : forall (k : nat) entry, l !! k = Some entry ->
             Z.of_nat (List.length
                         (Calendar.eventsOfEntry day getTimes covers (S off + k) entry))
             <= Day.MAX_EVENTS_PER_DAY).
  { intros k entry Hk. specialize (Hfit (S k) entry Hk).
    by replace (off + S k)%nat with (S off + k)%nat in Hfit by lia. }
  destruct (IH (S off) Hrest) as [Hsorted Hlow].
  assert (Himap : imap ((fun i => Calendar.eventsOfEntry day getTimes covers (off + i)) ∘ S) l
                  = imap (fun i => Calendar.eventsOfEntry day getTimes covers (S off + i)) l).
  { apply imap_ext. intros i y _. simpl. f_equal. lia. }
  rewrite Himap.
  specialize (Hfit 0%nat x eq_refl).
  replace (off + 0)%nat with off in * by lia.
  set (block := Calendar.eventsOfEntry day getTimes covers off x) in *.
  assert (Hblock : forall (ti : nat) e, block !! ti = Some e ->
             Calendar.id e = Z.of_nat off * Day.MAX_EVENTS_PER_DAY + Z.of_nat ti
             /\ Z.of_nat ti < Day.MAX_EVENTS_PER_DAY).
  { intros ti e He. split.
    - by apply (eventsOfEntry_lookup day getTimes covers off ti x e).
    - apply lookup_lt_Some in He. lia. }
  split.
  - rewrite fmap_app. apply StronglySorted_app. split_and!.
    + intros i1 i2 Hi1 Hi2.
      apply list_elem_of_fmap in Hi1 as (e1 & -> & He1).
      apply list_elem_of_fmap in Hi2 as (e2 & -> & He2).
      apply list_elem_of_lookup in He1 as [ti He1].
      destruct (Hblock ti e1 He1) as [Hid Hti].
      rewrite Forall_forall in Hlow. specialize (Hlow e2 He2).
      rewrite Hid. nia.
    + apply (ascending_from block (Z.of_nat off * Day.MAX_EVENTS_PER_DAY)).
      intros ti e He. by apply Hblock.
    + done.
  - apply Forall_app. split.
    + apply Forall_lookup. intros ti e He.
      destruct (Hblock ti e He) as [Hid Hti]. lia.
    + apply Forall_forall. intros e He.
      rewrite Forall_forall in Hlow. specialize (Hlow e He).
      assert (0 < Day.MAX_EVENTS_PER_DAY).
      { apply list_elem_of_In, in_concat in He as (evs & Hevs & He).
        apply list_elem_of_In, elem_of_lookup_imap in Hevs
          as (k & entry & -> & Hk).
        specialize (Hrest k entry Hk).
        destruct (Calendar.eventsOfEntry day getTimes covers (S off + k) entry);
          [by apply in_nil in He | simpl in Hrest; lia]. }
      nia.
Qed.

(** Without [getTimes] every registration gives one event at most. *)
Lemma blocks_single day (covers : bool)
    (l : list (Calendar.CalendarSchedule Day T)) (off : nat) :
  (List.length
     (concat (imap (fun i => Calendar.eventsOfEntry day false covers (off + i)) l))
   <= List.length l)%nat.
Proof.
  revert off. induction l as [|x l IH]; intros off; [done|].
  rewrite imap_cons. cbn [concat]. rewrite length_app.
  assert (Himap : imap ((fun i => Calendar.eventsOfEntry day false covers (off + i)) ∘ S) l
                  = imap (fun i => Calendar.eventsOfEntry day false covers (S off + i)) l).
  { apply imap_ext. intros i y _. simpl. f_equal. lia. }
  rewrite Himap. specialize (IH (S off)).
  assert (List.length (Calendar.eventsOfEntry day false covers (off + 0) x) <= 1)%nat.
  { unfold Calendar.eventsOfEntry. destruct (_ || _); [|simpl; lia].
    destruct (Schedule.getSpanOver _ day); simpl; lia. }
  change (List.length (x :: l)) with (S (List.length l)). lia.
Qed.

(** X13.  When no registration gives more than [MAX_EVENTS_PER_DAY]
    events for the day, the events of [eventsForDay] come with strictly
    ascending ids, in registration order and, within a registration, in
    the order of its spans; no two events of the day share an id. *)
Theorem eventsForDay_ids_ascending c day (getTimes covers : bool) :
  (forall (k : nat) entry, Calendar.schedules c !! k = Some entry ->
     Z.of_nat (List.length (Calendar.eventsOfEntry day getTimes covers k entry))
     <= Day.MAX_EVENTS_PER_DAY) ->
  StronglySorted Z.lt
    (Calendar.id <$> Calendar.eventsForDay c day getTimes covers)
  /\ NoDup (Calendar.id <$> Calendar.eventsForDay c day getTimes covers).
Proof.
  intros Hfit.
  destruct (blocks_ascending day getTimes covers (Calendar.schedules c) 0 Hfit)
    as [Hsorted _].
  split; [exact Hsorted | apply ascending_NoDup, Hsorted].
Qed.

(** X14.  The limit of the id scheme: when a registration gives more than
    [MAX_EVENTS_PER_DAY] events for the day and the next registration
    gives one, the event past the limit and the first event of the next
    registration are both among the events of the day with the same id,
    and [scheduleId] of the former names the next registration. *)
Theorem eventsForDay_id_collision c day (covers : bool) (k : nat) a b e1 e2 :
  0 < Day.MAX_EVENTS_PER_DAY ->
  Calendar.schedules c !! k = Some a ->
  Calendar.schedules c !! S k = Some b ->
  Calendar.eventsOfEntry day true covers k a
    !! Z.to_nat Day.MAX_EVENTS_PER_DAY = Some e1 ->
  Calendar.eventsOfEntry day true covers (S k) b !! 0%nat = Some e2 ->
  e1 ∈ Calendar.eventsForDay c day true covers
  /\ e2 ∈ Calendar.eventsForDay c day true covers
  /\ Calendar.schedule e1 = Calendar.entry_schedule a
  /\ Calendar.schedule e2 = Calendar.entry_schedule b
  /\ Calendar.id e1 = Calendar.id e2
  /\ Calendar.scheduleId e1 = Z.of_nat (S k).
Proof.
  intros Hmax Ha Hb He1 He2.
  destruct (eventsOfEntry_lookup _ _ _ _ _ _ _ He1) as (Hid1 & Hs1 & _).
  destruct (eventsOfEntry_lookup _ _ _ _ _ _ _ He2) as (Hid2 & Hs2 & _).
  split_and!.
  - eapply eventsOfEntry_in_day; [exact Ha|]. by eapply list_elem_of_lookup_2.
  - eapply eventsOfEntry_in_day; [exact Hb|]. by eapply list_elem_of_lookup_2.
  - done.
  - done.
  - rewrite Hid1, Hid2. lia.
  - unfold Calendar.scheduleId. rewrite Hid1.
    replace (Z.of_nat k * Day.MAX_EVENTS_PER_DAY
             + Z.of_nat (Z.to_nat Day.MAX_EVENTS_PER_DAY))
      with (Z.of_nat (S k) * Day.MAX_EVENTS_PER_DAY) by lia.
    apply Z.div_mul. lia.
Qed.

(** X15.  [eventsForDay] gives events only for registrations whose
    schedule covers the day ([covers] set) or matches it ([covers] not
    set), each carrying the schedule and payload of its registration;
    without [getTimes] a registration gives at most one event, with id
    [k * MAX_EVENTS_PER_DAY] and the span of [getSpanOver]. *)
Theorem eventsForDay_owners c day (getTimes covers : bool) :
  (forall e, e ∈ Calendar.eventsForDay c day getTimes covers ->
     exists (k : nat) entry,
       Calendar.schedules c !! k = Some entry
       /\ Calendar.schedule e = Calendar.entry_schedule entry
       /\ Calendar.event e = Calendar.entry_event entry
       /\ (if covers
           then Schedule.coversDay
                  (Calendar.value (Calendar.entry_schedule entry)) day
           else Schedule.matchesDay
                  (Calendar.value (Calendar.entry_schedule entry)) day)
          = true
       /\ (getTimes = false ->
           Calendar.id e = Z.of_nat k * Day.MAX_EVENTS_PER_DAY
           /\ Schedule.getSpanOver
                (Calendar.value (Calendar.entry_schedule entry)) day
              = Some (Calendar.time e)))
  /\ (getTimes = false ->
      (List.length (Calendar.eventsForDay c day getTimes covers)
       <= List.length (Calendar.schedules c))%nat).
Proof.
  split.
  - intros e He. unfold Calendar.eventsForDay in He.
    apply list_elem_of_In, in_concat in He as (evs & Hevs & He).
    apply list_elem_of_In, elem_of_lookup_imap in Hevs as (k & entry & -> & Hk).
    apply list_elem_of_In, list_elem_of_lookup in He as [ti Hti].
    destruct (eventsOfEntry_lookup _ _ _ _ _ _ _ Hti)
      as (Hid & Hs & Hev & Hguard & Hsingle).
    exists k, entry. split_and!; [done..|].
    intros Hgt. destruct (Hsingle Hgt) as [-> Hover]. split; [lia | done].
  - intros ->. apply (blocks_single day covers (Calendar.schedules c) 0).
Qed.

End EventFacts.

(** ** Selection, the cleared registry, and what refresh leaves in a cell *)

Section RefreshFacts.
Context {Day : Type} `{!Day.Capability Day} {T : Type}.
Implicit Types (c : Calendar.t Day T) (cd : Calendar.CalendarDay Day T)
               (today : Day) (l : Calendar.ident).
Import Grid.

Lemma clearSelected_idem cd :
  Calendar.clearSelected (Calendar.clearSelected cd) = Calendar.clearSelected cd.
Proof. reflexivity. Qed.

Lemma updateSelected_idem (sel : Day.DaySpan Day) cd :
  Calendar.updateSelected sel (Calendar.updateSelected sel cd)
  = Calendar.updateSelected sel cd.
Proof. reflexivity. Qed.

(** X16.  [unselect] after [select] is [unselect]: the flags a selection
    stamped on the cells leave no trace once the selection is dropped. *)
Theorem unselect_select (point : Day -> Day.DaySpan Day) (start' : Day)
    (end' : option Day) c :
  Calendar.unselect (Calendar.select point start' end' c) = Calendar.unselect c.
Proof.
  unfold Calendar.unselect, Calendar.select, Calendar.refreshSelection,
    Calendar.iterateDays.
  set (sel := match end' with
              | Some e => Day.mkDaySpan start' e
              | None => point start'
              end).
  simpl.
  assert (Hcells :
    foldl (fun m l => alter (fun d : Calendar.CalendarDay Day T =>
                               Calendar.clearSelected d) l m)
      (foldl (fun m l => alter (fun d : Calendar.CalendarDay Day T =>
                                  Calendar.updateSelected sel d) l m)
         (Calendar.cells c) (Calendar.days c))
      (Calendar.days c)
    = foldl (fun m l => alter (fun d : Calendar.CalendarDay Day T =>
                                 Calendar.clearSelected d) l m)
        (Calendar.cells c) (Calendar.days c)).
  { apply map_eq. intros l.
    rewrite !foldl_alter_lookup
      by (intros; first [apply clearSelected_idem | apply updateSelected_idem]).
    destruct (decide (l ∈ Calendar.days c)); [|done].
    by destruct (Calendar.cells c !! l). }
  unfold Calendar.set_cells, Calendar.set_selection. simpl.
  by rewrite Hcells.
Qed.

(** X17.  [removeSchedules()] empties the registry and the event list of
    every cell of the grid that shows events (the cells in the calendar,
    or all of them with [eventsOutside]); it changes nothing else of a
    cell, and no cell outside the grid. *)
Theorem removeSchedules_all c :
  let c' := Calendar.removeSchedules None false c in
  Calendar.schedules c' = []
  /\ Calendar.days c' = Calendar.days c
  /\ forall l cd, Calendar.cells c !! l = Some cd ->
       Calendar.cells c' !! l
       = Some (if decide (l ∈ Calendar.days c)
               then if Calendar.inCalendar cd || Calendar.eventsOutside c
                    then Calendar.set_events [] cd
                    else cd
               else cd).
Proof.
  simpl. split_and!; [done | done |].
  intros l cd Hcd.
  change (Calendar.cells (Calendar.removeSchedules None false c))
    with (foldl (fun m l => alter (fillEvents (Calendar.set_schedules [] c)) l m)
            (Calendar.cells c) (Calendar.days c)).
  rewrite foldl_alter_lookup
    by (intros x; apply (fillEvents_idem (Calendar.set_schedules [] c))).
  rewrite Hcd. destruct (decide (l ∈ Calendar.days c)); done.
Qed.

(** The fields of a cell that the pipeline has nothing left to write. *)
Lemma pipeline_fixed today c cd :
  pipeline today c cd = cd ->
  Calendar.inCalendar cd = Day.contains (Calendar.span c) (Calendar.date cd)
  /\ Calendar.currentDay cd = Day.sameDay (Calendar.date cd) today
  /\ Calendar.currentWeek cd = Day.sameWeek (Calendar.date cd) today
  /\ Calendar.currentMonth cd = Day.sameMonth (Calendar.date cd) today
  /\ Calendar.currentYear cd = Day.sameYear (Calendar.date cd) today
  /\ Calendar.currentOffset cd
     = Day.daysBetween (Calendar.date cd) today Day.DOWN false
  /\ (Calendar.selectedDay cd, Calendar.selectedWeek cd,
      Calendar.selectedMonth cd, Calendar.selectedYear cd)
     = match Calendar.selection c with
       | Some sel =>
           (Day.spanMatchesDay sel (Calendar.date cd),
            Day.spanMatchesWeek sel (Calendar.date cd),
            Day.spanMatchesMonth sel (Calendar.date cd),
            Day.spanMatchesYear sel (Calendar.date cd))
       | None => (false, false, false, false)
       end
  /\ (Calendar.inCalendar cd || Calendar.eventsOutside c = true ->
      Calendar.events cd
      = Calendar.eventsForDay c (Calendar.date cd)
          (Calendar.listTimes c) (Calendar.repeatCovers c)).
Proof.
  intros Hfix. rewrite <- Hfix.
  unfold pipeline, fillEvents, select, stamp.
  destruct cd as [date cD cW cM cY cO sD sW sM sY inC ev]. simpl.
  destruct (Calendar.selection c) as [sel|]; simpl;
    destruct (Day.contains (Calendar.span c) date || Calendar.eventsOutside c)
      eqn:Hshow; simpl; split_and!; try done;
    intros Hshown; congruence.
Qed.

Lemma refresh_setup `{!Day.Laws Day} today c :
  wf c -> setup (Calendar.refresh today c) = setup c.
Proof.
  intros Hwf. unfold Calendar.refresh.
  set (c1 := Calendar.set_length _ c).
  assert (Hwf1 : wf c1) by exact Hwf.
  destruct (resetDays_spec c1 Hwf1) as (Hs & _). exact Hs.
Qed.

(** X18.  What [refresh(today)] leaves: the grid has
    [max(minimumSize, days of the padded span)] cells; the cell at
    position [i] is on the [i]-th date of the padded span, its
    [inCalendar] says whether the span contains it, its current flags and
    offset compare it with [today], its selected flags compare it with
    the selection (all [false] without one), and, when it shows events,
    its events are those of [eventsForDay] for its date. *)
Theorem refresh_cells `{!Day.Laws Day} today c :
  wf c ->
  let c' := Calendar.refresh today c in
  Z.of_nat (List.length (Calendar.days c')) = size c
  /\ forall (i : nat) l, Calendar.days c' !! i = Some l ->
       exists cd,
         Calendar.cells c' !! l = Some cd
         /\ Day.sameDay (Calendar.date cd) (target c i) = true
         /\ Calendar.inCalendar cd
            = Day.contains (Calendar.span c) (Calendar.date cd)
         /\ Calendar.currentDay cd = Day.sameDay (Calendar.date cd) today
         /\ Calendar.currentWeek cd = Day.sameWeek (Calendar.date cd) today
         /\ Calendar.currentMonth cd = Day.sameMonth (Calendar.date cd) today
         /\ Calendar.currentYear cd = Day.sameYear (Calendar.date cd) today
         /\ Calendar.currentOffset cd
            = Day.daysBetween (Calendar.date cd) today Day.DOWN false
         /\ (Calendar.selectedDay cd, Calendar.selectedWeek cd,
             Calendar.selectedMonth cd, Calendar.selectedYear cd)
            = match Calendar.selection c with
              | Some sel =>
                  (Day.spanMatchesDay sel (Calendar.date cd),
                   Day.spanMatchesWeek sel (Calendar.date cd),
                   Day.spanMatchesMonth sel (Calendar.date cd),
                   Day.spanMatchesYear sel (Calendar.date cd))
              | None => (false, false, false, false)
              end
         /\ (Calendar.inCalendar cd || Calendar.eventsOutside c = true ->
             Calendar.events cd
             = Calendar.eventsForDay c (Calendar.date cd)
                 (Calendar.listTimes c) (Calendar.repeatCovers c)).
Proof.
  intros Hwf c'.
  pose proof (refresh_setup today c Hwf) as Hs. fold c' in Hs.
  destruct (refresh_settled today c Hwf) as (_ & _ & Hlen & Hcells).
  fold c' in Hlen, Hcells.
  split; [by rewrite Hlen, (size_setup _ _ Hs)|].
  intros i l Hl. destruct (Hcells i l Hl) as (cd & Hcd & Hsame & Hfix).
  rewrite (target_setup _ _ _ Hs) in Hsame.
  rewrite (pipeline_setup _ _ _ _ Hs) in Hfix.
  exists cd. split; [done|]. split; [done|].
  apply (pipeline_fixed today c cd Hfix).
Qed.

End RefreshFacts.

(** ** The calendar between calls *)

Module Lifecycle.
Section WithDay.
Context {Day : Type} `{!Day.Capability Day} {T Input : Type}.
Variable parse : Input -> Calendar.CalendarSchedule Day T.
Variable point : Day -> Day.DaySpan Day.
Variable today : Day.

(** What the calls that refresh only the selection or only the events
    leave alone. *)
Definition grid (c : Calendar.t Day T) :=
  (Calendar.span c, Calendar.filled c, Calendar.length c, Calendar.fill c,
   Calendar.minimumSize c, Calendar.days c, Calendar.cells c).

(** What [refreshEvents] reads of the calendar. *)
Definition listing (c : Calendar.t Day T) :=
  (Calendar.schedules c, Calendar.listTimes c, Calendar.repeatCovers c,
   Calendar.eventsOutside c).

(** What no method of the calendar writes after the constructor. *)
Definition static (c : Calendar.t Day T) :=
  (Calendar.type c, Calendar.size c, Calendar.moveStart c, Calendar.moveEnd c).

(** The calendars a program gets from the constructor and from the calls
    that refresh what they change, while [Day.today()] is [today]. *)
Inductive reachable : Calendar.t Day T -> Prop :=
| reach_new start' end' type' size' moveStart' moveEnd' input :
    reachable (Calendar.new parse today start' end' type' size'
                 moveStart' moveEnd' input)
| reach_refresh c :
    reachable c -> reachable (Calendar.refresh today c)
| reach_move jump c :
    reachable c -> reachable (Calendar.move today jump c)
| reach_next jump c :
    reachable c -> reachable (Calendar.next today jump c)
| reach_prev jump c :
    reachable c -> reachable (Calendar.prev today jump c)
| reach_select start' end' c :
    reachable c -> reachable (Calendar.select point start' end' c)
| reach_unselect c :
    reachable c -> reachable (Calendar.unselect c)
| reach_withInput input c :
    reachable c -> reachable (Calendar.withInput parse today input true c)
| reach_withMinimumSize minimumSize' c :
    reachable c -> reachable (Calendar.withMinimumSize today minimumSize' c)
| reach_withRepeatCovers repeatCovers' c :
    reachable c -> reachable (Calendar.withRepeatCovers repeatCovers' c)
| reach_withListTimes listTimes' c :
    reachable c -> reachable (Calendar.withListTimes listTimes' c)
| reach_withEventsOutside eventsOutside' c :
    reachable c -> reachable (Calendar.withEventsOutside eventsOutside' c)
| reach_addSchedule schedule allowDuplicates c :
    reachable c ->
    reachable (Calendar.addSchedule parse schedule allowDuplicates false c)
| reach_addSchedules schedules allowDuplicates c :
    reachable c ->
    reachable (Calendar.addSchedules parse schedules allowDuplicates false c)
| reach_removeSchedule schedule c :
    reachable c -> reachable (Calendar.removeSchedule schedule false c)
| reach_removeSchedules schedules c :
    reachable c -> reachable (Calendar.removeSchedules schedules false c).
End WithDay.
End Lifecycle.

Section LifecycleFacts.
Context {Day : Type} `{!Day.Capability Day} {T : Type}.
Implicit Types (c : Calendar.t Day T) (cd : Calendar.CalendarDay Day T)
               (today : Day) (l : Calendar.ident).
Import Grid Lifecycle.

(** *** One cell *)

Lemma fixed_parts today c cd :
  pipeline today c cd = cd ->
  stamp c cd = cd
  /\ Calendar.updateCurrent today cd = cd
  /\ select c cd = cd
  /\ fillEvents c cd = cd.
Proof.
  intros Hfix. rewrite <- Hfix. split_and!.
  - apply stamp_pipeline.
  - apply updateCurrent_pipeline.
  - apply select_pipeline.
  - apply fillEvents_pipeline.
Qed.

(** A write that does not read the events goes through [fillEvents]. *)
Lemma fillEvents_through
    (f : Calendar.CalendarDay Day T -> Calendar.CalendarDay Day T) c cd :
  (forall ev x, f (Calendar.set_events ev x) = Calendar.set_events ev (f x)) ->
  f cd = cd -> f (fillEvents c cd) = fillEvents c cd.
Proof.
  intros Hc Hf. unfold fillEvents.
  destruct (_ || _); [by rewrite Hc, Hf | done].
Qed.

Lemma select_set_events c ev cd :
  select c (Calendar.set_events ev cd) = Calendar.set_events ev (select c cd).
Proof. unfold select. by destruct (Calendar.selection c). Qed.

(** A cell the pipeline of [c] has nothing to write to, once the events
    of [c1] are written to it, is a cell the pipeline of [c1] has nothing
    to write to. *)
Lemma pipeline_fillEvents today c c1 cd :
  Calendar.span c1 = Calendar.span c ->
  Calendar.selection c1 = Calendar.selection c ->
  pipeline today c cd = cd ->
  pipeline today c1 (fillEvents c1 cd) = fillEvents c1 cd.
Proof.
  intros Hspan Hsel Hfix.
  destruct (fixed_parts _ _ _ Hfix) as (Hst & Hcur & Hselc & _).
  assert (Hst1 : stamp c1 cd = cd) by (unfold stamp in *; by rewrite Hspan).
  assert (Hsel1 : select c1 cd = cd) by (unfold select in *; by rewrite Hsel).
  unfold pipeline.
  rewrite (fillEvents_through (stamp c1) c1 cd); [|done|done].
  rewrite (fillEvents_through (Calendar.updateCurrent today) c1 cd);
    [|done|done].
  rewrite (fillEvents_through (select c1) c1 cd);
    [|apply select_set_events|done].
  apply fillEvents_idem.
Qed.

(** The same with the selection of [c1] written to the cell. *)
Lemma pipeline_select today c c1 cd :
  Calendar.span c1 = Calendar.span c ->
  listing c1 = listing c ->
  pipeline today c cd = cd ->
  pipeline today c1 (select c1 cd) = select c1 cd.
Proof.
  unfold listing. intros Hspan [= Hsch Hlist Hrep Hout] Hfix.
  destruct (fixed_parts _ _ _ Hfix) as (Hst & Hcur & _ & Hev).
  assert (Hst1 : stamp c1 (select c1 cd) = select c1 cd).
  { transitivity (select c1 (stamp c1 cd)).
    - unfold select. by destruct (Calendar.selection c1).
    - unfold stamp in *. by rewrite Hspan, Hst. }
  assert (Hcur1 : Calendar.updateCurrent today (select c1 cd) = select c1 cd).
  { transitivity (select c1 (Calendar.updateCurrent today cd)).
    - unfold select. by destruct (Calendar.selection c1).
    - by rewrite Hcur. }
  assert (Hev1 : fillEvents c1 (select c1 cd) = select c1 cd).
  { transitivity (select c1 (fillEvents c1 cd)).
    - unfold select, fillEvents.
      destruct (Calendar.selection c1); simpl; by destruct (_ || _).
    - unfold fillEvents, Calendar.eventsForDay in *.
      by rewrite Hsch, Hlist, Hrep, Hout, Hev. }
  unfold pipeline. by rewrite Hst1, Hcur1, select_idem, Hev1.
Qed.

(** *** References and cells *)

Lemma foldl_alter_is_Some
    (f : Calendar.CalendarDay Day T -> Calendar.CalendarDay Day T)
    (ds : list Calendar.ident)
    (m : gmap Calendar.ident (Calendar.CalendarDay Day T)) l :
  is_Some (m !! l) -> is_Some (foldl (fun m l => alter f l m) m ds !! l).
Proof.
  revert m. induction ds as [|a ds IH]; intros m Hm; simpl; [done|].
  apply IH. destruct (decide (l = a)) as [->|Hne].
  - rewrite lookup_alter_eq. destruct Hm as [x ->]. by eexists.
  - by rewrite lookup_alter_ne.
Qed.

Lemma wf_iterateDays f c : wf c -> wf (Calendar.iterateDays f c).
Proof.
  unfold wf. simpl. intros Hwf. eapply Forall_impl; [exact Hwf|].
  intros l. apply foldl_alter_is_Some.
Qed.

Lemma wf_grid c c1 : grid c1 = grid c -> wf c -> wf c1.
Proof.
  unfold grid, wf. intros [= _ _ _ _ _ Hdays Hcells]. by rewrite Hdays, Hcells.
Qed.

Lemma settled_wf today c : settled today c -> wf c.
Proof.
  intros (_ & _ & _ & Hcells). unfold wf. apply Forall_lookup.
  intros i l Hl. destruct (Hcells i l Hl) as (cd & Hcd & _). by eexists.
Qed.

(** *** The registry calls that delay the refresh *)

Lemma addSchedule_grid {Input : Type}
    (parse : Input -> Calendar.CalendarSchedule Day T) (x : Input)
    (allowDuplicates : bool) c :
  grid (Calendar.addSchedule parse x allowDuplicates true c) = grid c
  /\ Calendar.selection (Calendar.addSchedule parse x allowDuplicates true c)
     = Calendar.selection c.
Proof. unfold Calendar.addSchedule. by destruct (negb allowDuplicates && _). Qed.

Lemma addSchedule_fold_grid {Input : Type}
    (parse : Input -> Calendar.CalendarSchedule Day T) (xs : list Input)
    (allowDuplicates : bool) c :
  grid (foldl (fun c x => Calendar.addSchedule parse x allowDuplicates true c)
          c xs)
  = grid c
  /\ Calendar.selection
       (foldl (fun c x => Calendar.addSchedule parse x allowDuplicates true c)
          c xs)
     = Calendar.selection c.
Proof.
  revert c. induction xs as [|x xs IH]; intros c; simpl; [done|].
  destruct (IH (Calendar.addSchedule parse x allowDuplicates true c))
    as [Hg Hs].
  destruct (addSchedule_grid parse x allowDuplicates c) as [Hg1 Hs1].
  split; congruence.
Qed.

Lemma removeSchedule_grid (input : Calendar.ident) c :
  grid (Calendar.removeSchedule input true c) = grid c
  /\ Calendar.selection (Calendar.removeSchedule input true c)
     = Calendar.selection c.
Proof. unfold Calendar.removeSchedule. by destruct (Calendar.findSchedule c input). Qed.

Lemma removeSchedule_fold_grid (inputs : list Calendar.ident) c :
  grid (foldl (fun c x => Calendar.removeSchedule x true c) c inputs) = grid c
  /\ Calendar.selection
       (foldl (fun c x => Calendar.removeSchedule x true c) c inputs)
     = Calendar.selection c.
Proof.
  revert c. induction inputs as [|x xs IH]; intros c; simpl; [done|].
  destruct (IH (Calendar.removeSchedule x true c)) as [Hg Hs].
  destruct (removeSchedule_grid x c) as [Hg1 Hs1].
  split; congruence.
Qed.

Lemma wf_addSchedules {Input : Type}
    (parse : Input -> Calendar.CalendarSchedule Day T) (xs : list Input)
    (allowDuplicates delayRefresh : bool) c :
  wf c -> wf (Calendar.addSchedules parse xs allowDuplicates delayRefresh c).
Proof.
  intros Hwf. unfold Calendar.addSchedules.
  destruct (addSchedule_fold_grid parse xs allowDuplicates c) as [Hg _].
  pose proof (wf_grid _ _ Hg Hwf) as Hwf'.
  destruct delayRefresh; simpl; [done|]. by apply wf_iterateDays.
Qed.

Lemma wf_withInput {Input : Type}
    (parse : Input -> Calendar.CalendarSchedule Day T) today
    (input : Calendar.CalendarInput Input) (delayRefresh : bool) c :
  wf c ->
  wf match Calendar.input_schedules input with
     | Some schedules =>
         Calendar.addSchedules parse schedules false delayRefresh
           (Calendar.removeSchedules None false
              (Calendar.set_options
                 (default (Calendar.fill c) (Calendar.input_fill input))
                 (default (Calendar.minimumSize c)
                    (Calendar.input_minimumSize input))
                 (default (Calendar.repeatCovers c)
                    (Calendar.input_repeatCovers input))
                 (default (Calendar.listTimes c)
                    (Calendar.input_listTimes input))
                 (default (Calendar.eventsOutside c)
                    (Calendar.input_eventsOutside input))
                 c))
     | None =>
         Calendar.set_options
           (default (Calendar.fill c) (Calendar.input_fill input))
           (default (Calendar.minimumSize c)
              (Calendar.input_minimumSize input))
           (default (Calendar.repeatCovers c)
              (Calendar.input_repeatCovers input))
           (default (Calendar.listTimes c)
              (Calendar.input_listTimes input))
           (default (Calendar.eventsOutside c)
              (Calendar.input_eventsOutside input))
           c
     end.
Proof.
  intros Hwf. destruct (Calendar.input_schedules input) as [xs|]; [|exact Hwf].
  apply wf_addSchedules.
  apply (wf_iterateDays _ (Calendar.set_schedules [] _)). exact Hwf.
Qed.

(** *** Settled calendars *)

(** An iterator over the cells that writes what the pipeline would write
    leaves a settled calendar settled. *)
Lemma settled_iterate today c c1
    (g : Calendar.CalendarDay Day T -> Calendar.CalendarDay Day T) :
  settled today c ->
  grid c1 = grid c ->
  (forall x, g (g x) = g x) ->
  (forall x, Calendar.date (g x) = Calendar.date x) ->
  (forall x, pipeline today c x = x -> pipeline today c1 (g x) = g x) ->
  settled today (Calendar.iterateDays g c1).
Proof.
  intros (Hfilled & Hlength & Hlen & Hcells).
  unfold grid. intros [= Hspan Hfilled1 Hlength1 Hfill Hmin Hdays Hcells1].
  intros Hidem Hdate Hfix.
  set (c2 := Calendar.iterateDays g c1).
  assert (Hpad : padded c2 = padded c).
  { unfold padded. simpl. by rewrite Hspan, Hfill. }
  assert (Hsize : size c2 = size c).
  { unfold size. rewrite Hpad. simpl. by rewrite Hmin. }
  split_and!.
  - rewrite Hpad. simpl. congruence.
  - simpl. congruence.
  - rewrite Hsize. simpl. by rewrite Hdays.
  - intros i l Hl. simpl in Hl. rewrite Hdays in Hl.
    destruct (Hcells i l Hl) as (cd & Hcd & Hsame & Hp).
    exists (g cd). split_and!.
    + apply iterateDays_lookup; [done | | congruence].
      rewrite Hdays. apply list_elem_of_lookup. by eexists.
    + rewrite Hdate. unfold target. rewrite Hpad. exact Hsame.
    + rewrite (pipeline_setup today c1 c2) by reflexivity. by apply Hfix.
Qed.

Lemma settled_refreshEvents today c c1 :
  settled today c ->
  grid c1 = grid c -> Calendar.selection c1 = Calendar.selection c ->
  settled today (Calendar.refreshEvents c1).
Proof.
  intros Hs Hg Hsel. rewrite refreshEvents_iterate.
  apply (settled_iterate today c c1); [done | done | | |].
  - apply fillEvents_idem.
  - intros x. unfold fillEvents. by destruct (_ || _).
  - intros x. apply pipeline_fillEvents; [|done].
    unfold grid in Hg. by injection Hg.
Qed.

Lemma settled_refreshSelection today c c1 :
  settled today c ->
  grid c1 = grid c -> listing c1 = listing c ->
  settled today (Calendar.refreshSelection c1).
Proof.
  intros Hs Hg Hl. rewrite refreshSelection_iterate.
  apply (settled_iterate today c c1); [done | done | | |].
  - apply select_idem.
  - intros x. unfold select. by destruct (Calendar.selection c1).
  - intros x. apply pipeline_select; [|done].
    unfold grid in Hg. by injection Hg.
Qed.

Lemma new_settled `{!Day.Laws Day} {Input : Type}
    (parse : Input -> Calendar.CalendarSchedule Day T) today
    start' end' type' size' moveStart' moveEnd' input :
  settled today
    (Calendar.new parse today start' end' type' size' moveStart' moveEnd' input).
Proof.
  unfold Calendar.new. apply refresh_settled.
  destruct input as [input|]; [|apply Forall_nil; done].
  unfold Calendar.withInput. apply wf_withInput; [exact today|].
  apply Forall_nil. done.
Qed.

Lemma reachable_settled `{!Day.Laws Day} {Input : Type}
    (parse : Input -> Calendar.CalendarSchedule Day T)
    (point : Day -> Day.DaySpan Day) today c :
  reachable parse point today c -> settled today c.
Proof.
  induction 1 as [ | c _ IH | jump c _ IH | jump c _ IH | jump c _ IH
                 | start' end' c _ IH | c _ IH | input c _ IH
                 | minimumSize' c _ IH | repeatCovers' c _ IH
                 | listTimes' c _ IH | eventsOutside' c _ IH
                 | x dup c _ IH | xs dup c _ IH | input c _ IH
                 | inputs c _ IH ].
  - apply new_settled.
  - apply refresh_settled. by eapply settled_wf.
  - apply refresh_settled. exact (settled_wf _ _ IH).
  - apply refresh_settled. exact (settled_wf _ _ IH).
  - apply refresh_settled. exact (settled_wf _ _ IH).
  - by apply (settled_refreshSelection today c).
  - by apply (settled_refreshSelection today c).
  - unfold Calendar.withInput. apply refresh_settled.
    apply (wf_withInput parse today input false c), (settled_wf _ _ IH).
  - apply refresh_settled. exact (settled_wf _ _ IH).
  - by apply (settled_refreshEvents today c).
  - by apply (settled_refreshEvents today c).
  - by apply (settled_refreshEvents today c).
  - unfold Calendar.addSchedule.
    destruct (negb dup && _); [done|].
    by apply (settled_refreshEvents today c).
  - unfold Calendar.addSchedules.
    destruct (addSchedule_fold_grid parse xs dup c) as [Hg Hs].
    by apply (settled_refreshEvents today c).
  - unfold Calendar.removeSchedule.
    destruct (Calendar.findSchedule c input); [|done].
    by apply (settled_refreshEvents today c).
  - unfold Calendar.removeSchedules. destruct inputs as [inputs|].
    + destruct (removeSchedule_fold_grid inputs c) as [Hg Hs].
      by apply (settled_refreshEvents today c).
    + by apply (settled_refreshEvents today c).
Qed.

(** X19.  Between calls the calendar is refreshed: a calendar got from
    the constructor and from any sequence of [refresh], [move], [next],
    [prev], [select], [unselect], [withInput], [withMinimumSize],
    [withRepeatCovers], [withListTimes], [withEventsOutside] and of the
    registry calls that do not delay the refresh holds references to
    cells that exist, and a [refresh] on the same day changes nothing of
    it; so the calls that refresh only the selection or only the events
    leave nothing for a full refresh to do. *)
Theorem reachable_refreshed `{!Day.Laws Day} {Input : Type}
    (parse : Input -> Calendar.CalendarSchedule Day T)
    (point : Day -> Day.DaySpan Day) today c :
  reachable parse point today c ->
  wf c /\ Calendar.refresh today c = c.
Proof.
  intros Hr. pose proof (reachable_settled parse point today c Hr) as Hs.
  split; [by eapply settled_wf | by apply settled_refresh].
Qed.

End LifecycleFacts.

(** ** The pieces of split *)

Section SplitFacts.
Context {Day : Type} `{!Day.Capability Day} {T : Type}.
Implicit Types (c : Calendar.t Day T) (today : Day).
Import Grid Lifecycle.

Lemma resetDays_step_static c (i : nat) (cur : Day) :
  static (Calendar.resetDays_step c i cur) = static c.
Proof.
  unfold Calendar.resetDays_step, Calendar.replaceDay.
  destruct (Calendar.reusable c i cur); [done|]. simpl.
  by destruct (bool_decide _).
Qed.

Lemma resetDays_loop_static (n i : nat) (cur : Day) c :
  static (Calendar.resetDays_loop n i cur c) = static c.
Proof.
  revert i cur c. induction n as [|n IH]; intros i cur c; simpl; [done|].
  by rewrite IH, resetDays_step_static.
Qed.

(** [refresh] writes none of [type], [size], [moveStart], [moveEnd]. *)
Lemma refresh_static today c : static (Calendar.refresh today c) = static c.
Proof.
  unfold Calendar.refresh.
  change (static (Calendar.resetDays
                    (Calendar.set_length
                       (Day.days (Calendar.span c) Day.UP (Some true)) c))
          = static c).
  unfold Calendar.resetDays.
  set (c1 := Calendar.resetDays_loop _ _ _ _).
  assert (Hc1 : static c1 = static c)
    by (unfold c1; by rewrite resetDays_loop_static).
  by destruct (_ >? _).
Qed.

Lemma split_loop_spec (parse : Calendar.CalendarSchedule Day T
                               -> Calendar.CalendarSchedule Day T)
    today (by_ : Z) c (n : nat) (start' end' : Day) :
  List.length (Calendar.split_loop parse today by_ c n start' end') = n
  /\ forall (i : nat) piece,
       Calendar.split_loop parse today by_ c n start' end' !! i = Some piece ->
       piece
       = Calendar.new parse today
           (Nat.iter i (fun d => Calendar.moveStart c d by_) start')
           (Nat.iter i (fun d => Calendar.moveEnd c d by_) end')
           (Calendar.type c) by_ (Calendar.moveStart c) (Calendar.moveEnd c)
           (Some (Calendar.asInput c)).
Proof.
  revert start' end'. induction n as [|n IH]; intros start' end'; simpl.
  - split; [done|]. intros i piece Hi. done.
  - destruct (IH (Calendar.moveStart c start' by_)
                 (Calendar.moveEnd c end' by_)) as [Hlen Hpieces].
    split; [by rewrite Hlen|].
    intros [|i] piece Hi; simpl in Hi.
    + by inversion Hi.
    + rewrite (Hpieces i piece Hi). by rewrite !Nat.iter_succ_r.
Qed.

(** X20.  [split(by)] gives [size] calendars.  The piece at position [i]
    spans from the start moved [i] times by [by] to the end moved once by
    [by - size] and then [i] times by [by]; it has size [by] and the
    type and movers of the calendar, and its five options; it has no
    selection, whatever the calendar has selected; its registry holds
    parsed registrations of the calendar, in their order, and nothing
    else; and it is refreshed. *)
Theorem split_pieces `{!Day.Laws Day}
    (parse : Calendar.CalendarSchedule Day T -> Calendar.CalendarSchedule Day T)
    today (by_ : Z) c :
  List.length (Calendar.split parse today by_ c) = Z.to_nat (Calendar.size c)
  /\ forall (i : nat) piece,
       Calendar.split parse today by_ c !! i = Some piece ->
       Calendar.span piece
       = Day.mkDaySpan
           (Nat.iter i (fun d => Calendar.moveStart c d by_) (Calendar.start c))
           (Nat.iter i (fun d => Calendar.moveEnd c d by_)
              (Calendar.moveEnd c (Calendar.end_ c) (by_ - Calendar.size c)))
       /\ static piece
          = (Calendar.type c, by_, Calendar.moveStart c, Calendar.moveEnd c)
       /\ (Calendar.fill piece, Calendar.minimumSize piece,
           Calendar.repeatCovers piece, Calendar.listTimes piece,
           Calendar.eventsOutside piece)
          = (Calendar.fill c, Calendar.minimumSize c, Calendar.repeatCovers c,
             Calendar.listTimes c, Calendar.eventsOutside c)
       /\ Calendar.selection piece = None
       /\ sublist (Calendar.schedules piece) (parse <$> Calendar.schedules c)
       /\ wf piece
       /\ Calendar.refresh today piece = piece.
Proof.
  unfold Calendar.split.
  destruct (split_loop_spec parse today by_ c (Z.to_nat (Calendar.size c))
              (Calendar.start c)
              (Calendar.moveEnd c (Calendar.end_ c) (by_ - Calendar.size c)))
    as [Hlen Hpieces].
  split; [exact Hlen|].
  intros i piece Hi. rewrite (Hpieces i piece Hi). clear Hpieces Hi Hlen.
  set (start' := Nat.iter i _ (Calendar.start c)).
  set (end' := Nat.iter i _ (Calendar.moveEnd c _ _)).
  pose proof (new_settled parse today start' end' (Calendar.type c) by_
                (Calendar.moveStart c) (Calendar.moveEnd c)
                (Some (Calendar.asInput c))) as Hsettled.
  assert (Hfields :
    exists X : Calendar.t Day T,
      Calendar.new parse today start' end' (Calendar.type c) by_
        (Calendar.moveStart c) (Calendar.moveEnd c) (Some (Calendar.asInput c))
      = Calendar.refresh today X
      /\ wf X
      /\ Calendar.span X = Day.mkDaySpan start' end'
      /\ static X
         = (Calendar.type c, by_, Calendar.moveStart c, Calendar.moveEnd c)
      /\ (Calendar.fill X, Calendar.minimumSize X, Calendar.repeatCovers X,
          Calendar.listTimes X, Calendar.eventsOutside X)
         = (Calendar.fill c, Calendar.minimumSize c, Calendar.repeatCovers c,
            Calendar.listTimes c, Calendar.eventsOutside c)
      /\ Calendar.selection X = None
      /\ sublist (Calendar.schedules X) (parse <$> Calendar.schedules c)).
  { set (c0 := (Calendar.removeSchedules None false
                 (Calendar.set_options (Calendar.fill c)
                    (Calendar.minimumSize c) (Calendar.repeatCovers c)
                    (Calendar.listTimes c) (Calendar.eventsOutside c)
                    (Calendar.mk (Day.mkDaySpan start' end')
                       (Day.mkDaySpan start' end') 0 (Calendar.type c) by_
                       (Calendar.moveStart c) (Calendar.moveEnd c)
                       false 0 true false false None [] [] ∅))
               : Calendar.t Day T)).
    destruct (addSchedule_fold_appends parse (Calendar.schedules c) false c0)
      as (added & Hadded & Hsub & _).
    exists (Calendar.set_schedules
              (Calendar.schedules
                 (foldl (fun c x => Calendar.addSchedule parse x false true c)
                    c0 (Calendar.schedules c)))
              c0).
    split_and!.
    - unfold Calendar.new. f_equal.
      exact (addSchedule_fold_set parse (Calendar.schedules c) false c0).
    - apply Forall_nil. done.
    - done.
    - done.
    - done.
    - done.
    - simpl. rewrite Hadded. exact Hsub. }
  destruct Hfields as (X & HX & HwfX & Hspan & Hstatic & Hopts & Hsel & Hsch).
  rewrite HX in Hsettled |- *. clear HX.
  pose proof (refresh_setup today X HwfX) as Hsetup.
  unfold setup in Hsetup.
  injection Hsetup as Hspan' Hfill' Hmin' Hsel' Hsch' Hlist' Hrep' Hout'.
  split_and!.
  - transitivity (Calendar.span X); [exact Hspan' | exact Hspan].
  - by rewrite refresh_static.
  - assert (Hf : Calendar.fill (Calendar.refresh today X) = Calendar.fill X)
      by exact Hfill'.
    assert (Hm : Calendar.minimumSize (Calendar.refresh today X)
                 = Calendar.minimumSize X) by exact Hmin'.
    assert (Hr : Calendar.repeatCovers (Calendar.refresh today X)
                 = Calendar.repeatCovers X) by exact Hrep'.
    assert (Hl : Calendar.listTimes (Calendar.refresh today X)
                 = Calendar.listTimes X) by exact Hlist'.
    assert (Ho : Calendar.eventsOutside (Calendar.refresh today X)
                 = Calendar.eventsOutside X) by exact Hout'.
    rewrite Hf, Hm, Hr, Hl, Ho. exact Hopts.
  - transitivity (Calendar.selection X); [exact Hsel' | exact Hsel].
  - replace (Calendar.schedules (Calendar.refresh today X))
      with (Calendar.schedules X) by (symmetry; exact Hsch').
    exact Hsch.
  - by eapply settled_wf.
  - by apply settled_refresh.
Qed.

End SplitFacts.

(** ** Bounds, ranges and reach of a schedule *)

Section RangeFacts.
Context {Day : Type} `{!Day.Capability Day}.
Implicit Types (s : Schedule.t Day) (day : Day).

(** X21.  [matchesRange(start, end)] compares the first day of the range
    with the start of the schedule the other way round than
    [matchesSpan]: it accepts a range only when the range starts at or
    before the start of the schedule and ends before its end.  So a range
    it accepts whose first day is within the bounds ([matchesSpan])
    starts at the very time the schedule starts, and every day of a
    schedule with no start and no end passes both tests. *)
Theorem matchesRange_matchesSpan s (first last : Day) :
  (forall st, Schedule.start s = Some st ->
     Schedule.matchesRange s first last = true ->
     Day.time first <= Day.time st
     /\ (Schedule.matchesSpan s first = true -> Day.time first = Day.time st))
  /\ (forall en, Schedule.end_ s = Some en ->
        Schedule.matchesRange s first last = true ->
        Day.time last < Day.time en)
  /\ (Schedule.start s = None -> Schedule.end_ s = None ->
      Schedule.matchesRange s first last = true
      /\ Schedule.matchesSpan s first = true).
Proof.
  unfold Schedule.matchesRange, Schedule.matchesSpan,
    Day.isSameOrBefore, Day.isSameOrAfter, Day.isBefore.
  split_and!.
  - intros st ->. rewrite !andb_true_iff, Z.leb_le.
    intros [Hle _]. split; [done|]. rewrite Z.leb_le. lia.
  - intros en ->. rewrite andb_true_iff, Z.ltb_lt. tauto.
  - by intros -> ->.
Qed.

(** X22.  [updateDurationInDays] changes nothing of what [matchesDay]
    reads, and makes every matching day a covered day: after it,
    [findStartingDay] of a day that matches is the day itself and
    [getSpanOver] is the full span of that day.  It is what rules out
    the one case where a matching day is not covered: with a negative
    [durationInDays] the loop of [findStartingDay] does not run, and no
    day is covered. *)
Theorem matching_day_covered s day :
  Schedule.matchesDay (Schedule.updateDurationInDays s) day
  = Schedule.matchesDay s day
  /\ (Schedule.matchesDay s day = true ->
      Schedule.findStartingDay (Schedule.updateDurationInDays s) day = Some day
      /\ Schedule.coversDay (Schedule.updateDurationInDays s) day = true
      /\ Schedule.getSpanOver (Schedule.updateDurationInDays s) day
         = Some (Schedule.getFullSpan s day))
  /\ (Schedule.durationInDays s < 0 ->
      Schedule.findStartingDay s day = None
      /\ Schedule.coversDay s day = false
      /\ Schedule.getSpansOver s day = []).
Proof.
  split_and!.
  - reflexivity.
  - intros Hm.
    assert (Hstart : Schedule.findStartingDay (Schedule.updateDurationInDays s) day
                     = Some day).
    { apply findStartingDay_of_match; [|exact Hm].
      unfold Schedule.updateDurationInDays, Schedule.computeDurationInDays.
      simpl. lia. }
    unfold Schedule.coversDay, Schedule.getSpanOver. rewrite Hstart.
    split_and!; [done | | done].
    apply bool_decide_eq_true. by eexists.
  - intros Hneg.
    assert (Hstart : Schedule.findStartingDay s day = None).
    { unfold Schedule.findStartingDay.
      by replace (Z.to_nat (Schedule.durationInDays s + 1)) with 0%nat by lia. }
    unfold Schedule.coversDay, Schedule.getSpansOver. rewrite Hstart.
    split_and!; [done | | done].
    apply bool_decide_eq_false. by intros [x [=]].
Qed.

End RangeFacts.

(** ** Further concrete schedules and calendars *)

Section MoreExamples.
Import WholeDays.

(** A schedule at twenty-five times of the day, one more than the ids of
    a registration hold, and a second schedule after it. *)
Definition crowded : Calendar.t Z nat :=
  calendar 0 6 [registration 0 (everyDayAt (replicate 25 0));
                registration 1 (everyDayAt [0])].

Definition crowdedLast : Calendar.CalendarEvent Z nat :=
  Calendar.newCalendarEvent 24 (Calendar.mkObj 2%nat 0%nat)
    (Calendar.mkObj 1%nat (everyDayAt (replicate 25 0)))
    (Day.mkDaySpan 3 4) 3.

Definition crowdedNext : Calendar.CalendarEvent Z nat :=
  Calendar.newCalendarEvent 24 (Calendar.mkObj 5%nat 1%nat)
    (Calendar.mkObj 4%nat (everyDayAt [0]))
    (Day.mkDaySpan 3 4) 3.

(** A week built by the constructor, with a day selected. *)
Definition selectedWeek : Calendar.t Z nat :=
  Calendar.select (fun d => Day.mkDaySpan d d) 2 None
    (Calendar.new (fun r : Calendar.CalendarSchedule Z nat => r) 3 0 6
       Calendar.WEEK 7 (fun d n => d + 7 * n) (fun d n => d + 7 * n)
       (Some (Calendar.asInput week))).

Example crowded_ids :
  List.length (Calendar.eventsForDay crowded 3 true false) = 26%nat
  /\ Calendar.id <$> drop 24 (Calendar.eventsForDay crowded 3 true false)
     = [24; 24].
Proof. vm_compute. done. Qed.

Example split_week :
  (fun piece => (Day.start (Calendar.span piece), Day.end_ (Calendar.span piece),
                 List.length (Calendar.days piece)))
    <$> Calendar.split (fun r => r) 3 1 week
  = [(0, 0, 1%nat); (1, 1, 1%nat); (2, 2, 1%nat); (3, 3, 1%nat);
     (4, 4, 1%nat); (5, 5, 1%nat); (6, 6, 1%nat)].
Proof. vm_compute. done. Qed.

(** A callback that counts its calls and returns [false] on the second:
    it is called on the Monday and on the Wednesday, and on no day
    after. *)
Example walk_stopped :
  Schedule.acc
    (Schedule.iterateDays (weekly [1; 3; 5] 1) 7 3 true
       (Claims.recording (fun _ (n : Z) => (n + 1, n <? 1)))
       false 366 (0, []))
  = (2, [(8, true); (10, false)])
  /\ Schedule.exit
       (Schedule.iterateDays (weekly [1; 3; 5] 1) 7 3 true
          (Claims.recording (fun _ (n : Z) => (n + 1, n <? 1)))
          false 366 (0, []))
     = Schedule.CallbackStopped.
Proof. vm_compute. done. Qed.

Lemma iterateDays_stops_witness :
  Claims.stopsExactly 3 366
    (Schedule.iterateDays (weekly [1; 3; 5] 1) 7 3 true
       (Claims.recording (fun _ (n : Z) => (n + 1, n <? 1)))
       false 366 (0, [])).
Proof.
  pose proof (iterateDays_stops (weekly [1; 3; 5] 1) 7 3 true
                (fun _ (n : Z) => (n + 1, n <? 1)) false 366 0)
    as (_ & _ & _ & _ & _ & Hstops).
  apply Hstops. lia.
Defined.

Lemma spans_over_matching_day_witness :
  Schedule.getSpanOver (everyDay 1 0 ∅) 10
  = Some (Schedule.getFullSpan (everyDay 1 0 ∅) 10).
Proof.
  assert (Hdur : 0 <= Schedule.durationInDays (everyDay 1 0 ∅))
    by (simpl; lia).
  assert (Hm : Schedule.matchesDay (everyDay 1 0 ∅) 10 = true)
    by (vm_compute; reflexivity).
  exact (proj1 (spans_over_matching_day (everyDay 1 0 ∅) 10 Hdur Hm)).
Defined.

Lemma addSchedules_distinct_witness :
  NoDup (Calendar.entry
           <$> Calendar.schedules
                 (Calendar.addSchedules (fun r => r)
                    [registration 1 (everyDayAt [0]);
                     registration 0 (weekly [1; 3; 5] 1);
                     registration 1 (everyDayAt [0])]
                    false false week)).
Proof.
  apply (proj1 (addSchedules_distinct (fun r => r)
                  [registration 1 (everyDayAt [0]);
                   registration 0 (weekly [1; 3; 5] 1);
                   registration 1 (everyDayAt [0])]
                  false week (NoDup_singleton 0%nat))).
Defined.

Lemma coherent_twoSchedules : Registry.coherent twoSchedules.
Proof.
  intros a b Ha Hb Heq. unfold twoSchedules, calendar in Ha, Hb. simpl in Ha, Hb.
  apply elem_of_cons in Ha as [->|Ha]; apply elem_of_cons in Hb as [->|Hb];
    try done;
    repeat match goal with
           | Hx : _ ∈ [_] |- _ => apply list_elem_of_singleton in Hx; subst
           end;
    try done; discriminate Heq.
Defined.

Lemma removeSchedule_removes_first_witness :
  match Calendar.findSchedule twoSchedules 4%nat with
  | Some found =>
      exists l1 l2,
        Calendar.schedules twoSchedules = l1 ++ found :: l2
        /\ Registry.identifies 4%nat found
        /\ (forall y, y ∈ l1 -> ~ Registry.identifies 4%nat y)
        /\ Calendar.schedules (Calendar.removeSchedule 4%nat true twoSchedules)
           = l1 ++ l2
  | None =>
      (forall y, y ∈ Calendar.schedules twoSchedules
                 -> ~ Registry.identifies 4%nat y)
      /\ Calendar.removeSchedule 4%nat true twoSchedules = twoSchedules
  end.
Proof.
  exact (removeSchedule_removes_first 4%nat true twoSchedules
           coherent_twoSchedules).
Defined.

Lemma removeSchedule_addSchedule_witness :
  Calendar.removeSchedule 3%nat true
    (Calendar.addSchedule (fun r => r) (registration 1 (everyDayAt [0]))
       false true week)
  = week.
Proof.
  exact (removeSchedule_addSchedule (fun r => r)
           (registration 1 (everyDayAt [0])) false week eq_refl).
Defined.

Lemma twoSchedules_fit (k : nat) (entry : Calendar.CalendarSchedule Z nat) :
  Calendar.schedules twoSchedules !! k = Some entry ->
  Z.of_nat (List.length (Calendar.eventsOfEntry 3 true false k entry))
  <= Day.MAX_EVENTS_PER_DAY.
Proof.
  destruct k as [|[|k]]; simpl; intros Hk; inversion Hk; subst; clear Hk.
  - vm_compute. discriminate.
  - vm_compute. discriminate.
Defined.

Lemma eventsForDay_ids_ascending_witness :
  NoDup (Calendar.id <$> Calendar.eventsForDay twoSchedules 3 true false).
Proof.
  exact (proj2 (eventsForDay_ids_ascending twoSchedules 3 true false
                  twoSchedules_fit)).
Defined.

Lemma eventsForDay_id_collision_witness :
  Calendar.id crowdedLast = Calendar.id crowdedNext
  /\ Calendar.scheduleId crowdedLast = 1.
Proof.
  pose proof (eventsForDay_id_collision crowded 3 false 0
                (registration 0 (everyDayAt (replicate 25 0)))
                (registration 1 (everyDayAt [0]))
                crowdedLast crowdedNext
                eq_refl eq_refl eq_refl eq_refl eq_refl)
    as (_ & _ & _ & _ & Hid & Hsid).
  exact (conj Hid Hsid).
Defined.

Lemma refresh_cells_witness :
  Z.of_nat (List.length (Calendar.days (Calendar.refresh 10 paddedWeek))) = 7
  /\ forall (i : nat) l,
       Calendar.days (Calendar.refresh 10 paddedWeek) !! i = Some l ->
       exists cd,
         Calendar.cells (Calendar.refresh 10 paddedWeek) !! l = Some cd
         /\ Calendar.date cd = 7 + Z.of_nat i.
Proof.
  pose proof (refresh_cells 10 paddedWeek wf_paddedWeek) as (Hlen & Hcells).
  split; [exact Hlen|].
  intros i l Hl. destruct (Hcells i l Hl) as (cd & Hcd & Hsame & _).
  exists cd. split; [exact Hcd|].
  apply Z.eqb_eq in Hsame. rewrite Hsame.
  unfold Grid.target, Day.forth. simpl.
  clear. induction i as [|i IH]; [done|].
  rewrite Nat.iter_succ, IH. simpl. lia.
Defined.

Lemma reachable_refreshed_witness :
  Grid.wf selectedWeek /\ Calendar.refresh 3 selectedWeek = selectedWeek.
Proof.
  apply (reachable_refreshed (fun r : Calendar.CalendarSchedule Z nat => r)
           (fun d => Day.mkDaySpan d d) 3 selectedWeek).
  apply Lifecycle.reach_select, Lifecycle.reach_new.
Defined.

Lemma split_pieces_witness :
  List.length (Calendar.split (fun r => r) 3 1 week)
  = Z.to_nat (Calendar.size week).
Proof.
  exact (proj1 (split_pieces (fun r => r) 3 1 week)).
Defined.

End MoreExamples.
